(** * Dual-write ingestion and cache-aside reads: a shallow embedding

    The two Lambda functions of the repository are embedded here:
    [lambda_functions/data_processor.py] (ingestion into Redis and
    OpenSearch) and [lambda_functions/api_handler.py] (cache-aside reads).

    Python code becomes functions in a state-and-exception monad over a
    [world] that holds the Redis keyspace, the set of OpenSearch indices,
    the journal of store calls, the log, and the fields of the handler
    object.  State survives an exception, as it does in Python: a Redis
    write made before a later command raises stays written. *)

From Stdlib Require Import ZArith List String Ascii DecimalString DecimalZ.
From stdpp Require Import base gmap strings list.

Set Warnings "-register-all".
Local Open Scope string_scope.
Local Open Scope Z_scope.

(** ** Decimal rendering of integers

    [str_of_Z] is what Python's [str] and Redis print for an integer;
    [Z_of_str] accepts exactly the strings that [str_of_Z] prints, which is
    what Redis accepts as the integer value of a string key. *)

Definition str_of_Z (z : Z) : string := NilZero.string_of_int (Z.to_int z).

Definition Z_of_str (s : string) : option Z :=
  match NilZero.int_of_string s with
  | Some d => let z := Z.of_int d in
              if String.eqb (str_of_Z z) s then Some z else None
  | None => None
  end.

(** ** JSON values and the Python operations the handlers apply to them *)

Inductive json : Type :=
| JNull
| JBool (b : bool)
| JInt (z : Z)
| JFloat (lit : string)
| JStr (s : string)
| JList (items : list json)
| JDict (fields : list (string * json)).

(** A Python [dict] keeps insertion order: an association list read
    from the front and updated in place. *)
Fixpoint dict_get {V : Type} (k : string) (d : list (string * V)) : option V :=
  match d with
  | [] => None
  | (k', v) :: rest => if String.eqb k' k then Some v else dict_get k rest
  end.

Fixpoint dict_set {V : Type} (k : string) (v : V) (d : list (string * V))
  : list (string * V) :=
  match d with
  | [] => [(k, v)]
  | (k', v') :: rest =>
      if String.eqb k' k then (k', v) :: rest else (k', v') :: dict_set k v rest
  end.

Definition dict_has {V : Type} (k : string) (d : list (string * V)) : bool :=
  match dict_get k d with Some _ => true | None => false end.

Inductive exn : Type :=
| KeyError (key : string)
| TypeError (msg : string)
| AttributeError (msg : string)
| ValueError (msg : string)
| DataError (msg : string)
| ResponseError (msg : string)
| ConnectionError (msg : string)
| TransportError (msg : string)
| ClientError (msg : string).

(** [str(e)] *)
Definition exn_str (e : exn) : string :=
  match e with
  | KeyError k => "'" +:+ k +:+ "'"
  | TypeError m | AttributeError m | ValueError m | DataError m
  | ResponseError m | ConnectionError m | TransportError m | ClientError m => m
  end.

Inductive outcome (A : Type) : Type :=
| Ok (a : A)
| Raise (e : exn).
Arguments Ok {A} a.
Arguments Raise {A} e.

Definition type_name (v : json) : string :=
  match v with
  | JNull => "NoneType" | JBool _ => "bool" | JInt _ => "int"
  | JFloat _ => "float" | JStr _ => "str" | JList _ => "list" | JDict _ => "dict"
  end.

(** [v[k]] for a string key [k] *)
Definition py_getitem (v : json) (k : string) : outcome json :=
  match v with
  | JDict d => match dict_get k d with
               | Some x => Ok x
               | None => Raise (KeyError k)
               end
  | JList _ => Raise (TypeError "list indices must be integers or slices, not str")
  | JStr _ => Raise (TypeError "string indices must be integers")
  | _ => Raise (TypeError ("'" +:+ type_name v +:+ "' object is not subscriptable"))
  end.

(** [v.get(k, default)] *)
Definition py_get (v : json) (k : string) (default : json) : outcome json :=
  match v with
  | JDict d => Ok (match dict_get k d with Some x => x | None => default end)
  | _ => Raise (AttributeError
                  ("'" +:+ type_name v +:+ "' object has no attribute 'get'"))
  end.

Fixpoint is_prefix (p s : string) : bool :=
  match p, s with
  | EmptyString, _ => true
  | String a p', String b s' => if Ascii.eqb a b then is_prefix p' s' else false
  | String _ _, EmptyString => false
  end.

Fixpoint is_substring (p s : string) : bool :=
  if is_prefix p s then true
  else match s with
       | EmptyString => false
       | String _ s' => is_substring p s'
       end.

(** [k in v] for a string [k] *)
Definition py_contains (k : string) (v : json) : outcome bool :=
  match v with
  | JDict d => Ok (dict_has k d)
  | JList l => Ok (existsb (fun x => match x with
                                     | JStr s => String.eqb s k
                                     | _ => false
                                     end) l)
  | JStr s => Ok (is_substring k s)
  | _ => Raise (TypeError
                  ("argument of type '" +:+ type_name v +:+ "' is not iterable"))
  end.

Fixpoint chars_of (s : string) : list json :=
  match s with
  | EmptyString => []
  | String a s' => JStr (String a EmptyString) :: chars_of s'
  end.

(** the sequence a [for] loop over [v] visits *)
Definition py_iter (v : json) : outcome (list json) :=
  match v with
  | JList l => Ok l
  | JDict d => Ok (map (fun kv => JStr (fst kv)) d)
  | JStr s => Ok (chars_of s)
  | _ => Raise (TypeError ("'" +:+ type_name v +:+ "' object is not iterable"))
  end.

(** truth value of [v] in an [if] *)
Definition py_truthy (v : json) : bool :=
  match v with
  | JNull => false
  | JBool b => b
  | JInt z => negb (z =? 0)
  | JFloat lit => negb (String.eqb lit "0.0" || String.eqb lit "-0.0")
  | JStr s => negb (String.eqb s "")
  | JList l => match l with [] => false | _ => true end
  | JDict d => match d with [] => false | _ => true end
  end.

(** what redis-py sends for a command argument: [str], [int] and [float]
    are encoded, anything else is refused with [DataError] *)
Definition redis_encode (v : json) : outcome string :=
  match v with
  | JStr s => Ok s
  | JInt z => Ok (str_of_Z z)
  | JFloat lit => Ok lit
  | _ => Raise (DataError ("Invalid input of type: '" +:+ type_name v +:+
                           "'. Convert to a bytes, string, int or float first."))
  end.

(** ** The stores *)

Inductive rvalue : Type :=
| RString (s : string)
| RHash (h : gmap string string)
| RSet (members : gset string)
| RZSet (scores : gmap string Z)
| RList (l : list string).

(** A key of the Redis keyspace: its value and the seconds it has left
    ([None]: the key does not expire). *)
Record entry : Type := Entry { e_val : rvalue; e_ttl : option Z }.

Inductive redis_cmd : Type :=
| PING | HSET | EXPIRE | INCR | ZINCRBY | SADD | SET | SETEX | GET | EXISTS
| TYPE | HGETALL | SMEMBERS | ZRANGE | ZREVRANGE | LRANGE | TTL | KEYS | INFO.

(** What the OpenSearch cluster does with the next request: answer it
    with a body, refuse it (connectivity or authentication), or answer it
    after another client has created an index in the meantime. *)
Inductive os_event : Type :=
| OsReply (body : json)
| OsDown (msg : string)
| OsRace (index : string).

(** One outbound call to a store, as journalled. *)
Inductive call : Type :=
| Redis (c : redis_cmd) (key : string)
| OsExists (index : string)
| OsCreate (index : string)
| OsBulk (body : list json)
| OsSearch (index : string) (body : json)
| OsHealth.

Inductive level : Type := INFO_ | WARNING | ERROR.

Record log_rec : Type := Log { log_level : level; log_msg : string }.

Record world : Type := World {
  w_redis : gmap string entry;        (* the keyspace *)
  w_redis_faults : list bool;         (* per round trip: does it fail? *)
  w_redis_info : list (string * json);(* INFO statistics of the server *)
  w_indices : gset string;            (* OpenSearch indices that exist *)
  w_os_plan : list os_event;          (* per OpenSearch request *)
  w_trace : list call;                (* store calls made, oldest first *)
  w_log : list log_rec;               (* log records, oldest first *)
  w_today : string;                   (* utcnow().strftime('%Y-%m-%d') *)
  w_now : string;                     (* utcnow().isoformat() *)
  w_redis_conf : option string;       (* resolved "host:port", if any *)
  w_os_conf : option string;          (* resolved endpoint, if any *)
  self_redis_client : bool;           (* self.redis_client is not None *)
  self_opensearch_client : bool       (* self.opensearch_client is not None *)
}.

Definition with_redis (st : gmap string entry) (w : world) : world :=
  World st (w_redis_faults w) (w_redis_info w) (w_indices w) (w_os_plan w)
        (w_trace w) (w_log w) (w_today w) (w_now w) (w_redis_conf w)
        (w_os_conf w) (self_redis_client w) (self_opensearch_client w).

Definition with_faults (fs : list bool) (w : world) : world :=
  World (w_redis w) fs (w_redis_info w) (w_indices w) (w_os_plan w)
        (w_trace w) (w_log w) (w_today w) (w_now w) (w_redis_conf w)
        (w_os_conf w) (self_redis_client w) (self_opensearch_client w).

Definition with_indices (ix : gset string) (w : world) : world :=
  World (w_redis w) (w_redis_faults w) (w_redis_info w) ix (w_os_plan w)
        (w_trace w) (w_log w) (w_today w) (w_now w) (w_redis_conf w)
        (w_os_conf w) (self_redis_client w) (self_opensearch_client w).

Definition with_plan (p : list os_event) (w : world) : world :=
  World (w_redis w) (w_redis_faults w) (w_redis_info w) (w_indices w) p
        (w_trace w) (w_log w) (w_today w) (w_now w) (w_redis_conf w)
        (w_os_conf w) (self_redis_client w) (self_opensearch_client w).

Definition journal (c : call) (w : world) : world :=
  World (w_redis w) (w_redis_faults w) (w_redis_info w) (w_indices w)
        (w_os_plan w) (w_trace w ++ [c]) (w_log w) (w_today w) (w_now w)
        (w_redis_conf w) (w_os_conf w) (self_redis_client w)
        (self_opensearch_client w).

Definition with_log (l : list log_rec) (w : world) : world :=
  World (w_redis w) (w_redis_faults w) (w_redis_info w) (w_indices w)
        (w_os_plan w) (w_trace w) l (w_today w) (w_now w)
        (w_redis_conf w) (w_os_conf w) (self_redis_client w)
        (self_opensearch_client w).

Definition with_clients (r o : bool) (w : world) : world :=
  World (w_redis w) (w_redis_faults w) (w_redis_info w) (w_indices w)
        (w_os_plan w) (w_trace w) (w_log w) (w_today w) (w_now w)
        (w_redis_conf w) (w_os_conf w) r o.

(** ** The monad of handler code *)

Definition M (A : Type) : Type := world -> outcome A * world.

Definition ret {A : Type} (a : A) : M A := fun w => (Ok a, w).

Definition raise {A : Type} (e : exn) : M A := fun w => (Raise e, w).

Definition bind {A B : Type} (m : M A) (k : A -> M B) : M B :=
  fun w => match m w with
           | (Ok a, w') => k a w'
           | (Raise e, w') => (Raise e, w')
           end.

(** [try: m except Exception as e: h e] *)
Definition try_except {A : Type} (m : M A) (h : exn -> M A) : M A :=
  fun w => match m w with
           | (Ok a, w') => (Ok a, w')
           | (Raise e, w') => h e w'
           end.

Definition lift {A : Type} (o : outcome A) : M A := fun w => (o, w).

Definition logger (l : level) (msg : string) : M unit :=
  fun w => (Ok tt, with_log (w_log w ++ [Log l msg]) w).

Declare Scope py_scope.
Delimit Scope py_scope with py.
Notation "x <- m ;; k" := (bind m (fun x => k))
  (at level 100, m at next level, right associativity) : py_scope.
Notation "m ;; k" := (bind m (fun _ => k))
  (at level 100, right associativity) : py_scope.
Local Open Scope py_scope.

(** ** Redis commands

    Every command is one round trip: it is journalled, it fails when the
    next entry of the fault schedule says so, and otherwise it reads and
    rewrites the entry of its one key.  A command refused by the server
    (wrong type, overflow) leaves the key as it was. *)

Definition wrongtype : exn :=
  ResponseError "WRONGTYPE Operation against a key holding the wrong kind of value".

(** One round trip to the Redis server. *)
Definition redis_call {A : Type} (c : redis_cmd) (arg : string)
    (f : gmap string entry -> outcome A * gmap string entry) : M A :=
  fun w =>
    let w1 := journal (Redis c arg) w in
    match w_redis_faults w with
    | true :: rest =>
        (Raise (ConnectionError "Error while reading from socket"),
         with_faults rest w1)
    | fs =>
        let '(r, st) := f (w_redis w) in
        (r, with_redis st (with_faults (tail fs) w1))
    end.

(** A command on the single key [k]. *)
Definition redis_on {A : Type} (c : redis_cmd) (k : string)
    (f : option entry -> outcome A * option entry) : M A :=
  redis_call c k (fun st => let '(r, e') := f (st !! k) in
                            (r, partial_alter (fun _ => e') k st)).

Definition hset_step (fields : list (string * string)) (e : option entry)
  : outcome Z * option entry :=
  match e with
  | None =>
      (Ok (Z.of_nat (length fields)),
       Some (Entry (RHash (foldl (fun h kv => <[fst kv := snd kv]> h) ∅ fields)) None))
  | Some (Entry (RHash h) t) =>
      (Ok (Z.of_nat (length (filter (fun kv => h !! fst kv = None) fields))),
       Some (Entry (RHash (foldl (fun h kv => <[fst kv := snd kv]> h) h fields)) t))
  | Some _ => (Raise wrongtype, e)
  end.

Definition expire_step (seconds : Z) (e : option entry)
  : outcome bool * option entry :=
  match e with
  | None => (Ok false, None)
  | Some (Entry v _) => (Ok true, Some (Entry v (Some seconds)))
  end.

Definition int64_max : Z := 9223372036854775807.
Definition int64_min : Z := -9223372036854775808.

Definition incr_step (e : option entry) : outcome Z * option entry :=
  match e with
  | None => (Ok 1, Some (Entry (RString (str_of_Z 1)) None))
  | Some (Entry (RString s) t) =>
      match Z_of_str s with
      | Some z =>
          if (z <? int64_min) || (int64_max <? z) then
            (Raise (ResponseError "value is not an integer or out of range"), e)
          else if z =? int64_max then
            (Raise (ResponseError "increment or decrement would overflow"), e)
          else (Ok (z + 1), Some (Entry (RString (str_of_Z (z + 1))) t))
      | None =>
          (Raise (ResponseError "value is not an integer or out of range"), e)
      end
  | Some _ => (Raise wrongtype, e)
  end.

Definition zincrby_step (amount : Z) (member : string) (e : option entry)
  : outcome Z * option entry :=
  match e with
  | None => (Ok amount, Some (Entry (RZSet {[member := amount]}) None))
  | Some (Entry (RZSet z) t) =>
      let score := default 0 (z !! member) + amount in
      (Ok score, Some (Entry (RZSet (<[member := score]> z)) t))
  | Some _ => (Raise wrongtype, e)
  end.

Definition sadd_step (member : string) (e : option entry)
  : outcome Z * option entry :=
  match e with
  | None => (Ok 1, Some (Entry (RSet {[member]}) None))
  | Some (Entry (RSet s) t) =>
      (Ok (if bool_decide (member ∈ s) then 0 else 1),
       Some (Entry (RSet ({[member]} ∪ s)) t))
  | Some _ => (Raise wrongtype, e)
  end.

(** [SET key value EX seconds], which is also what [SETEX] does: the old
    value, whatever its type, and its expiry are replaced. *)
Definition set_ex_step (value : string) (seconds : Z) (e : option entry)
  : outcome bool * option entry :=
  (Ok true, Some (Entry (RString value) (Some seconds))).

Definition get_step (e : option entry) : outcome (option string) * option entry :=
  match e with
  | None => (Ok None, e)
  | Some (Entry (RString s) _) => (Ok (Some s), e)
  | Some _ => (Raise wrongtype, e)
  end.

Definition exists_step (e : option entry) : outcome bool * option entry :=
  (Ok (match e with Some _ => true | None => false end), e).

Definition type_step (e : option entry) : outcome string * option entry :=
  (Ok (match e with
       | None => "none"
       | Some (Entry (RString _) _) => "string"
       | Some (Entry (RHash _) _) => "hash"
       | Some (Entry (RSet _) _) => "set"
       | Some (Entry (RZSet _) _) => "zset"
       | Some (Entry (RList _) _) => "list"
       end), e).

Definition hgetall_step (e : option entry)
  : outcome (list (string * string)) * option entry :=
  match e with
  | None => (Ok [], e)
  | Some (Entry (RHash h) _) => (Ok (map_to_list h), e)
  | Some _ => (Raise wrongtype, e)
  end.

Definition smembers_step (e : option entry)
  : outcome (list string) * option entry :=
  match e with
  | None => (Ok [], e)
  | Some (Entry (RSet s) _) => (Ok (elements s), e)
  | Some _ => (Raise wrongtype, e)
  end.

(** Sorted sets are read in the order of (score, member). *)
Definition zset_le (a b : string * Z) : bool :=
  (snd a <? snd b) || ((snd a =? snd b) && String.leb (fst a) (fst b)).

Fixpoint zset_insert (a : string * Z) (l : list (string * Z)) : list (string * Z) :=
  match l with
  | [] => [a]
  | b :: rest => if zset_le a b then a :: l else b :: zset_insert a rest
  end.

Definition zset_ascending (z : gmap string Z) : list (string * Z) :=
  foldr zset_insert [] (map_to_list z).

(** [ZRANGE key 0 -1 WITHSCORES] *)
Definition zrange_all_step (e : option entry)
  : outcome (list (string * Z)) * option entry :=
  match e with
  | None => (Ok [], e)
  | Some (Entry (RZSet z) _) => (Ok (zset_ascending z), e)
  | Some _ => (Raise wrongtype, e)
  end.

(** [ZREVRANGE key 0 stop WITHSCORES] *)
Definition zrevrange_step (stop : nat) (e : option entry)
  : outcome (list (string * Z)) * option entry :=
  match e with
  | None => (Ok [], e)
  | Some (Entry (RZSet z) _) => (Ok (firstn (S stop) (rev (zset_ascending z))), e)
  | Some _ => (Raise wrongtype, e)
  end.

(** [LRANGE key 0 -1] *)
Definition lrange_all_step (e : option entry)
  : outcome (list string) * option entry :=
  match e with
  | None => (Ok [], e)
  | Some (Entry (RList l) _) => (Ok l, e)
  | Some _ => (Raise wrongtype, e)
  end.

Definition ttl_step (e : option entry) : outcome Z * option entry :=
  (Ok (match e with
       | None => -2
       | Some (Entry _ None) => -1
       | Some (Entry _ (Some t)) => t
       end), e).

Definition redis_ping : M bool := redis_call PING "" (fun st => (Ok true, st)).

Fixpoint encode_mapping (mapping : list (string * json))
  : outcome (list (string * string)) :=
  match mapping with
  | [] => Ok []
  | (f, v) :: rest =>
      match redis_encode v with
      | Raise e => Raise e
      | Ok s => match encode_mapping rest with
                | Raise e => Raise e
                | Ok l => Ok ((f, s) :: l)
                end
      end
  end.

(** [redis_client.hset(name, mapping=...)]: the values are encoded by the
    client before anything is sent. *)
Definition redis_hset (name : string) (mapping : list (string * json)) : M Z :=
  fields <- lift (encode_mapping mapping) ;;
  redis_on HSET name (hset_step fields).

Definition redis_expire (name : string) (seconds : Z) : M bool :=
  redis_on EXPIRE name (expire_step seconds).

Definition redis_incr (name : string) : M Z := redis_on INCR name incr_step.

Definition redis_zincrby (name : string) (amount : Z) (value : json) : M Z :=
  member <- lift (redis_encode value) ;;
  redis_on ZINCRBY name (zincrby_step amount member).

Definition redis_sadd (name : string) (value : json) : M Z :=
  member <- lift (redis_encode value) ;;
  redis_on SADD name (sadd_step member).

Definition redis_set_ex (name : string) (value : json) (ex : Z) : M bool :=
  v <- lift (redis_encode value) ;;
  redis_on SET name (set_ex_step v ex).

Definition redis_setex (name : string) (seconds : Z) (value : string) : M bool :=
  redis_on SETEX name (set_ex_step value seconds).

Definition redis_get (name : string) : M (option string) :=
  redis_on GET name get_step.

Definition redis_exists (name : string) : M bool :=
  redis_on EXISTS name exists_step.

Definition redis_type (name : string) : M string := redis_on TYPE name type_step.

Definition redis_hgetall (name : string) : M (list (string * string)) :=
  redis_on HGETALL name hgetall_step.

Definition redis_smembers (name : string) : M (list string) :=
  redis_on SMEMBERS name smembers_step.

Definition redis_zrange_all (name : string) : M (list (string * Z)) :=
  redis_on ZRANGE name zrange_all_step.

Definition redis_zrevrange (name : string) (stop : nat) : M (list (string * Z)) :=
  redis_on ZREVRANGE name (zrevrange_step stop).

Definition redis_lrange_all (name : string) : M (list string) :=
  redis_on LRANGE name lrange_all_step.

Definition redis_ttl (name : string) : M Z := redis_on TTL name ttl_step.

(** [redis_client.info()] *)
Definition redis_info : M (list (string * json)) :=
  fun w => redis_call INFO "" (fun st => (Ok (w_redis_info w), st)) w.

(** Time passing outside the handlers: every expiry runs down by [d]
    seconds and the keys whose time is up are gone. *)
Definition age (d : Z) (e : entry) : option entry :=
  match e_ttl e with
  | None => Some e
  | Some t => if t - d <=? 0 then None else Some (Entry (e_val e) (Some (t - d)))
  end.

Definition elapse (d : Z) (st : gmap string entry) : gmap string entry :=
  omap (age d) st.

(** what [TTL key] answers on a keyspace *)
Definition ttl_reply (st : gmap string entry) (k : string) : Z :=
  match fst (ttl_step (st !! k)) with
  | Ok t => t
  | Raise _ => -2
  end.

(** ** OpenSearch requests *)

Definition os_request {A : Type} (c : call)
    (f : json -> gset string -> outcome A * gset string) : M A :=
  fun w =>
    let w1 := journal c w in
    match w_os_plan w with
    | OsDown m :: rest => (Raise (TransportError m), with_plan rest w1)
    | OsRace index :: rest =>
        let '(r, ix) := f (JDict []) ({[index]} ∪ w_indices w) in
        (r, with_indices ix (with_plan rest w1))
    | OsReply body :: rest =>
        let '(r, ix) := f body (w_indices w) in
        (r, with_indices ix (with_plan rest w1))
    | [] =>
        let '(r, ix) := f (JDict []) (w_indices w) in
        (r, with_indices ix w1)
    end.

(** [indices.exists(index=...)] *)
Definition os_indices_exists (index : string) : M bool :=
  os_request (OsExists index) (fun _ ix => (Ok (bool_decide (index ∈ ix)), ix)).

(** [indices.create(index=..., body=mapping)]; the field mapping sent as
    the body plays no part in what follows and is not carried. *)
Definition os_indices_create (index : string) : M unit :=
  os_request (OsCreate index)
    (fun _ ix =>
       if bool_decide (index ∈ ix)
       then (Raise (TransportError "resource_already_exists_exception"), ix)
       else (Ok tt, {[index]} ∪ ix)).

Definition os_bulk (body : list json) : M json :=
  os_request (OsBulk body) (fun reply ix => (Ok reply, ix)).

Definition os_search (index : string) (body : json) : M json :=
  os_request (OsSearch index body) (fun reply ix => (Ok reply, ix)).

Definition os_cluster_health : M json :=
  os_request OsHealth (fun reply ix => (Ok reply, ix)).

(** ** Client initialisation (both handler classes)

    Endpoint and credential discovery is outside the model: [w_os_conf]
    and [w_redis_conf] say whether it yields an endpoint. *)

Definition get_opensearch_client : M unit :=
  fun w =>
    if self_opensearch_client w then (Ok tt, w)
    else
      try_except
        (match w_os_conf w with
         | None => raise (ClientError "ParameterNotFound")
         | Some endpoint =>
             (fun w' => (Ok tt, with_clients (self_redis_client w') true w')) ;;
             logger INFO_ ("OpenSearch client initialized for endpoint: " +:+ endpoint)
         end)
        (fun e =>
           logger ERROR ("Error initializing OpenSearch client: " +:+ exn_str e) ;;
           raise e) w.

(** The client object is stored in [self.redis_client] before the
    connection is tested with [ping]. *)
Definition get_redis_client : M unit :=
  fun w =>
    if self_redis_client w then (Ok tt, w)
    else
      try_except
        (match w_redis_conf w with
         | None => raise (ClientError "ParameterNotFound")
         | Some endpoint =>
             (fun w' => (Ok tt, with_clients true (self_opensearch_client w') w')) ;;
             redis_ping ;;
             logger INFO_ ("Redis client initialized for endpoint: " +:+ endpoint)
         end)
        (fun e =>
           logger ERROR ("Error initializing Redis client: " +:+ exn_str e) ;;
           raise e) w.

Definition utc_today : M string := fun w => (Ok (w_today w), w).
Definition utc_now : M string := fun w => (Ok (w_now w), w).

(** [v == s] for a string literal [s] *)
Definition is_str (v : json) (s : string) : bool :=
  match v with
  | JStr x => String.eqb x s
  | _ => false
  end.

(** A Lambda proxy response; [headers] is absent from the responses of
    the data processor. *)
Record response : Type := Response {
  statusCode : Z;
  headers : option (list (string * string));
  body : string
}.

(** Library functions the handlers call, left uninterpreted: Python's
    [repr] of a list or dict, [int] of a string ([None]: it raises
    [ValueError]), [str.lower] (which follows the Unicode case mapping),
    [json.dumps], [json.loads] ([None]: it raises), and the glob matching
    of Redis' [KEYS] (pattern first). *)
Class Runtime : Type := {
  py_repr : json -> string;
  py_int : string -> option Z;
  py_lower : string -> string;
  json_dumps : json -> string;
  json_loads : string -> option json;
  glob_match : string -> string -> bool
}.

Section Library.
Context `{Runtime}.

(** [str(v)], which is also how an f-string renders [v] *)
Definition py_str (v : json) : string :=
  match v with
  | JStr s => s
  | JInt z => str_of_Z z
  | JFloat lit => lit
  | JBool true => "True"
  | JBool false => "False"
  | JNull => "None"
  | JList _ | JDict _ => py_repr v
  end.

(** [json.loads(v)] *)
Definition py_json_loads (v : json) : outcome json :=
  match v with
  | JStr s => match json_loads s with
              | Some j => Ok j
              | None => Raise (ValueError "Expecting value")
              end
  | _ => Raise (TypeError ("the JSON object must be str, bytes or bytearray, not "
                           +:+ type_name v))
  end.

(** [redis_client.keys(pattern)] *)
Definition redis_keys (pattern : string) : M (list string) :=
  redis_call KEYS pattern
    (fun st => (Ok (List.filter (glob_match pattern) (map fst (map_to_list st))), st)).

End Library.

(** ** data_processor.py *)

Module DataProcessor.
Section Code.
Context `{Runtime}.

Definition known_indices : list string := ["user-events"; "product-catalog"].

(** the body of [for index_name, mapping in indices] *)
Fixpoint create_indices_loop (indices : list string) : M unit :=
  match indices with
  | [] => ret tt
  | index_name :: rest =>
      try_except
        (present <- os_indices_exists index_name ;;
         if negb present then
           os_indices_create index_name ;;
           logger INFO_ ("Created OpenSearch index: " +:+ index_name)
         else
           logger INFO_ ("OpenSearch index already exists: " +:+ index_name))
        (fun e =>
           logger ERROR ("Error creating index " +:+ index_name +:+ ": "
                         +:+ exn_str e) ;;
           raise e) ;;
      create_indices_loop rest
  end.

Definition create_opensearch_indices : M unit :=
  get_opensearch_client ;;
  create_indices_loop known_indices.

Definition cache_user_data (event : json) : M unit :=
  user_id <- lift (py_getitem event "user_id") ;;
  session_id <- lift (py_getitem event "session_id") ;;
  (* Cache user session data *)
  let session_key := "session:" +:+ py_str session_id in
  last_activity <- lift (py_getitem event "timestamp") ;;
  last_event <- lift (py_getitem event "event_type") ;;
  device_type <- lift (py_get event "device_type" (JStr "unknown")) ;;
  location <- lift (py_get event "location" (JDict [])) ;;
  redis_hset session_key
    [("user_id", user_id); ("last_activity", last_activity);
     ("last_event", last_event); ("device_type", device_type);
     ("location", JStr (json_dumps location))] ;;
  redis_expire session_key 3600 ;;
  (* Cache user activity *)
  let user_key := "user:" +:+ py_str user_id in
  last_activity <- lift (py_getitem event "timestamp") ;;
  last_event <- lift (py_getitem event "event_type") ;;
  redis_hset user_key
    [("last_activity", last_activity); ("last_event", last_event);
     ("current_session", session_id)] ;;
  redis_expire user_key 86400 ;;
  (* Update event counters *)
  event_type <- lift (py_getitem event "event_type") ;;
  today <- utc_today ;;
  let counter_key := "counters:" +:+ today +:+ ":" +:+ py_str event_type in
  redis_incr counter_key ;;
  redis_expire counter_key (86400 * 7) ;;
  (* Product popularity counters *)
  has_product <- lift (py_contains "product_id" event) ;;
  (if has_product then
     product_id <- lift (py_getitem event "product_id") ;;
     redis_zincrby "popular_products" 1 product_id ;;
     redis_expire "popular_products" 86400 ;;
     ret tt
   else ret tt) ;;
  (* Search query caching *)
  has_query <- (if is_str event_type "search"
                then lift (py_contains "search_query" event)
                else ret false) ;;
  if has_query then
    let search_key := "search_queries:" +:+ today in
    search_query <- lift (py_getitem event "search_query") ;;
    redis_zincrby search_key 1 search_query ;;
    redis_expire search_key (86400 * 7) ;;
    ret tt
  else ret tt.

Definition cache_product_data (product : json) : M unit :=
  product_id <- lift (py_getitem product "id") ;;
  (* Cache product details *)
  let product_key := "product:" +:+ py_str product_id in
  name <- lift (py_getitem product "name") ;;
  category <- lift (py_getitem product "category") ;;
  price <- lift (py_getitem product "price") ;;
  brand <- lift (py_getitem product "brand") ;;
  rating <- lift (py_get product "rating" (JInt 0)) ;;
  stock_quantity <- lift (py_get product "stock_quantity" (JInt 0)) ;;
  is_active <- lift (py_get product "is_active" (JBool true)) ;;
  redis_hset product_key
    [("name", name); ("category", category); ("price", JStr (py_str price));
     ("brand", brand); ("rating", JStr (py_str rating));
     ("stock_quantity", JStr (py_str stock_quantity));
     ("is_active", JStr (py_str is_active))] ;;
  redis_expire product_key 3600 ;;
  (* Update category counters *)
  category <- lift (py_getitem product "category") ;;
  let category_key := "category_products:" +:+ py_str category in
  redis_sadd category_key product_id ;;
  redis_expire category_key 86400 ;;
  (* Cache for search *)
  name <- lift (py_getitem product "name") ;;
  lowered <- (match name with
              | JStr s => ret (py_lower s)
              | _ => raise (AttributeError ("'" +:+ type_name name +:+
                                            "' object has no attribute 'lower'"))
              end) ;;
  let search_key := "product_search:" +:+ lowered in
  redis_set_ex search_key product_id 3600 ;;
  ret tt.

Definition index_action (index : string) (id : json) : json :=
  JDict [("index", JDict [("_index", JStr index); ("_id", id)])].

(** the body of [for event in events] in [process_user_events] *)
Fixpoint user_events_loop (events : list json) (processed_count : Z)
    (bulk_actions : list json) : M (Z * list json) :=
  match events with
  | [] => ret (processed_count, bulk_actions)
  | event :: rest =>
      acc <- try_except
        (cache_user_data event ;;
         id <- lift (py_getitem event "id") ;;
         ret (processed_count + 1,
              (bulk_actions ++ [index_action "user-events" id; event])%list))
        (fun e =>
           id <- lift (py_get event "id" JNull) ;;
           logger ERROR ("Error processing event " +:+ py_str id +:+ ": "
                         +:+ exn_str e) ;;
           ret (processed_count, bulk_actions)) ;;
      user_events_loop rest (fst acc) (snd acc)
  end.

(** the block under [# Bulk insert to OpenSearch] of [process_user_events] *)
Definition bulk_insert_events (bulk_actions : list json) : M unit :=
  match bulk_actions with
  | [] => ret tt
  | _ =>
      try_except
        (reply <- os_bulk bulk_actions ;;
         errors <- lift (py_get reply "errors" JNull) ;;
         if py_truthy errors then
           logger WARNING ("Some documents failed to index: " +:+ py_str reply)
         else
           logger INFO_ ("Successfully indexed "
                         +:+ str_of_Z (Z.of_nat (length bulk_actions) / 2)
                         +:+ " events to OpenSearch"))
        (fun e =>
           logger ERROR ("Error bulk indexing events: " +:+ exn_str e) ;;
           raise e)
  end.

Definition process_user_events (events : json) : M Z :=
  get_opensearch_client ;;
  get_redis_client ;;
  items <- lift (py_iter events) ;;
  acc <- user_events_loop items 0 [] ;;
  bulk_insert_events (snd acc) ;;
  ret (fst acc).

(** the body of [for product in products] in [process_products] *)
Fixpoint products_loop (products : list json) (processed_count : Z)
    (bulk_actions : list json) : M (Z * list json) :=
  match products with
  | [] => ret (processed_count, bulk_actions)
  | product :: rest =>
      acc <- try_except
        (cache_product_data product ;;
         id <- lift (py_getitem product "id") ;;
         ret (processed_count + 1,
              (bulk_actions ++ [index_action "product-catalog" id; product])%list))
        (fun e =>
           id <- lift (py_get product "id" JNull) ;;
           logger ERROR ("Error processing product " +:+ py_str id +:+ ": "
                         +:+ exn_str e) ;;
           ret (processed_count, bulk_actions)) ;;
      products_loop rest (fst acc) (snd acc)
  end.

(** the block under [# Bulk insert to OpenSearch] of [process_products] *)
Definition bulk_insert_products (bulk_actions : list json) : M unit :=
  match bulk_actions with
  | [] => ret tt
  | _ =>
      try_except
        (reply <- os_bulk bulk_actions ;;
         errors <- lift (py_get reply "errors" JNull) ;;
         if py_truthy errors then
           logger WARNING ("Some products failed to index: " +:+ py_str reply)
         else
           logger INFO_ ("Successfully indexed "
                         +:+ str_of_Z (Z.of_nat (length bulk_actions) / 2)
                         +:+ " products to OpenSearch"))
        (fun e =>
           logger ERROR ("Error bulk indexing products: " +:+ exn_str e) ;;
           raise e)
  end.

Definition process_products (products : json) : M Z :=
  get_opensearch_client ;;
  get_redis_client ;;
  items <- lift (py_iter products) ;;
  acc <- products_loop items 0 [] ;;
  bulk_insert_products (snd acc) ;;
  ret (fst acc).

Definition process_data_batch (data : json) : M Z :=
  let total_processed := 0 in
  (* Process events *)
  has_events <- lift (py_contains "events" data) ;;
  total_processed <-
    (if has_events then
       events <- lift (py_getitem data "events") ;;
       events_processed <- process_user_events events ;;
       logger INFO_ ("Processed " +:+ str_of_Z events_processed +:+ " events") ;;
       ret (total_processed + events_processed)
     else ret total_processed) ;;
  (* Process products *)
  has_products <- lift (py_contains "products" data) ;;
  total_processed <-
    (if has_products then
       products <- lift (py_getitem data "products") ;;
       products_processed <- process_products products ;;
       logger INFO_ ("Processed " +:+ str_of_Z products_processed +:+ " products") ;;
       ret (total_processed + products_processed)
     else ret total_processed) ;;
  (* Handle single event *)
  is_event <- lift (py_contains "event_type" data) ;;
  total_processed <-
    (if is_event then
       process_user_events (JList [data]) ;;
       logger INFO_ "Processed single event" ;;
       ret (total_processed + 1)
     else ret total_processed) ;;
  ret total_processed.

(** the body of [for record in event['Records']] *)
Fixpoint records_loop (records : list json) (total_processed : Z) : M Z :=
  match records with
  | [] => ret total_processed
  | record :: rest =>
      has_body <- lift (py_contains "body" record) ;;
      data <- (if has_body then
                 raw <- lift (py_getitem record "body") ;;
                 lift (py_json_loads raw)
               else ret record) ;;
      n <- process_data_batch data ;;
      records_loop rest (total_processed + n)
  end.

(** [lambda_handler] of data_processor.py; [processor = DataProcessor()]
    starts with both clients unset. *)
Definition lambda_handler (event : json) : M response :=
  logger INFO_ "Starting data processing" ;;
  (fun w => (Ok tt, with_clients false false w)) ;;
  try_except
    (create_opensearch_indices ;;
     is_envelope <- lift (py_contains "Records" event) ;;
     total_processed <-
       (if is_envelope then
          records <- lift (py_getitem event "Records") ;;
          items <- lift (py_iter records) ;;
          records_loop items 0
        else
          n <- process_data_batch event ;;
          ret (0 + n)) ;;
     logger INFO_ ("Successfully processed " +:+ str_of_Z total_processed
                   +:+ " records") ;;
     now <- utc_now ;;
     ret (Response 200 None
            (json_dumps
               (JDict [("message", JStr ("Successfully processed "
                                         +:+ str_of_Z total_processed
                                         +:+ " records"));
                       ("timestamp", JStr now)]))))
    (fun e =>
       logger ERROR ("Error processing data: " +:+ exn_str e) ;;
       now <- utc_now ;;
       ret (Response 500 None
              (json_dumps (JDict [("error", JStr (exn_str e));
                                  ("timestamp", JStr now)])))).

End Code.
End DataProcessor.

(** ** api_handler.py *)

(** The API Gateway proxy event: the three fields the handler reads, each
    possibly absent; query parameters map strings to strings. *)
Record api_event : Type := ApiEvent {
  httpMethod : option string;
  path : option string;
  queryStringParameters : option (list (string * string))
}.

(** truth value of the result of [query_params.get(k)] *)
Definition opt_truthy (o : option string) : bool :=
  match o with
  | Some s => negb (String.eqb s "")
  | None => false
  end.

Definition opt_str (o : option string) : string :=
  match o with Some s => s | None => "None" end.

Definition opt_json (o : option string) : json :=
  match o with Some s => JStr s | None => JNull end.

Definition hash_json (h : list (string * string)) : json :=
  JDict (map (fun kv => (fst kv, JStr (snd kv))) h).

(** a sorted-set score as redis-py returns it, a float *)
Definition score_json (score : Z) : json := JFloat (str_of_Z score +:+ ".0").

Definition cors_headers : list (string * string) :=
  [("Content-Type", "application/json");
   ("Access-Control-Allow-Origin", "*");
   ("Access-Control-Allow-Headers",
    "Content-Type,X-Amz-Date,Authorization,X-Api-Key,X-Amz-Security-Token");
   ("Access-Control-Allow-Methods", "GET,POST,OPTIONS")].

Fixpoint sources_of (hits : list json) : outcome (list json) :=
  match hits with
  | [] => Ok []
  | hit :: rest =>
      match py_getitem hit "_source" with
      | Raise e => Raise e
      | Ok src => match sources_of rest with
                  | Raise e => Raise e
                  | Ok l => Ok (src :: l)
                  end
      end
  end.

Definition match_all_body (size : Z) : json :=
  JDict [("query", JDict [("match_all", JDict [])]);
         ("size", JInt size);
         ("sort", JList [JDict [("timestamp", JDict [("order", JStr "desc")])]])].

Definition multi_match_body (query : string) (size : Z) : json :=
  JDict [("query",
          JDict [("multi_match",
                  JDict [("query", JStr query);
                         ("fields", JList [JStr "name^2"; JStr "description";
                                           JStr "category"; JStr "search_query";
                                           JStr "event_type"]);
                         ("type", JStr "best_fields");
                         ("fuzziness", JStr "AUTO")])]);
         ("size", JInt size);
         ("sort", JList [JDict [("_score", JDict [("order", JStr "desc")])];
                         JDict [("timestamp", JDict [("order", JStr "desc")])]])].

Module ApiHandler.
Section Code.
Context `{Runtime}.

Definition create_response (status_code : Z) (body : json) : response :=
  Response status_code (Some cors_headers) (json_dumps body).

(** [# Format results]: the hits' sources, the total (unwrapped when it
    is an object) and the maximal score, evaluated in this order. *)
Definition format_results (reply : json) : outcome json :=
  match py_getitem reply "hits" with
  | Raise e => Raise e
  | Ok hits =>
      match py_getitem hits "hits" with
      | Raise e => Raise e
      | Ok hit_list =>
          match py_iter hit_list with
          | Raise e => Raise e
          | Ok items =>
              match sources_of items with
              | Raise e => Raise e
              | Ok sources =>
                  match py_getitem hits "total" with
                  | Raise e => Raise e
                  | Ok total_raw =>
                      match (match total_raw with
                             | JDict _ => py_getitem total_raw "value"
                             | _ => Ok total_raw
                             end) with
                      | Raise e => Raise e
                      | Ok total =>
                          match py_getitem hits "max_score" with
                          | Raise e => Raise e
                          | Ok max_score =>
                              Ok (JDict [("hits", JList sources);
                                         ("total", total);
                                         ("max_score", max_score)])
                          end
                      end
                  end
              end
          end
      end
  end.

Definition search_cache_key (index query : string) (size : Z) : string :=
  "search_cache:" +:+ index +:+ ":" +:+ query +:+ ":" +:+ str_of_Z size.

Definition handle_search (query_params : list (string * string)) : M response :=
  get_opensearch_client ;;
  get_redis_client ;;
  let query := default "*" (dict_get "q" query_params) in
  let index := default "user-events" (dict_get "index" query_params) in
  requested <-
    (match dict_get "size" query_params with
     | None => ret 10
     | Some s =>
         match py_int s with
         | Some n => ret n
         | None => raise (ValueError ("invalid literal for int() with base 10: "
                                      +:+ py_repr (JStr s)))
         end
     end) ;;
  let size := Z.min requested 100 in
  (* Check cache first *)
  let cache_key := search_cache_key index query size in
  cached <-
    try_except
      (cached_result <- redis_get cache_key ;;
       if opt_truthy cached_result then
         logger INFO_ ("Returning cached search result for query: " +:+ query) ;;
         results <- lift (py_json_loads (opt_json cached_result)) ;;
         ret (Some (create_response 200
                      (JDict [("query", JStr query); ("index", JStr index);
                              ("cached", JBool true); ("results", results)])))
       else ret None)
      (fun e =>
         logger WARNING ("Cache lookup failed: " +:+ exn_str e) ;;
         ret None) ;;
  match cached with
  | Some resp => ret resp
  | None =>
      try_except
        (let search_body :=
           if String.eqb query "*" then match_all_body size
           else multi_match_body query size in
         reply <- os_search index search_body ;;
         results <- lift (format_results reply) ;;
         (* Cache result for 5 minutes *)
         try_except
           (redis_setex cache_key 300 (json_dumps results) ;; ret tt)
           (fun e => logger WARNING ("Failed to cache search result: "
                                     +:+ exn_str e)) ;;
         total <- lift (py_getitem results "total") ;;
         logger INFO_ ("Search completed: " +:+ py_str total
                       +:+ " results for query '" +:+ query +:+ "'") ;;
         ret (create_response 200
                (JDict [("query", JStr query); ("index", JStr index);
                        ("cached", JBool false); ("results", results)])))
        (fun e =>
           logger ERROR ("Search error: " +:+ exn_str e) ;;
           ret (create_response 500
                  (JDict [("error", JStr ("Search failed: " +:+ exn_str e))])))
  end.

(** the body of [for k in keys] in the pattern branch *)
Fixpoint pattern_loop (keys : list string) (results : list (string * json))
  : M (list (string * json)) :=
  match keys with
  | [] => ret results
  | k :: rest =>
      results <-
        try_except
          (key_type <- redis_type k ;;
           if String.eqb key_type "string" then
             v <- redis_get k ;;
             ret (dict_set k (opt_json v) results)
           else if String.eqb key_type "hash" then
             h <- redis_hgetall k ;;
             ret (dict_set k (hash_json h) results)
           else ret results)
          (fun e => ret (dict_set k (JStr ("Error: " +:+ exn_str e)) results)) ;;
      pattern_loop rest results
  end.

(** [# Direct key lookup] *)
Definition key_lookup (key : string) : M response :=
  present <- redis_exists key ;;
  if present then
    key_type <- redis_type key ;;
    value <-
      (if String.eqb key_type "string" then
         v <- redis_get key ;; ret (opt_json v)
       else if String.eqb key_type "hash" then
         h <- redis_hgetall key ;; ret (hash_json h)
       else if String.eqb key_type "set" then
         s <- redis_smembers key ;; ret (JList (map JStr s))
       else if String.eqb key_type "zset" then
         z <- redis_zrange_all key ;;
         ret (JList (map (fun ms => JList [JStr (fst ms); score_json (snd ms)]) z))
       else if String.eqb key_type "list" then
         l <- redis_lrange_all key ;; ret (JList (map JStr l))
       else ret (JStr ("Unsupported type: " +:+ key_type))) ;;
    ttl <- redis_ttl key ;;
    ret (create_response 200
           (JDict [("key", JStr key); ("type", JStr key_type);
                   ("value", value); ("ttl", JInt ttl)]))
  else
    ret (create_response 404 (JDict [("error", JStr ("Key not found: " +:+ key))])).

(** [# Pattern search] *)
Definition pattern_lookup (pattern : string) : M response :=
  keys <- redis_keys pattern ;;
  let keys := if (100 <? length keys)%nat then firstn 100 keys else keys in
  results <- pattern_loop keys [] ;;
  ret (create_response 200
         (JDict [("pattern", JStr pattern);
                 ("count", JInt (Z.of_nat (length results)));
                 ("results", JDict results)])).

Definition handle_cache_lookup (query_params : list (string * string))
  : M response :=
  get_redis_client ;;
  let key := dict_get "key" query_params in
  let pattern := dict_get "pattern" query_params in
  if negb (opt_truthy key) && negb (opt_truthy pattern) then
    ret (create_response 400
           (JDict [("error", JStr "Either key or pattern parameter is required")]))
  else
    try_except
      (if opt_truthy key then key_lookup (default "" key)
       else (* elif pattern: true here, by the test above *)
         pattern_lookup (default "" pattern))
      (fun e =>
         logger ERROR ("Cache lookup error: " +:+ exn_str e) ;;
         ret (create_response 500
                (JDict [("error", JStr ("Cache lookup failed: " +:+ exn_str e))]))).

Definition handle_user_lookup (query_params : list (string * string))
  : M response :=
  get_redis_client ;;
  let user_id := dict_get "user_id" query_params in
  if negb (opt_truthy user_id) then
    ret (create_response 400 (JDict [("error", JStr "user_id parameter is required")]))
  else
    let user_id := default "" user_id in
    try_except
      (let user_key := "user:" +:+ user_id in
       user_data <- redis_hgetall user_key ;;
       match user_data with
       | [] => ret (create_response 404
                      (JDict [("error", JStr ("User not found: " +:+ user_id))]))
       | _ =>
           session_data <-
             (match dict_get "current_session" user_data with
              | Some current_session =>
                  redis_hgetall ("session:" +:+ current_session)
              | None => ret []
              end) ;;
           ret (create_response 200
                  (JDict [("user_id", JStr user_id);
                          ("user_data", hash_json user_data);
                          ("session_data", hash_json session_data)]))
       end)
      (fun e =>
         logger ERROR ("User lookup error: " +:+ exn_str e) ;;
         ret (create_response 500
                (JDict [("error", JStr ("User lookup failed: " +:+ exn_str e))]))).

(** the body of [for event_type in event_types] in [handle_analytics] *)
Fixpoint event_counts_loop (today : string) (event_types : list string)
    (event_counts : list (string * Z)) : M (list (string * Z)) :=
  match event_types with
  | [] => ret event_counts
  | event_type :: rest =>
      let counter_key := "counters:" +:+ today +:+ ":" +:+ event_type in
      count <- redis_get counter_key ;;
      n <- (if opt_truthy count then
              match py_int (default "" count) with
              | Some n => ret n
              | None => raise (ValueError ("invalid literal for int() with base 10: "
                                           +:+ py_repr (opt_json count)))
              end
            else ret 0) ;;
      event_counts_loop today rest (dict_set event_type n event_counts)
  end.

Definition handle_analytics (query_params : list (string * string))
  : M response :=
  get_redis_client ;;
  try_except
    (today <- utc_today ;;
     popular_products <- redis_zrevrange "popular_products" 9 ;;
     let search_queries_key := "search_queries:" +:+ today in
     popular_searches <- redis_zrevrange search_queries_key 9 ;;
     event_counts <-
       event_counts_loop today ["view"; "click"; "purchase"; "search"; "add_to_cart"] [] ;;
     ret (create_response 200
            (JDict [("date", JStr today);
                    ("popular_products",
                     JList (map (fun p => JDict [("product_id", JStr (fst p));
                                                 ("score", score_json (snd p))])
                                popular_products));
                    ("popular_searches",
                     JList (map (fun s => JDict [("query", JStr (fst s));
                                                 ("count", score_json (snd s))])
                                popular_searches));
                    ("event_counts",
                     JDict (map (fun kv => (fst kv, JInt (snd kv))) event_counts));
                    ("total_events",
                     JInt (fold_right Z.add 0 (map snd event_counts)))])))
    (fun e =>
       logger ERROR ("Analytics error: " +:+ exn_str e) ;;
       ret (create_response 500
              (JDict [("error", JStr ("Analytics failed: " +:+ exn_str e))]))).

Definition handle_metrics (query_params : list (string * string)) : M response :=
  get_redis_client ;;
  try_except
    (info <- redis_info ;;
     keys <- redis_keys "*" ;;
     let total_keys := Z.of_nat (length keys) in
     now <- utc_now ;;
     ret (create_response 200
            (JDict [("redis",
                     JDict [("connected_clients",
                             default (JInt 0) (dict_get "connected_clients" info));
                            ("used_memory",
                             default (JInt 0) (dict_get "used_memory" info));
                            ("used_memory_human",
                             default (JStr "0B") (dict_get "used_memory_human" info));
                            ("total_commands_processed",
                             default (JInt 0) (dict_get "total_commands_processed" info));
                            ("total_keys", JInt total_keys)]);
                    ("timestamp", JStr now)])))
    (fun e =>
       logger ERROR ("Metrics error: " +:+ exn_str e) ;;
       ret (create_response 500
              (JDict [("error", JStr ("Metrics failed: " +:+ exn_str e))]))).

Definition handle_health_check : M response :=
  now <- utc_now ;;
  (* Check Redis *)
  redis_state <-
    try_except
      (get_redis_client ;; redis_ping ;; ret "healthy")
      (fun e => ret ("unhealthy: " +:+ exn_str e)) ;;
  (* Check OpenSearch *)
  opensearch_state <-
    try_except
      (get_opensearch_client ;; os_cluster_health ;; ret "healthy")
      (fun e => ret ("unhealthy: " +:+ exn_str e)) ;;
  let healthy := String.eqb redis_state "healthy"
                 && String.eqb opensearch_state "healthy" in
  let status_code := if healthy then 200 else 503 in
  ret (create_response status_code
         (JDict [("status", JStr (if healthy then "healthy" else "degraded"));
                 ("timestamp", JStr now);
                 ("services", JDict [("redis", JStr redis_state);
                                     ("opensearch", JStr opensearch_state)])])).

(** [lambda_handler] of api_handler.py; [api_handler = APIHandler()]
    starts with both clients unset. *)
Definition lambda_handler (event : api_event) : M response :=
  logger INFO_ ("Processing API request: " +:+ opt_str (httpMethod event)
                +:+ " " +:+ opt_str (path event)) ;;
  (fun w => (Ok tt, with_clients false false w)) ;;
  try_except
    (let method := default "GET" (httpMethod event) in
     let path := default "/" (path event) in
     let query_params := default [] (queryStringParameters event) in
     (* Route requests *)
     if String.eqb path "/search" && String.eqb method "GET" then
       handle_search query_params
     else if String.eqb path "/cache" && String.eqb method "GET" then
       handle_cache_lookup query_params
     else if String.eqb path "/user" && String.eqb method "GET" then
       handle_user_lookup query_params
     else if String.eqb path "/analytics" && String.eqb method "GET" then
       handle_analytics query_params
     else if String.eqb path "/health" && String.eqb method "GET" then
       handle_health_check
     else if String.eqb path "/metrics" && String.eqb method "GET" then
       handle_metrics query_params
     else
       ret (create_response 404
              (JDict [("error", JStr "Not Found"); ("path", JStr path);
                      ("method", JStr method)])))
    (fun e =>
       logger ERROR ("API error: " +:+ exn_str e) ;;
       now <- utc_now ;;
       ret (create_response 500
              (JDict [("error", JStr (exn_str e)); ("timestamp", JStr now)]))).

End Code.
End ApiHandler.

(** ** A concrete runtime

    An executable stand-in for the library functions of [Runtime], used
    to run the handlers on concrete requests: a JSON printer and parser
    for strings without escapes, decimal [int], lower case for the ASCII
    letters, and globs with [*] and [?]. *)

Definition dquote : string := String (ascii_of_nat 34) EmptyString.

Definition lower_ascii (a : ascii) : ascii :=
  let n := N_of_ascii a in
  if ((65 <=? n) && (n <=? 90))%N then ascii_of_N (n + 32) else a.

Fixpoint sample_lower (s : string) : string :=
  match s with
  | EmptyString => EmptyString
  | String a s' => String (lower_ascii a) (sample_lower s')
  end.

Fixpoint join (sep : string) (l : list string) : string :=
  match l with
  | [] => ""
  | [x] => x
  | x :: rest => x +:+ sep +:+ join sep rest
  end.

Fixpoint sample_repr (v : json) : string :=
  match v with
  | JNull => "None"
  | JBool true => "True"
  | JBool false => "False"
  | JInt z => str_of_Z z
  | JFloat lit => lit
  | JStr s => "'" +:+ s +:+ "'"
  | JList l => "[" +:+ join ", " (map sample_repr l) +:+ "]"
  | JDict d =>
      "{" +:+ join ", " (map (fun kv => "'" +:+ fst kv +:+ "': "
                                        +:+ sample_repr (snd kv)) d) +:+ "}"
  end.

Fixpoint sample_dumps (v : json) : string :=
  match v with
  | JNull => "null"
  | JBool true => "true"
  | JBool false => "false"
  | JInt z => str_of_Z z
  | JFloat lit => lit
  | JStr s => dquote +:+ s +:+ dquote
  | JList l => "[" +:+ join ", " (map sample_dumps l) +:+ "]"
  | JDict d =>
      "{" +:+ join ", " (map (fun kv => dquote +:+ fst kv +:+ dquote +:+ ": "
                                        +:+ sample_dumps (snd kv)) d) +:+ "}"
  end.

Fixpoint skip_ws (s : string) : string :=
  match s with
  | String " " s' => skip_ws s'
  | _ => s
  end.

(** the characters up to the closing quote, and what follows it *)
Fixpoint read_quoted (s : string) : option (string * string) :=
  match s with
  | EmptyString => None
  | String c s' =>
      if Ascii.eqb c (ascii_of_nat 34) then Some (EmptyString, s')
      else match read_quoted s' with
           | Some (body, rest) => Some (String c body, rest)
           | None => None
           end
  end.

Definition is_number_char (c : ascii) : bool :=
  let n := N_of_ascii c in
  ((48 <=? n) && (n <=? 57) || (n =? 45) || (n =? 46) || (n =? 101) || (n =? 43))%N.

Fixpoint read_number (s : string) : string * string :=
  match s with
  | String c s' =>
      if is_number_char c then
        let '(lit, rest) := read_number s' in (String c lit, rest)
      else (EmptyString, s)
  | EmptyString => (EmptyString, EmptyString)
  end.

Definition number_of (lit : string) : option json :=
  match Z_of_str lit with
  | Some z => Some (JInt z)
  | None => if is_substring "." lit then Some (JFloat lit) else None
  end.

(** the elements after an opening bracket, read with [value] *)
Fixpoint read_items (value : string -> option (json * string)) (n : nat)
    (s : string) : option (list json * string) :=
  match n with
  | O => None
  | S n' =>
      match value s with
      | None => None
      | Some (v, rest) =>
          match skip_ws rest with
          | String "," rest' =>
              match read_items value n' rest' with
              | Some (vs, rest'') => Some (v :: vs, rest'')
              | None => None
              end
          | String "]" rest' => Some ([v], rest')
          | _ => None
          end
      end
  end.

(** the members after an opening brace, read with [value] *)
Fixpoint read_members (value : string -> option (json * string)) (n : nat)
    (s : string) : option (list (string * json) * string) :=
  match n with
  | O => None
  | S n' =>
      match skip_ws s with
      | String c s1 =>
          if Ascii.eqb c (ascii_of_nat 34) then
            match read_quoted s1 with
            | Some (k, s2) =>
                match skip_ws s2 with
                | String ":" s3 =>
                    match value s3 with
                    | Some (v, s4) =>
                        match skip_ws s4 with
                        | String "," s5 =>
                            match read_members value n' s5 with
                            | Some (ms, s6) => Some ((k, v) :: ms, s6)
                            | None => None
                            end
                        | String "}" s5 => Some ([(k, v)], s5)
                        | _ => None
                        end
                    | None => None
                    end
                | _ => None
                end
            | None => None
            end
          else None
      | EmptyString => None
      end
  end.

Fixpoint read_value (fuel : nat) (s : string) : option (json * string) :=
  match fuel with
  | O => None
  | S fuel' =>
      match skip_ws s with
      | EmptyString => None
      | String c rest =>
          if Ascii.eqb c (ascii_of_nat 34) then
            match read_quoted rest with
            | Some (body, rest') => Some (JStr body, rest')
            | None => None
            end
          else if Ascii.eqb c "[" then
            match skip_ws rest with
            | String "]" rest' => Some (JList [], rest')
            | _ => match read_items (read_value fuel') fuel' rest with
                   | Some (vs, rest') => Some (JList vs, rest')
                   | None => None
                   end
            end
          else if Ascii.eqb c "{" then
            match skip_ws rest with
            | String "}" rest' => Some (JDict [], rest')
            | _ => match read_members (read_value fuel') fuel' rest with
                   | Some (ms, rest') => Some (JDict ms, rest')
                   | None => None
                   end
            end
          else if is_prefix "null" (String c rest) then
            Some (JNull, String.substring 4 (String.length rest) (String c rest))
          else if is_prefix "true" (String c rest) then
            Some (JBool true, String.substring 4 (String.length rest) (String c rest))
          else if is_prefix "false" (String c rest) then
            Some (JBool false, String.substring 5 (String.length rest) (String c rest))
          else
            let '(lit, rest') := read_number (String c rest) in
            match number_of lit with
            | Some v => Some (v, rest')
            | None => None
            end
      end
  end.

Definition sample_loads (s : string) : option json :=
  match read_value (S (String.length s)) s with
  | Some (v, rest) => match skip_ws rest with
                      | EmptyString => Some v
                      | _ => None
                      end
  | None => None
  end.

(** Redis globs with [*] (any run of characters) and [?] (any one) *)
Fixpoint sample_glob (pattern key : string) : bool :=
  match pattern with
  | EmptyString => match key with EmptyString => true | _ => false end
  | String p pattern' =>
      if Ascii.eqb p "*" then
        (fix star (k : string) : bool :=
           sample_glob pattern' k
           || match k with
              | EmptyString => false
              | String _ k' => star k'
              end) key
      else
        match key with
        | EmptyString => false
        | String c key' =>
            (Ascii.eqb p "?" || Ascii.eqb p c) && sample_glob pattern' key'
        end
  end.

Definition sample_runtime : Runtime := {|
  py_repr := sample_repr;
  py_int := Z_of_str;
  py_lower := sample_lower;
  json_dumps := sample_dumps;
  json_loads := sample_loads;
  glob_match := sample_glob
|}.

(** A world in which both stores answer every request: nothing cached,
    no index yet, no fault scheduled. *)
Definition quiet_world : world :=
  World ∅ [] [] ∅ [] [] [] "2024-05-01" "2024-05-01T12:00:00"
        (Some "cache.internal:6379") (Some "search.internal") false false.

Definition sample_event (id user session event_type : string) : json :=
  JDict [("id", JStr id); ("user_id", JStr user); ("session_id", JStr session);
         ("timestamp", JStr "2024-05-01T11:59:00Z"); ("event_type", JStr event_type);
         ("product_id", JStr "product_7"); ("price", JFloat "19.99")].

(** [quiet_world] with a Redis server that drops the next round trip. *)
Definition redis_down_world : world := with_faults [true] quiet_world.

(** [quiet_world] at the moment of a creation race: the existence check
    for [user-events] is answered (absent), and another invocation creates
    the index before the create request is served. *)
Definition race_world : world :=
  with_plan [OsReply (JDict []); OsRace "user-events"] quiet_world.

(** [quiet_world] after a first ingestion: both indices exist and the
    handler object holds its OpenSearch client. *)
Definition indexed_world : world :=
  with_clients false true
    (with_indices ({["user-events"]} ∪ {["product-catalog"]}) quiet_world).

(** [quiet_world] facing a cluster that answers the four index requests
    of a first run and then accepts a bulk request only in part. *)
Definition partial_reply : json :=
  JDict [("took", JInt 30); ("errors", JBool true)].

Definition partial_failure_world : world :=
  with_plan [OsReply (JDict []); OsReply (JDict []); OsReply (JDict []);
             OsReply (JDict []); OsReply partial_reply] quiet_world.

Definition sample_events : json :=
  JList [sample_event "e1" "u1" "s1" "purchase";
         sample_event "e2" "u2" "s2" "view"].

Definition sample_product (id name : string) : json :=
  JDict [("id", JStr id); ("name", JStr name); ("category", JStr "Electronics");
         ("price", JFloat "999.99"); ("brand", JStr "Brand_1")].

(** a batch of the shape the generator sends: events and products *)
Definition generated_batch : json :=
  JDict [("events", sample_events);
         ("products", JList [sample_product "p1" "Laptop Pro"])].

(** what the cluster answers to the four index requests of a first run *)
Definition first_run_replies : list os_event :=
  [OsReply (JDict []); OsReply (JDict []); OsReply (JDict []); OsReply (JDict [])].

(** [quiet_world] facing a cluster that serves the index requests of a
    first run and then the two bulk requests of a batch as listed *)
Definition bulk_world (bulk_events bulk_products : os_event) : world :=
  with_plan (first_run_replies ++ [bulk_events; bulk_products]) quiet_world.

(** [quiet_world] with a Redis server that answers the connection ping
    and drops the round trip after it. *)
Definition cache_fault_world : world := with_faults [false; true] quiet_world.

(** [quiet_world] with a cache of four keys of four types. *)
Definition mixed_world : world :=
  with_redis
    (list_to_map
       [("product_search:laptop", Entry (RString "product_1") (Some 3600));
        ("category_products:books", Entry (RSet {["product_1"]}) (Some 86400));
        ("popular_products", Entry (RZSet {["product_1" := 3]}) (Some 86400));
        ("user:u1", Entry (RHash {["last_event" := "view"]}) (Some 86400))])
    quiet_world.

(** [quiet_world] with 101 keys [prefix0] ... [prefix100] of one value. *)
Definition crowded_world (prefix : string) (v : rvalue) : world :=
  with_redis
    (list_to_map
       (map (fun i => (prefix +:+ str_of_Z (Z.of_nat i), Entry v (Some 86400)))
            (seq 0 101)))
    quiet_world.

Definition many_users_world : world :=
  crowded_world "user:" (RHash {["last_event" := "view"]}).

Definition many_categories_world : world :=
  crowded_world "category_products:" (RSet {["product_1"]}).

(** what the cluster answers to a search for smartphones: one hit *)
Definition smartphone_reply : json :=
  JDict [("took", JInt 4);
         ("hits",
          JDict [("total", JDict [("value", JInt 1); ("relation", JStr "eq")]);
                 ("max_score", JFloat "1.3");
                 ("hits",
                  JList [JDict [("_index", JStr "product-catalog");
                                ("_id", JStr "product_7");
                                ("_source",
                                 JDict [("id", JStr "product_7");
                                        ("name", JStr "smartphone");
                                        ("price", JFloat "499.0")])]])])].

Definition smartphone_results : json :=
  JDict [("hits", JList [JDict [("id", JStr "product_7");
                                ("name", JStr "smartphone");
                                ("price", JFloat "499.0")]]);
         ("total", JInt 1);
         ("max_score", JFloat "1.3")].

Definition search_world : world := with_plan [OsReply smartphone_reply] quiet_world.

(** does the cluster answer under this event? *)
Definition answers (ev : os_event) : bool :=
  match ev with
  | OsDown _ => false
  | _ => true
  end.

(** the status code a handler run ends with, if it ends with a response *)
Definition reply_status (run : outcome response * world) : option Z :=
  match fst run with
  | Ok resp => Some (statusCode resp)
  | Raise _ => None
  end.

(** * Vocabulary of the properties

    The predicates, relations and reference functions in which the
    properties below are stated. *)

Section Vocabulary.
Context `{Runtime}.

(** Redis can be reached from [w]: discovery yields an endpoint and the
    next round trip does not fail. *)
Definition redis_reachable (w : world) : Prop :=
  is_Some (w_redis_conf w) /\ head (w_redis_faults w) <> Some true.

Definition opensearch_configured (w : world) : Prop := is_Some (w_os_conf w).

Definition int_value_error (s : string) : exn :=
  ValueError ("invalid literal for int() with base 10: " +:+ py_repr (JStr s)).

(** the world in which [lambda_handler] of api_handler.py starts routing *)
Definition api_entry (event : api_event) (w : world) : world :=
  with_clients false false
    (with_log (w_log w ++ [Log INFO_ ("Processing API request: "
                                      +:+ opt_str (httpMethod event) +:+ " "
                                      +:+ opt_str (path event))]) w).

(** the reply of the [except Exception] clause of [lambda_handler] *)
Definition last_resort_reply (e : exn) (w : world) : response :=
  ApiHandler.create_response 500
    (JDict [("error", JStr (exn_str e)); ("timestamp", JStr (w_now w))]).

Definition bad_request_reply (msg : string) : response :=
  ApiHandler.create_response 400 (JDict [("error", JStr msg)]).

(** How a request that fails validation ends: with the 400 reply when
    the Redis client initialises, the connection ping being the one store
    call made; with the 500 of [lambda_handler] when it does not. *)
Definition validation_outcome (event : api_event) (msg : string) (w : world)
  : Prop :=
  exists resp w',
    ApiHandler.lambda_handler event w = (Ok resp, w')
    /\ ((redis_reachable w /\ resp = bad_request_reply msg
         /\ w_trace w' = (w_trace w ++ [Redis PING ""])%list)
        \/ (~ redis_reachable w
            /\ exists e w1, resp = last_resort_reply e w1 /\ w_now w1 = w_now w)).

(** the world in which [lambda_handler] of data_processor.py starts work *)
Definition processor_entry (w : world) : world :=
  with_clients false false
    (with_log (w_log w ++ [Log INFO_ "Starting data processing"]) w).

(** the reply of the [except Exception] clause of that [lambda_handler] *)
Definition fatal_reply (e : exn) (w : world) : response :=
  Response 500 None
    (json_dumps (JDict [("error", JStr (exn_str e)); ("timestamp", JStr (w_now w))])).

(** [keeps V m]: whatever its outcome, a run of [m] leaves the clock and
    the configuration alone and takes the keyspace to one related to it
    by [V]. *)
Definition keeps (V : relation (gmap string entry)) {A : Type} (m : M A)
  : Prop :=
  forall w r w', m w = (r, w') ->
    V (w_redis w) (w_redis w') /\ w_now w' = w_now w /\ w_today w' = w_today w
    /\ w_redis_conf w' = w_redis_conf w /\ w_os_conf w' = w_os_conf w.

(** The relation that asks nothing of the keyspace: [keeps anything m]
    says that [m] leaves the clock alone. *)
Definition anything : relation (gmap string entry) := fun _ _ => True.

(** The two entity types of a batch are processed by parallel code. *)
Inductive entity : Type := Events | Products.

Definition entity_key (k : entity) : string :=
  match k with Events => "events" | Products => "products" end.

Definition process (k : entity) : json -> M Z :=
  match k with
  | Events => DataProcessor.process_user_events
  | Products => DataProcessor.process_products
  end.

Definition records_loop_of (k : entity)
  : list json -> Z -> list json -> M (Z * list json) :=
  match k with
  | Events => DataProcessor.user_events_loop
  | Products => DataProcessor.products_loop
  end.

Definition bulk_insert (k : entity) : list json -> M unit :=
  match k with
  | Events => DataProcessor.bulk_insert_events
  | Products => DataProcessor.bulk_insert_products
  end.

(** [process k] up to the point where the bulk request is issued: the
    processed count and the bulk actions gathered by the loop. *)
Definition collect (k : entity) (records : json) : M (Z * list json) :=
  get_opensearch_client ;;
  get_redis_client ;;
  items <- lift (py_iter records) ;;
  records_loop_of k items 0 [].

Definition failure_warning (k : entity) (reply : json) : log_rec :=
  Log WARNING
    ((match k with
      | Events => "Some documents failed to index: "
      | Products => "Some products failed to index: "
      end) +:+ py_str reply).

(** the payload [JDict d] holds records of entity [k] and nothing else
    that [lambda_handler] or [process_data_batch] looks for *)
Definition only_entity (k : entity) (d : list (string * json)) (records : json)
  : Prop :=
  dict_get (entity_key k) d = Some records
  /\ dict_has "Records" d = false
  /\ dict_has "event_type" d = false
  /\ dict_has (match k with Events => "products" | Products => "events" end) d = false.

Definition success_reply (n : Z) (w : world) : response :=
  Response 200 None
    (json_dumps
       (JDict [("message", JStr ("Successfully processed " +:+ str_of_Z n
                                 +:+ " records"));
               ("timestamp", JStr (w_now w))])).

(** the keys [KEYS pattern] returns on a keyspace *)
Definition matching (pattern : string) (st : gmap string entry) : list string :=
  List.filter (glob_match pattern) (map fst (map_to_list st)).

(** what the pattern branch puts in [results] for a key: the value of a
    string, the fields of a hash, and nothing for a key of another type *)
Definition decoded (st : gmap string entry) (k : string) : option json :=
  match st !! k with
  | Some (Entry (RString s) _) => Some (JStr s)
  | Some (Entry (RHash h) _) => Some (hash_json (map_to_list h))
  | _ => None
  end.

Fixpoint pattern_results (st : gmap string entry) (keys : list string)
  : list (string * json) :=
  match keys with
  | [] => []
  | k :: rest =>
      match decoded st k with
      | Some v => (k, v) :: pattern_results st rest
      | None => pattern_results st rest
      end
  end.

Definition reportable (st : gmap string entry) (k : string) : bool :=
  match decoded st k with Some _ => true | None => false end.

Definition pattern_reply (pattern : string) (results : list (string * json))
  : response :=
  ApiHandler.create_response 200
    (JDict [("pattern", JStr pattern);
            ("count", JInt (Z.of_nat (length results)));
            ("results", JDict results)]).

(** a command that only reads its key *)
Definition reads {A : Type} (f : option entry -> outcome A * option entry) : Prop :=
  forall e, snd (f e) = e.

(** the keys the pattern branch goes through: at most the first 100 *)
Definition capped (keys : list string) : list string := firstn 100 keys.

(** the size a search request asks for, when it can be read *)
Definition requested_size (qp : list (string * string)) : option Z :=
  match dict_get "size" qp with
  | None => Some 10
  | Some s => py_int s
  end.

Definition query_of (qp : list (string * string)) : string :=
  default "*" (dict_get "q" qp).

Definition index_of (qp : list (string * string)) : string :=
  default "user-events" (dict_get "index" qp).

(** the fingerprint key of a request asking for [n] results *)
Definition fingerprint (qp : list (string * string)) (n : Z) : string :=
  ApiHandler.search_cache_key (index_of qp) (query_of qp) (Z.min n 100).

Definition search_reply (qp : list (string * string)) (cached : bool)
    (results : json) : response :=
  ApiHandler.create_response 200
    (JDict [("query", JStr (query_of qp)); ("index", JStr (index_of qp));
            ("cached", JBool cached); ("results", results)]).


Definition cache (k : entity) : json -> M unit :=
  match k with
  | Events => DataProcessor.cache_user_data
  | Products => DataProcessor.cache_product_data
  end.

(** The key classes of the cache and their time to live, in seconds. *)
Inductive key_class : Type :=
| SessionKey | UserKey | CounterKey | PopularProducts | SearchQueries
| ProductKey | CategoryProducts | ProductSearch.

Definition class_ttl (c : key_class) : Z :=
  match c with
  | SessionKey => 3600
  | UserKey => 86400
  | CounterKey => 604800
  | PopularProducts => 86400
  | SearchQueries => 604800
  | ProductKey => 3600
  | CategoryProducts => 86400
  | ProductSearch => 3600
  end.

(** [writes k today record c key]: caching [record] on day [today]
    writes [key], a key of class [c]. *)
Inductive writes : entity -> string -> json -> key_class -> string -> Prop :=
| writes_session today event session_id :
    py_getitem event "session_id" = Ok session_id ->
    writes Events today event SessionKey ("session:" +:+ py_str session_id)
| writes_user today event user_id :
    py_getitem event "user_id" = Ok user_id ->
    writes Events today event UserKey ("user:" +:+ py_str user_id)
| writes_counter today event event_type :
    py_getitem event "event_type" = Ok event_type ->
    writes Events today event CounterKey
      ("counters:" +:+ today +:+ ":" +:+ py_str event_type)
| writes_popular today event :
    py_contains "product_id" event = Ok true ->
    writes Events today event PopularProducts "popular_products"
| writes_searches today event :
    py_getitem event "event_type" = Ok (JStr "search") ->
    py_contains "search_query" event = Ok true ->
    writes Events today event SearchQueries ("search_queries:" +:+ today)
| writes_product today product id :
    py_getitem product "id" = Ok id ->
    writes Products today product ProductKey ("product:" +:+ py_str id)
| writes_category today product category :
    py_getitem product "category" = Ok category ->
    writes Products today product CategoryProducts
      ("category_products:" +:+ py_str category)
| writes_product_search today product name :
    py_getitem product "name" = Ok (JStr name) ->
    writes Products today product ProductSearch
      ("product_search:" +:+ py_lower name).

(** [key] has exactly [t] seconds left *)
Definition expires_in (st : gmap string entry) (key : string) (t : Z) : Prop :=
  exists v, st !! key = Some (Entry v (Some t)).

(** the two keyspaces agree except at [key] *)
Definition differ_at (key : string) (st st' : gmap string entry) : Prop :=
  forall k, k <> key -> st' !! k = st !! k.

(** a command that, when it succeeds, leaves a value at its key *)
Definition stores {A : Type} (f : option entry -> outcome A * option entry) : Prop :=
  forall e a e', f e = (Ok a, e') -> is_Some e'.

(** the integer Redis holds under a counter key ([0] for a key that does
    not exist, nothing for a value that is not an integer) *)
Definition counter_read (st : gmap string entry) (k : string) : option Z :=
  match st !! k with
  | None => Some 0
  | Some (Entry (RString s) _) => Z_of_str s
  | Some _ => None
  end.

(** [touched l st st']: [st'] comes from [st] by writing the keys of [l]
    in turn, each left with the seconds listed for it. *)
Inductive touched : list (string * Z) -> relation (gmap string entry) :=
| touched_nil st : touched [] st st
| touched_cons k t rest st st1 st' :
    expires_in st1 k t -> differ_at k st st1 -> touched rest st1 st' ->
    touched ((k, t) :: rest) st st'.

(** the keys a successful [cache_user_data] writes after the counter *)
Definition late_event_keys (today : string) (has_product searching : bool)
  : list (string * Z) :=
  ((if has_product then [("popular_products", 86400)] else [])
   ++ (if searching then [("search_queries:" +:+ today, 604800)] else []))%list.

(** the counter under [key] has not gone down *)
Definition counter_le (key : string) : relation (gmap string entry) :=
  fun st st' =>
    forall v, counter_read st key = Some v ->
              exists v', counter_read st' key = Some v' /\ v <= v'.

(** [cached_run events w w']: the events are cached one after the other
    from [w], every write succeeding, and leave [w']. *)
Inductive cached_run : list json -> world -> world -> Prop :=
| cached_nil w : cached_run [] w w
| cached_cons event rest w w1 w' :
    DataProcessor.cache_user_data event w = (Ok tt, w1) ->
    cached_run rest w1 w' ->
    cached_run (event :: rest) w w'.

Definition index_name (k : entity) : string :=
  match k with Events => "user-events" | Products => "product-catalog" end.

(** what the [try] block of the loop does with one record: cache it, then
    read its id for the bulk action *)
Definition attempt (k : entity) (record : json) : M json :=
  cache k record ;; lift (py_getitem record "id").

(** the log record the [except] clause of the loop writes *)
Definition skip_record (k : entity) (record : json) (e : exn) : log_rec :=
  Log ERROR
    ((match k with
      | Events => "Error processing event "
      | Products => "Error processing product "
      end)
     +:+ py_str (match record with
                 | JDict d => default JNull (dict_get "id" d)
                 | _ => JNull
                 end)
     +:+ ": " +:+ exn_str e).

(** the two bulk actions of a record that went through *)
Definition enqueued (k : entity) (kept : json * json) : list json :=
  [DataProcessor.index_action (index_name k) (snd kept); fst kept].

(** [gathers k records w kept w']: going through [records] from [w], the
    records of [kept] (each with its id) are those whose [try] block went
    through, in order; the others were logged and skipped. *)
Inductive gathers (k : entity)
  : list json -> world -> list (json * json) -> world -> Prop :=
| gathers_nil w : gathers k [] w [] w
| gathers_keep record id rest w w1 kept w' :
    attempt k record w = (Ok id, w1) ->
    gathers k rest w1 kept w' ->
    gathers k (record :: rest) w ((record, id) :: kept) w'
| gathers_skip record e rest w w1 kept w' :
    attempt k record w = (Raise e, w1) ->
    gathers k rest (with_log (w_log w1 ++ [skip_record k record e]) w1) kept w' ->
    gathers k (record :: rest) w kept w'.

Definition is_dict (v : json) : Prop := exists d, v = JDict d.

(** ** The index step, request by request *)

(** the requests a run of the index step makes for [index], seen from the
    world [w] in which the run starts: the existence check alone, or the
    check followed by the create request, the latter only for an index
    that did not exist in [w] *)
Definition index_requests (w : world) (index : string) (requests : list call)
  : Prop :=
  requests = [OsExists index]
  \/ (requests = [OsExists index; OsCreate index] /\ index ∉ w_indices w).

(** the turn of [index] fails with [e] from [w], leaving [w']: its
    existence check raises, or the check reports the index absent and the
    create request raises *)
Definition index_request_fails (index : string) (w : world) (e : exn)
    (w' : world) : Prop :=
  os_indices_exists index w = (Raise e, w')
  \/ exists w1, os_indices_exists index w = (Ok false, w1)
                /\ os_indices_create index w1 = (Raise e, w').

(** the log record of the [else] branch of the index loop *)
Definition index_found (index : string) : log_rec :=
  Log INFO_ ("OpenSearch index already exists: " +:+ index).

(** the log record of the [except] clause of the index loop *)
Definition index_error (index : string) (e : exn) : log_rec :=
  Log ERROR ("Error creating index " +:+ index +:+ ": " +:+ exn_str e).

(** ** Key classes *)

(** The class of a key, read off the key itself: the literal text an
    f-string of the cache writes puts in front of the record's fields. *)
Definition class_of (key : string) : option key_class :=
  if is_prefix "session:" key then Some SessionKey
  else if is_prefix "user:" key then Some UserKey
  else if is_prefix "counters:" key then Some CounterKey
  else if String.eqb key "popular_products" then Some PopularProducts
  else if is_prefix "search_queries:" key then Some SearchQueries
  else if is_prefix "product:" key then Some ProductKey
  else if is_prefix "category_products:" key then Some CategoryProducts
  else if is_prefix "product_search:" key then Some ProductSearch
  else None.

(** the seconds an entry has left, if it expires at all *)
Definition ttl_of (e : option entry) : option Z :=
  match e with
  | Some x => e_ttl x
  | None => None
  end.

(** What a step of a cache write does to the expiry of a key of class
    [c]: the key is there afterwards, and it has the seconds of its class
    or the expiry it had (none, for a key that was not there). *)
Definition ttl_kept (c : key_class) (e e' : option entry) : Prop :=
  is_Some e' /\ (ttl_of e' = Some (class_ttl c) \/ ttl_of e' = ttl_of e).

(** [class_kept st st']: every key is as it was or is a key of one of the
    classes whose expiry is as [ttl_kept] says. *)
Definition class_kept : relation (gmap string entry) :=
  fun st st' =>
    forall key,
      st' !! key = st !! key
      \/ exists c, class_of key = Some c /\ ttl_kept c (st !! key) (st' !! key).

(** ** Two runs against clusters that answer differently *)

(** Two events of the cluster have the same shape when they are the same
    event, or when both are replies with a JSON object as body, whatever
    the two objects hold. *)
Definition same_shape (a b : os_event) : Prop :=
  match a, b with
  | OsReply (JDict _), OsReply (JDict _) => True
  | _, _ => a = b
  end.

(** everything in the world but the log and the plan of the cluster *)
Definition beside_log (w : world) :=
  (w_redis w, w_redis_faults w, w_redis_info w, w_indices w, w_trace w,
   w_today w, w_now w, w_redis_conf w, w_os_conf w,
   self_redis_client w, self_opensearch_client w).

(** Two worlds are alike when they differ at most in their logs and in
    the objects their clusters reply with. *)
Definition alike (w1 w2 : world) : Prop :=
  beside_log w1 = beside_log w2
  /\ Forall2 same_shape (w_os_plan w1) (w_os_plan w2).

(** [sim Q m m']: run in worlds that are alike, [m] and [m'] end alike:
    both return, with values related by [Q], or both raise the same
    exception. *)
Definition sim {A : Type} (Q : A -> A -> Prop) (m m' : M A) : Prop :=
  forall w1 w2, alike w1 w2 ->
    match m w1, m' w2 with
    | (Ok a, u1), (Ok b, u2) => Q a b /\ alike u1 u2
    | (Raise e, u1), (Raise e', u2) => e = e' /\ alike u1 u2
    | _, _ => False
    end.

Definition reply_alike (a b : json) : Prop :=
  (is_dict a /\ is_dict b) \/ a = b.

(** ** Requests and the events that serve them *)

Definition is_os_call (c : call) : bool :=
  match c with
  | Redis _ _ => false
  | _ => true
  end.

(** the requests to OpenSearch among the calls, in order: the [i]-th of
    them is served by the [i]-th event of the plan *)
Definition os_calls (calls : list call) : list call := List.filter is_os_call calls.

(** [served plan trace w]: since the world with that plan and trace, the
    run has journalled its calls behind [trace], has used up one event of
    the plan per request to OpenSearch, and none of these requests was
    refused. *)
Definition served (plan : list os_event) (trace : list call) (w : world) : Prop :=
  exists calls,
    w_trace w = (trace ++ calls)%list
    /\ w_os_plan w = drop (length (os_calls calls)) plan
    /\ forall i c m, os_calls calls !! i = Some c -> plan !! i <> Some (OsDown m).

(** [stays I m]: a run of [m] from a world in [I] ends in [I], however it
    ends; [stays_done I m]: it does when it returns. *)
Definition stays (I : world -> Prop) {A : Type} (m : M A) : Prop :=
  forall w r w', I w -> m w = (r, w') -> I w'.

Definition stays_done (I : world -> Prop) {A : Type} (m : M A) : Prop :=
  forall w a w', I w -> m w = (Ok a, w') -> I w'.

(** ** Vocabulary of the further properties *)

(** [returns Q m]: every value [m] returns satisfies [Q]. *)
Definition returns {A : Type} (Q : A -> Prop) (m : M A) : Prop :=
  forall w a w', m w = (Ok a, w') -> Q a.

(** the status codes of the API, and what every API response carries *)
Definition api_statuses : list Z := [200; 400; 404; 500; 503].

Definition api_response (r : response) : Prop :=
  In (statusCode r) api_statuses /\ headers r = Some cors_headers.

Definition processor_response (r : response) : Prop :=
  In (statusCode r) [200; 500] /\ headers r = None.

(** the routes of [lambda_handler] of api_handler.py *)
Definition api_paths : list string :=
  ["/search"; "/cache"; "/user"; "/analytics"; "/health"; "/metrics"].

Definition routed (event : api_event) : bool :=
  String.eqb (default "GET" (httpMethod event)) "GET"
  && existsb (String.eqb (default "/" (path event))) api_paths.

Definition not_found_reply (event : api_event) : response :=
  ApiHandler.create_response 404
    (JDict [("error", JStr "Not Found");
            ("path", JStr (default "/" (path event)));
            ("method", JStr (default "GET" (httpMethod event)))]).

(** the two keyspaces agree on every key outside [search_cache:*] *)
Definition outside_search_cache : relation (gmap string entry) :=
  fun st st' => forall k, is_prefix "search_cache:" k = false -> st' !! k = st !! k.

(** the two keyspaces agree on every key of [search_cache:*] *)
Definition inside_search_cache : relation (gmap string entry) :=
  fun st st' => forall k, is_prefix "search_cache:" k = true -> st' !! k = st !! k.

(** [emits P m]: the store calls a run of [m] makes all satisfy [P]. *)
Definition emits (P : call -> bool) {A : Type} (m : M A) : Prop :=
  forall w r w', m w = (r, w') ->
    exists calls, w_trace w' = (w_trace w ++ calls)%list /\ forallb P calls = true.

(** The store calls that read, plus the one write of the API: [SETEX] on
    a key of the search cache. *)
Definition api_call (c : call) : bool :=
  match c with
  | Redis SETEX key => is_prefix "search_cache:" key
  | Redis (HSET | EXPIRE | INCR | ZINCRBY | SADD | SET) _ => false
  | Redis _ _ => true
  | OsSearch _ _ | OsHealth => true
  | OsExists _ | OsCreate _ | OsBulk _ => false
  end.

(** the reply of the health check for the states of the two services *)
Definition health_reply (redis_state opensearch_state now : string) : response :=
  let healthy := String.eqb redis_state "healthy"
                 && String.eqb opensearch_state "healthy" in
  ApiHandler.create_response (if healthy then 200 else 503)
    (JDict [("status", JStr (if healthy then "healthy" else "degraded"));
            ("timestamp", JStr now);
            ("services", JDict [("redis", JStr redis_state);
                                ("opensearch", JStr opensearch_state)])]).

(** Redis passes the health check: an endpoint is found and the two
    pings, of the client initialisation and of the check, are answered. *)
Definition redis_passes (w : world) : Prop :=
  is_Some (w_redis_conf w) /\ forallb negb (firstn 2 (w_redis_faults w)) = true.

(** OpenSearch passes the health check: an endpoint is found and the
    cluster-health request is answered. *)
Definition opensearch_passes (w : world) : Prop :=
  is_Some (w_os_conf w) /\ forallb answers (firstn 1 (w_os_plan w)) = true.

(** what [TYPE] answers for a value *)
Definition redis_type_of (v : rvalue) : string :=
  match v with
  | RString _ => "string" | RHash _ => "hash" | RSet _ => "set"
  | RZSet _ => "zset" | RList _ => "list"
  end.

(** the whole value of a key, as a key lookup reports it *)
Definition value_json (v : rvalue) : json :=
  match v with
  | RString s => JStr s
  | RHash h => hash_json (map_to_list h)
  | RSet s => JList (map JStr (elements s))
  | RZSet z =>
      JList (map (fun ms => JList [JStr (fst ms); score_json (snd ms)])
                 (zset_ascending z))
  | RList l => JList (map JStr l)
  end.

(** the reply of a key lookup for what the keyspace holds under the key *)
Definition key_reply (key : string) (e : option entry) : response :=
  match e with
  | Some (Entry v t) =>
      ApiHandler.create_response 200
        (JDict [("key", JStr key); ("type", JStr (redis_type_of v));
                ("value", value_json v);
                ("ttl", JInt (match t with Some t => t | None => -1 end))])
  | None =>
      ApiHandler.create_response 404
        (JDict [("error", JStr ("Key not found: " +:+ key))])
  end.

(** The two [try] blocks of [handle_search]: the look in the cache, which
    yields the reply to return if the cache serves the request, and the
    search proper. *)
Definition cache_lookup_block (query index cache_key : string)
  : M (option response) :=
  try_except
    (cached_result <- redis_get cache_key ;;
     if opt_truthy cached_result then
       logger INFO_ ("Returning cached search result for query: " +:+ query) ;;
       results <- lift (py_json_loads (opt_json cached_result)) ;;
       ret (Some (ApiHandler.create_response 200
                    (JDict [("query", JStr query); ("index", JStr index);
                            ("cached", JBool true); ("results", results)])))
     else ret None)
    (fun e =>
       logger WARNING ("Cache lookup failed: " +:+ exn_str e) ;;
       ret None).

Definition search_block (query index : string) (size : Z) (cache_key : string)
  : M response :=
  try_except
    (let search_body :=
       if String.eqb query "*" then match_all_body size
       else multi_match_body query size in
     reply <- os_search index search_body ;;
     results <- lift (ApiHandler.format_results reply) ;;
     try_except
       (redis_setex cache_key 300 (json_dumps results) ;; ret tt)
       (fun e => logger WARNING ("Failed to cache search result: "
                                 +:+ exn_str e)) ;;
     total <- lift (py_getitem results "total") ;;
     logger INFO_ ("Search completed: " +:+ py_str total
                   +:+ " results for query '" +:+ query +:+ "'") ;;
     ret (ApiHandler.create_response 200
            (JDict [("query", JStr query); ("index", JStr index);
                    ("cached", JBool false); ("results", results)])))
    (fun e =>
       logger ERROR ("Search error: " +:+ exn_str e) ;;
       ret (ApiHandler.create_response 500
              (JDict [("error", JStr ("Search failed: " +:+ exn_str e))]))).

(** the body of the search request for [n] requested results *)
Definition search_body (qp : list (string * string)) (n : Z) : json :=
  if String.eqb (query_of qp) "*" then match_all_body (Z.min n 100)
  else multi_match_body (query_of qp) (Z.min n 100).

Definition search_failed_reply (msg : string) : response :=
  ApiHandler.create_response 500 (JDict [("error", JStr ("Search failed: " +:+ msg))]).

(** the cache serves [results] under key [k]: a non-empty string that
    [json.loads] reads as [results] *)
Definition cache_serves (st : gmap string entry) (k : string) (results : json)
  : Prop :=
  exists s t, st !! k = Some (Entry (RString s) t) /\ s <> ""
              /\ json_loads s = Some results.


(** the world after [logger.info(msg)] *)
Definition noted (msg : string) (w : world) : world :=
  with_log (w_log w ++ [Log INFO_ msg]) w.

(** the part of the world that belongs to Redis and its client *)
Definition redis_side (w : world)
  : gmap string entry * list bool * option string * bool :=
  (w_redis w, w_redis_faults w, w_redis_conf w, self_redis_client w).

(** [untouched proj m]: a run of [m] leaves the part [proj] of the world
    as it was. *)
Definition untouched {X A : Type} (proj : world -> X) (m : M A) : Prop :=
  forall w r w', m w = (r, w') -> proj w' = proj w.

(** the one bulk request of a batch, absent when nothing was gathered *)
Definition bulk_call (k : entity) (kept : list (json * json)) : list call :=
  match kept with
  | [] => []
  | _ => [OsBulk (flat_map (enqueued k) kept)]
  end.

(** the reply of the metrics request for the statistics of the server and
    a number of keys *)
Definition metrics_reply (info : list (string * json)) (total_keys : Z)
    (now : string) : response :=
  ApiHandler.create_response 200
    (JDict [("redis",
             JDict [("connected_clients",
                     default (JInt 0) (dict_get "connected_clients" info));
                    ("used_memory",
                     default (JInt 0) (dict_get "used_memory" info));
                    ("used_memory_human",
                     default (JStr "0B") (dict_get "used_memory_human" info));
                    ("total_commands_processed",
                     default (JInt 0) (dict_get "total_commands_processed" info));
                    ("total_keys", JInt total_keys)]);
            ("timestamp", JStr now)]).

(** the reply of a user lookup that finds the user *)
Definition user_reply (user_id : string) (user_data session_data : list (string * string))
  : response :=
  ApiHandler.create_response 200
    (JDict [("user_id", JStr user_id);
            ("user_data", hash_json user_data);
            ("session_data", hash_json session_data)]).

(** the event types whose counters the analytics request reads *)
Definition reported_event_types : list string :=
  ["view"; "click"; "purchase"; "search"; "add_to_cart"].

(** the ten best members of the sorted set under [key], best first
    (nothing for a key that holds something else) *)
Definition top_ten (st : gmap string entry) (key : string)
  : option (list (string * Z)) :=
  match st !! key with
  | None => Some []
  | Some (Entry (RZSet z) _) => Some (firstn 10 (rev (zset_ascending z)))
  | Some _ => None
  end.

Definition analytics_reply (today : string) (popular_products popular_searches
    : list (string * Z)) (event_counts : list (string * Z)) : response :=
  ApiHandler.create_response 200
    (JDict [("date", JStr today);
            ("popular_products",
             JList (map (fun p => JDict [("product_id", JStr (fst p));
                                         ("score", score_json (snd p))])
                        popular_products));
            ("popular_searches",
             JList (map (fun s => JDict [("query", JStr (fst s));
                                         ("count", score_json (snd s))])
                        popular_searches));
            ("event_counts",
             JDict (map (fun kv => (fst kv, JInt (snd kv))) event_counts));
            ("total_events",
             JInt (fold_right Z.add 0 (map snd event_counts)))]).

(** the score of [member] in the sorted set under [key] ([0] for a
    member or a key that does not exist, nothing for a key that holds
    something else) *)
Definition score_read (st : gmap string entry) (key member : string) : option Z :=
  match st !! key with
  | None => Some 0
  | Some (Entry (RZSet z) _) => Some (default 0 (z !! member))
  | Some _ => None
  end.

(** the score of [member] under [key] has not gone down *)
Definition score_le (key member : string) : relation (gmap string entry) :=
  fun st st' =>
    forall v, score_read st key member = Some v ->
              exists v', score_read st' key member = Some v' /\ v <= v'.

End Vocabulary.

(** * Properties *)

(** ** Decimal strings *)

Lemma Z_of_str_of_Z (z : Z) : Z_of_str (str_of_Z z) = Some z.
Proof.
  unfold Z_of_str, str_of_Z.
  rewrite NilZero.isi.
  - rewrite DecimalZ.of_to, String.eqb_refl. reflexivity.
  - destruct z; simpl; try discriminate.
    intros E. injection E as E. revert E. apply DecimalPos.Unsigned.to_uint_nonnil.
  - destruct z; simpl; try discriminate.
    intros E. injection E as E. revert E. apply DecimalPos.Unsigned.to_uint_nonnil.
Qed.

(** ** Running monadic code *)

Section Running.
Context {A B : Type}.

Lemma bind_Ok (m : M A) (k : A -> M B) w b w' :
  bind m k w = (Ok b, w') ->
  exists a w1, m w = (Ok a, w1) /\ k a w1 = (Ok b, w').
Proof.
  unfold bind. destruct (m w) as [[a|e] w1]; intros E; [eauto | discriminate].
Qed.

Lemma bind_step (m : M A) (k : A -> M B) w a w1 :
  m w = (Ok a, w1) -> bind m k w = k a w1.
Proof. unfold bind. intros ->. reflexivity. Qed.

Lemma bind_raise (m : M A) (k : A -> M B) w e w1 :
  m w = (Raise e, w1) -> bind m k w = (Raise e, w1).
Proof. unfold bind. intros ->. reflexivity. Qed.

Lemma try_except_pass (m : M A) (h : exn -> M A) w a w1 :
  m w = (Ok a, w1) -> try_except m h w = (Ok a, w1).
Proof. unfold try_except. intros ->. reflexivity. Qed.

Lemma try_except_catch (m : M A) (h : exn -> M A) w e w1 :
  m w = (Raise e, w1) -> try_except m h w = h e w1.
Proof. unfold try_except. intros ->. reflexivity. Qed.

Lemma lift_Ok (o : outcome A) w a w' :
  lift o w = (Ok a, w') -> o = Ok a /\ w' = w.
Proof. unfold lift. intros E. injection E as -> ->. auto. Qed.

End Running.

Section Props.
Context `{Runtime}.

(** ** Client initialisation *)

Lemma get_opensearch_client_fresh w :
  self_opensearch_client w = false -> opensearch_configured w ->
  exists w', get_opensearch_client w = (Ok tt, w')
             /\ w_redis w' = w_redis w /\ w_redis_faults w' = w_redis_faults w
             /\ w_trace w' = w_trace w /\ w_redis_conf w' = w_redis_conf w
             /\ self_redis_client w' = self_redis_client w
             /\ w_os_plan w' = w_os_plan w /\ w_indices w' = w_indices w
             /\ w_now w' = w_now w /\ w_today w' = w_today w
             /\ self_opensearch_client w' = true.
Proof.
  intros Hs [ep Hc]. unfold get_opensearch_client. rewrite Hs, Hc.
  eexists. split; [reflexivity|]. cbn. repeat split; reflexivity.
Qed.

Lemma get_redis_client_fresh w :
  self_redis_client w = false -> redis_reachable w ->
  exists w', get_redis_client w = (Ok tt, w')
             /\ w_redis w' = w_redis w
             /\ w_redis_faults w' = tail (w_redis_faults w)
             /\ w_trace w' = (w_trace w ++ [Redis PING ""])%list
             /\ w_os_plan w' = w_os_plan w /\ w_indices w' = w_indices w
             /\ w_now w' = w_now w /\ w_today w' = w_today w
             /\ self_redis_client w' = true.
Proof.
  intros Hs [[ep Hc] Hf]. unfold get_redis_client. rewrite Hs, Hc.
  unfold try_except, bind, redis_ping, redis_call. cbn.
  destruct (w_redis_faults w) as [|[] fs] eqn:E; cbn in *; try congruence.
  - eexists. split; [reflexivity|]. cbn. repeat split; reflexivity.
  - eexists. split; [reflexivity|]. cbn. repeat split; reflexivity.
Qed.

(** Client initialisation never touches the clock. *)
Lemma get_opensearch_client_now w r w' :
  get_opensearch_client w = (r, w') -> w_now w' = w_now w.
Proof.
  unfold get_opensearch_client, try_except, bind, raise, logger, ret.
  destruct (self_opensearch_client w); [intros [= <- <-]; reflexivity|].
  destruct (w_os_conf w); cbn; intros [= <- <-]; reflexivity.
Qed.

Lemma get_redis_client_now w r w' :
  get_redis_client w = (r, w') -> w_now w' = w_now w.
Proof.
  unfold get_redis_client, try_except, bind, raise, logger, ret, redis_ping,
    redis_call.
  destruct (self_redis_client w); [intros [= <- <-]; reflexivity|].
  destruct (w_redis_conf w); cbn; [|intros [= <- <-]; reflexivity].
  destruct (w_redis_faults w) as [|[] fs]; cbn; intros [= <- <-]; reflexivity.
Qed.

(** ** Search with a size that is not an integer *)

Lemma handle_search_bad_size qp s w :
  dict_get "size" qp = Some s -> py_int s = None ->
  exists e w',
    ApiHandler.handle_search qp w = (Raise e, w')
    /\ w_now w' = w_now w
    /\ (self_opensearch_client w = false -> self_redis_client w = false ->
        opensearch_configured w -> redis_reachable w ->
        e = int_value_error s
        /\ w_trace w' = (w_trace w ++ [Redis PING ""])%list).
Proof.
  intros Hs Hi. unfold ApiHandler.handle_search.
  destruct (get_opensearch_client w) as [[[]|e1] w1] eqn:E1.
  - rewrite (bind_step _ _ _ _ _ E1).
    destruct (get_redis_client w1) as [[[]|e2] w2] eqn:E2.
    + rewrite (bind_step _ _ _ _ _ E2). rewrite Hs, Hi.
      exists (int_value_error s), w2. split; [reflexivity|].
      split.
      { rewrite (get_redis_client_now _ _ _ E2).
        apply (get_opensearch_client_now _ _ _ E1). }
      intros So Sr Co Cr.
      destruct (get_opensearch_client_fresh w So Co) as (w1' & R1 & F1).
      rewrite E1 in R1. injection R1 as <-.
      destruct F1 as (_ & Ff & Ft & Fc & Fs & _).
      assert (Cr1 : redis_reachable w1).
      { destruct Cr as [Cc Cf]. split; [rewrite Fc|rewrite Ff]; assumption. }
      rewrite <- Fs in Sr.
      destruct (get_redis_client_fresh w1 Sr Cr1) as (w2' & R2 & F2).
      rewrite E2 in R2. injection R2 as <-.
      destruct F2 as (_ & _ & Ft2 & _).
      split; [reflexivity|]. rewrite Ft2, Ft. reflexivity.
    + rewrite (bind_raise _ _ _ _ _ E2).
      exists e2, w2. split; [reflexivity|]. split.
      { rewrite (get_redis_client_now _ _ _ E2).
        apply (get_opensearch_client_now _ _ _ E1). }
      intros So Sr Co Cr.
      destruct (get_opensearch_client_fresh w So Co) as (w1' & R1 & F1).
      rewrite E1 in R1. injection R1 as <-.
      destruct F1 as (_ & Ff & Ft & Fc & Fs & _).
      assert (Cr1 : redis_reachable w1).
      { destruct Cr as [Cc Cf]. split; [rewrite Fc|rewrite Ff]; assumption. }
      rewrite <- Fs in Sr.
      destruct (get_redis_client_fresh w1 Sr Cr1) as (w2' & R2 & F2).
      rewrite E2 in R2. discriminate.
  - rewrite (bind_raise _ _ _ _ _ E1).
    exists e1, w1. split; [reflexivity|]. split.
    { apply (get_opensearch_client_now _ _ _ E1). }
    intros So Sr Co Cr.
    destruct (get_opensearch_client_fresh w So Co) as (w1' & R1 & F1).
    rewrite E1 in R1. discriminate.
Qed.

(** C10: a search request whose [size] is present and is not an integer
    is answered with status 500 by the handler of last resort of
    [lambda_handler] (the body carries [error] and [timestamp]), never
    with a 400; when both clients initialise, the error is the one raised
    by [int], and the connection ping is the only store call made. *)
Theorem search_size_not_an_integer (method : option string)
    (qp : list (string * string)) (s : string) (w : world) :
  default "GET" method = "GET" ->
  dict_get "size" qp = Some s ->
  py_int s = None ->
  exists e w',
    ApiHandler.lambda_handler (ApiEvent method (Some "/search") (Some qp)) w
    = (Ok (ApiHandler.create_response 500
             (JDict [("error", JStr (exn_str e));
                     ("timestamp", JStr (w_now w))])), w')
    /\ (opensearch_configured w -> redis_reachable w ->
        e = int_value_error s
        /\ w_trace w' = (w_trace w ++ [Redis PING ""])%list).
Proof.
  intros Hm Hs Hi.
  unfold ApiHandler.lambda_handler.
  cbn -[ApiHandler.handle_search ApiHandler.create_response].
  rewrite Hm. cbn -[ApiHandler.handle_search ApiHandler.create_response].
  set (w0 := with_clients false false (with_log _ w)).
  destruct (handle_search_bad_size qp s w0 Hs Hi) as (e & w1 & R & Hnow & Hgood).
  unfold bind at 1. unfold logger at 1.
  unfold bind at 1. fold w0.
  rewrite (try_except_catch _ _ _ _ _ R).
  exists e. eexists. split.
  - cbn -[ApiHandler.create_response]. rewrite Hnow. reflexivity.
  - intros Co Cr. cbn. apply Hgood; auto.
Qed.

(** ** Validation errors of the lookups *)

Lemma get_redis_client_unreachable w :
  self_redis_client w = false -> ~ redis_reachable w ->
  exists e w', get_redis_client w = (Raise e, w') /\ w_now w' = w_now w.
Proof.
  intros Hs Hn. unfold get_redis_client. rewrite Hs.
  unfold try_except, bind, raise, logger, redis_ping, redis_call.
  destruct (w_redis_conf w) as [ep|] eqn:Hc; cbn.
  - destruct (w_redis_faults w) as [|[] fs] eqn:Hf; cbn.
    + exfalso. apply Hn. split; [rewrite Hc; eauto | rewrite Hf; discriminate].
    + eauto.
    + exfalso. apply Hn. split; [rewrite Hc; eauto | rewrite Hf; discriminate].
  - eauto.
Qed.

Lemma redis_reachable_dec w : redis_reachable w \/ ~ redis_reachable w.
Proof.
  unfold redis_reachable.
  destruct (w_redis_conf w) as [ep|].
  - destruct (w_redis_faults w) as [|[] fs]; cbn.
    + left. split; [eauto | discriminate].
    + right. intros [_ N]. apply N. reflexivity.
    + left. split; [eauto | discriminate].
  - right. intros [[x N] _]. discriminate.
Qed.

Lemma lambda_handler_cache method qp w :
  default "GET" method = "GET" ->
  forall r w1,
    ApiHandler.handle_cache_lookup qp (api_entry (ApiEvent method (Some "/cache") (Some qp)) w)
    = (r, w1) ->
    exists w',
      ApiHandler.lambda_handler (ApiEvent method (Some "/cache") (Some qp)) w
      = (Ok (match r with Ok resp => resp | Raise e => last_resort_reply e w1 end), w')
      /\ w_trace w' = w_trace w1.
Proof.
  intros Hm r w1 R.
  unfold ApiHandler.lambda_handler.
  cbn -[ApiHandler.handle_cache_lookup ApiHandler.create_response].
  rewrite Hm. cbn -[ApiHandler.handle_cache_lookup ApiHandler.create_response].
  unfold bind at 1. unfold logger at 1. unfold bind at 1.
  change (with_clients false false _) with
    (api_entry (ApiEvent method (Some "/cache") (Some qp)) w).
  destruct r as [resp|e].
  - rewrite (try_except_pass _ _ _ _ _ R). eauto.
  - rewrite (try_except_catch _ _ _ _ _ R).
    eexists. split; reflexivity.
Qed.

Lemma lambda_handler_user method qp w :
  default "GET" method = "GET" ->
  forall r w1,
    ApiHandler.handle_user_lookup qp (api_entry (ApiEvent method (Some "/user") (Some qp)) w)
    = (r, w1) ->
    exists w',
      ApiHandler.lambda_handler (ApiEvent method (Some "/user") (Some qp)) w
      = (Ok (match r with Ok resp => resp | Raise e => last_resort_reply e w1 end), w')
      /\ w_trace w' = w_trace w1.
Proof.
  intros Hm r w1 R.
  unfold ApiHandler.lambda_handler.
  cbn -[ApiHandler.handle_user_lookup ApiHandler.create_response].
  rewrite Hm. cbn -[ApiHandler.handle_user_lookup ApiHandler.create_response].
  unfold bind at 1. unfold logger at 1. unfold bind at 1.
  change (with_clients false false _) with
    (api_entry (ApiEvent method (Some "/user") (Some qp)) w).
  destruct r as [resp|e].
  - rewrite (try_except_pass _ _ _ _ _ R). eauto.
  - rewrite (try_except_catch _ _ _ _ _ R).
    eexists. split; reflexivity.
Qed.

(** C6, as the code has it: a cache lookup without [key] and [pattern],
    and a user lookup without [user_id], are answered with the 400
    validation error exactly when the Redis client initialises, and the
    connection ping of that initialisation is the one store call made
    before the check; when the client cannot be initialised the request
    ends in the 500 of [lambda_handler]. *)
Theorem validation_follows_client_init (method : option string)
    (qc qu : list (string * string)) (w : world) :
  default "GET" method = "GET" ->
  opt_truthy (dict_get "key" qc) = false ->
  opt_truthy (dict_get "pattern" qc) = false ->
  opt_truthy (dict_get "user_id" qu) = false ->
  validation_outcome (ApiEvent method (Some "/cache") (Some qc))
    "Either key or pattern parameter is required" w
  /\ validation_outcome (ApiEvent method (Some "/user") (Some qu))
       "user_id parameter is required" w.
Proof.
  intros Hm Hk Hp Hu. unfold validation_outcome.
  destruct (redis_reachable_dec w) as [Hr|Hr]; split.
  - set (w0 := api_entry (ApiEvent method (Some "/cache") (Some qc)) w).
    destruct (get_redis_client_fresh w0 eq_refl Hr) as (w1 & R & _ & _ & Ft & _).
    assert (E : ApiHandler.handle_cache_lookup qc w0
                = (Ok (bad_request_reply "Either key or pattern parameter is required"), w1)).
    { unfold ApiHandler.handle_cache_lookup.
      rewrite (bind_step _ _ _ _ _ R), Hk, Hp. reflexivity. }
    destruct (lambda_handler_cache method qc w Hm _ _ E) as (w' & L & T).
    eexists _, w'. split; [exact L|]. left. split; [exact Hr|].
    split; [reflexivity|]. rewrite T, Ft. reflexivity.
  - set (w0 := api_entry (ApiEvent method (Some "/user") (Some qu)) w).
    destruct (get_redis_client_fresh w0 eq_refl Hr) as (w1 & R & _ & _ & Ft & _).
    assert (E : ApiHandler.handle_user_lookup qu w0
                = (Ok (bad_request_reply "user_id parameter is required"), w1)).
    { unfold ApiHandler.handle_user_lookup.
      rewrite (bind_step _ _ _ _ _ R), Hu. reflexivity. }
    destruct (lambda_handler_user method qu w Hm _ _ E) as (w' & L & T).
    eexists _, w'. split; [exact L|]. left. split; [exact Hr|].
    split; [reflexivity|]. rewrite T, Ft. reflexivity.
  - set (w0 := api_entry (ApiEvent method (Some "/cache") (Some qc)) w).
    destruct (get_redis_client_unreachable w0 eq_refl Hr) as (e & w1 & R & N).
    assert (E : ApiHandler.handle_cache_lookup qc w0 = (Raise e, w1)).
    { unfold ApiHandler.handle_cache_lookup.
      rewrite (bind_raise _ _ _ _ _ R). reflexivity. }
    destruct (lambda_handler_cache method qc w Hm _ _ E) as (w' & L & T).
    exists (last_resort_reply e w1), w'. split; [exact L|]. right.
    split; [exact Hr|]. exists e, w1. split; [reflexivity|exact N].
  - set (w0 := api_entry (ApiEvent method (Some "/user") (Some qu)) w).
    destruct (get_redis_client_unreachable w0 eq_refl Hr) as (e & w1 & R & N).
    assert (E : ApiHandler.handle_user_lookup qu w0 = (Raise e, w1)).
    { unfold ApiHandler.handle_user_lookup.
      rewrite (bind_raise _ _ _ _ _ R). reflexivity. }
    destruct (lambda_handler_user method qu w Hm _ _ E) as (w' & L & T).
    exists (last_resort_reply e w1), w'. split; [exact L|]. right.
    split; [exact Hr|]. exists e, w1. split; [reflexivity|exact N].
Qed.

(** ** Index creation *)

Lemma os_indices_exists_Ok index w b w' :
  os_indices_exists index w = (Ok b, w') ->
  b = bool_decide (index ∈ w_indices w') /\ w_indices w ⊆ w_indices w'.
Proof.
  unfold os_indices_exists, os_request.
  destruct (w_os_plan w) as [|[body|m|other] rest]; cbn; intros [= <- <-]; cbn;
    split; try reflexivity; set_solver.
Qed.

Lemma os_indices_create_Ok index w w' :
  os_indices_create index w = (Ok tt, w') ->
  index ∈ w_indices w' /\ w_indices w ⊆ w_indices w'.
Proof.
  unfold os_indices_create, os_request.
  destruct (w_os_plan w) as [|[body|m|other] rest]; cbn;
    try case_bool_decide; cbn; intros [= <-]; cbn; set_solver.
Qed.

Lemma logger_indices l msg w r w' :
  logger l msg w = (r, w') -> r = Ok tt /\ w_indices w' = w_indices w.
Proof. unfold logger. intros [= <- <-]. auto. Qed.

Lemma create_indices_loop_Ok indices w w' :
  DataProcessor.create_indices_loop indices w = (Ok tt, w') ->
  w_indices w ⊆ w_indices w' /\ forall index, In index indices -> index ∈ w_indices w'.
Proof.
  revert w. induction indices as [|index rest IH]; intros w.
  - cbn. intros [= <-]. split; [set_solver | intros ? []].
  - cbn [DataProcessor.create_indices_loop]. intros E.
    apply bind_Ok in E as ([] & w1 & E1 & E2).
    apply IH in E2 as [Mono Rest].
    assert (Step : w_indices w ⊆ w_indices w1 /\ index ∈ w_indices w1).
    { unfold try_except in E1.
      destruct (bind (os_indices_exists index) _ w) as [[[]|e] w2] eqn:E3.
      - injection E1 as <-.
        apply bind_Ok in E3 as (present & w3 & X & Y).
        apply os_indices_exists_Ok in X as [-> Sub].
        case_bool_decide as Hin; cbn in Y.
        + apply logger_indices in Y as [_ Eq]. rewrite Eq. split; assumption.
        + apply bind_Ok in Y as ([] & w4 & C & L).
          apply os_indices_create_Ok in C as [In4 Sub4].
          apply logger_indices in L as [_ Eq]. rewrite Eq.
          split; [etransitivity; eassumption | assumption].
      - unfold bind, logger, raise in E1. discriminate. }
    destruct Step as [S1 S2]. split; [etransitivity; eassumption|].
    intros i [<-|Hi]; [apply Mono, S2 | apply Rest, Hi].
Qed.

Lemma exists_when_present index w :
  index ∈ w_indices w -> forallb answers (firstn 1 (w_os_plan w)) = true ->
  exists w', os_indices_exists index w = (Ok true, w')
             /\ w_trace w' = (w_trace w ++ [OsExists index])%list
             /\ w_indices w ⊆ w_indices w'
             /\ w_os_plan w' = tail (w_os_plan w).
Proof.
  intros Hin Hup. unfold os_indices_exists, os_request.
  destruct (w_os_plan w) as [|[body|m|other] rest] eqn:P; cbn in *;
    try discriminate.
  - rewrite bool_decide_eq_true_2 by assumption.
    eexists. split; [reflexivity|]. cbn. repeat split; try reflexivity; try assumption; set_solver.
  - rewrite bool_decide_eq_true_2 by assumption.
    eexists. split; [reflexivity|]. cbn. repeat split; try reflexivity; try assumption; set_solver.
  - rewrite bool_decide_eq_true_2 by set_solver.
    eexists. split; [reflexivity|]. cbn. repeat split; try reflexivity; try assumption; set_solver.
Qed.


Lemma create_indices_loop_present indices w :
  (forall index, In index indices -> index ∈ w_indices w) ->
  forallb answers (firstn (length indices) (w_os_plan w)) = true ->
  exists w', DataProcessor.create_indices_loop indices w = (Ok tt, w')
             /\ w_trace w' = (w_trace w ++ map OsExists indices)%list
             /\ w_indices w ⊆ w_indices w'.
Proof.
  revert w. induction indices as [|index rest IH]; intros w Hall Hup.
  - exists w. cbn. rewrite app_nil_r. repeat split; reflexivity.
  - destruct (exists_when_present index w) as (w1 & E1 & T1 & S1 & P1).
    { apply Hall. left. reflexivity. }
    { destruct (w_os_plan w) as [|a l]; cbn in *; [reflexivity|].
      apply andb_prop in Hup as [-> _]. reflexivity. }
    set (w2 := with_log (w_log w1 ++ [Log INFO_ ("OpenSearch index already exists: "
                                                  +:+ index)]) w1).
    destruct (IH w2) as (w' & E & T & S).
    { intros i Hi. apply S1, Hall. right. exact Hi. }
    { cbn. rewrite P1. destruct (w_os_plan w) as [|a l]; cbn in *.
      - destruct (length rest); reflexivity.
      - apply andb_prop in Hup as [_ Hb]. exact Hb. }
    exists w'. split.
    + cbn [DataProcessor.create_indices_loop].
      unfold try_except, bind at 1 2. rewrite E1. cbn. exact E.
    + split; [|etransitivity; eassumption].
      rewrite T. cbn. rewrite T1, <- app_assoc. reflexivity.
Qed.

(** ** What a run leaves unchanged *)

Section Keeps.
Context (V : relation (gmap string entry)) `{!PreOrder V}.

Local Ltac kept :=
  repeat split; first [reflexivity | eassumption | congruence | eauto].

Lemma keeps_ret {A : Type} (a : A) : keeps V (ret a).
Proof. intros w r w' [= <- <-]. kept. Qed.

Lemma keeps_raise {A : Type} (e : exn) : keeps V (@raise A e).
Proof. intros w r w' [= <- <-]. kept. Qed.

Lemma keeps_lift {A : Type} (o : outcome A) : keeps V (lift o).
Proof. intros w r w' [= <- <-]. kept. Qed.

Lemma keeps_logger l msg : keeps V (logger l msg).
Proof. intros w r w' [= <- <-]. cbn. kept. Qed.

Lemma keeps_utc_today : keeps V utc_today.
Proof. intros w r w' [= <- <-]. kept. Qed.

Lemma keeps_utc_now : keeps V utc_now.
Proof. intros w r w' [= <- <-]. kept. Qed.

Lemma keeps_with_clients a b : keeps V (fun w => (Ok tt, with_clients a b w)).
Proof. intros w r w' [= <- <-]. cbn. kept. Qed.

Lemma keeps_bind {A B : Type} (m : M A) (k : A -> M B) :
  keeps V m -> (forall a, keeps V (k a)) -> keeps V (bind m k).
Proof.
  intros Hm Hk w r w'. unfold bind.
  destruct (m w) as [[a|e] w1] eqn:E;
    destruct (Hm _ _ _ E) as (V1 & N1 & T1 & C1 & O1).
  - intros E2. destruct (Hk a _ _ _ E2) as (V2 & N2 & T2 & C2 & O2).
    split; [etransitivity; eassumption|]. repeat split; congruence.
  - intros [= <- <-]. kept.
Qed.

Lemma keeps_try_except {A : Type} (m : M A) (h : exn -> M A) :
  keeps V m -> (forall e, keeps V (h e)) -> keeps V (try_except m h).
Proof.
  intros Hm Hh w r w'. unfold try_except.
  destruct (m w) as [[a|e] w1] eqn:E;
    destruct (Hm _ _ _ E) as (V1 & N1 & T1 & C1 & O1).
  - intros [= <- <-]. kept.
  - intros E2. destruct (Hh e _ _ _ E2) as (V2 & N2 & T2 & C2 & O2).
    split; [etransitivity; eassumption|]. repeat split; congruence.
Qed.

Lemma keeps_redis_call {A : Type} c arg
    (f : gmap string entry -> outcome A * gmap string entry) :
  (forall st r st', f st = (r, st') -> V st st') -> keeps V (redis_call c arg f).
Proof.
  intros Hf w r w'. unfold redis_call.
  destruct (w_redis_faults w) as [|[] fs].
  - destruct (f (w_redis w)) as [r0 st] eqn:E. intros [= <- <-]. cbn. kept.
  - intros [= <- <-]. cbn. kept.
  - destruct (f (w_redis w)) as [r0 st] eqn:E. intros [= <- <-]. cbn. kept.
Qed.

Lemma keeps_redis_on {A : Type} c k (f : option entry -> outcome A * option entry) :
  (forall st r e', f (st !! k) = (r, e') -> V st (partial_alter (fun _ => e') k st)) ->
  keeps V (redis_on c k f).
Proof.
  intros Hf. apply keeps_redis_call. intros st r st'.
  destruct (f (st !! k)) as [r0 e'] eqn:E. intros [= <- <-]. eauto.
Qed.

Lemma keeps_os_request {A : Type} c
    (f : json -> gset string -> outcome A * gset string) :
  keeps V (os_request c f).
Proof.
  intros w r w'. unfold os_request.
  destruct (w_os_plan w) as [|[body|m|index] rest].
  - destruct (f _ _). intros [= <- <-]. cbn. kept.
  - destruct (f _ _). intros [= <- <-]. cbn. kept.
  - intros [= <- <-]. cbn. kept.
  - destruct (f _ _). intros [= <- <-]. cbn. kept.
Qed.

Lemma keeps_redis_ping : keeps V redis_ping.
Proof. apply keeps_redis_call. intros st r st' [= <- <-]. kept. Qed.

Lemma keeps_get_opensearch_client : keeps V get_opensearch_client.
Proof.
  intros w r w'. unfold get_opensearch_client, try_except, bind, raise, logger.
  destruct (self_opensearch_client w); [intros [= <- <-]; kept|].
  destruct (w_os_conf w) eqn:C; cbn; intros [= <- <-]; cbn; kept.
Qed.

Lemma keeps_get_redis_client : keeps V get_redis_client.
Proof.
  intros w r w'.
  unfold get_redis_client, try_except, bind, raise, logger, redis_ping, redis_call.
  destruct (self_redis_client w); [intros [= <- <-]; kept|].
  destruct (w_redis_conf w) eqn:C; cbn; [|intros [= <- <-]; cbn; kept].
  destruct (w_redis_faults w) as [|[] fs]; cbn; intros [= <- <-]; cbn; kept.
Qed.

End Keeps.

#[local] Instance anything_preorder : PreOrder anything.
Proof. split; intros ?; intros; exact I. Qed.

Ltac keeps_apply L :=
  apply L; lazymatch goal with |- PreOrder _ => exact _ | |- _ => idtac end.

Ltac keeps_step :=
  first
    [ keeps_apply @keeps_ret | keeps_apply @keeps_raise | keeps_apply @keeps_lift
    | keeps_apply keeps_logger | keeps_apply keeps_utc_today
    | keeps_apply keeps_utc_now | keeps_apply keeps_with_clients
    | keeps_apply @keeps_os_request
    | keeps_apply keeps_get_opensearch_client
    | keeps_apply keeps_get_redis_client | keeps_apply keeps_redis_ping
    | keeps_apply @keeps_bind; [|intros ?]
    | keeps_apply @keeps_try_except; [|intros ?]
    | match goal with
      | |- keeps _ (if ?b then _ else _) => destruct b
      | |- keeps _ (match ?x with _ => _ end) => destruct x
      end ].

Ltac steady :=
  repeat first [ keeps_step | keeps_apply @keeps_redis_call; intros; exact I ].

Lemma steady_cache_user_data event : keeps anything (DataProcessor.cache_user_data event).
Proof.
  unfold DataProcessor.cache_user_data, redis_hset, redis_expire, redis_incr,
    redis_zincrby, redis_on.
  steady.
Qed.

Lemma steady_cache_product_data product :
  keeps anything (DataProcessor.cache_product_data product).
Proof.
  unfold DataProcessor.cache_product_data, redis_hset, redis_expire, redis_sadd,
    redis_set_ex, redis_on.
  steady.
Qed.

Lemma steady_user_events_loop events n acts :
  keeps anything (DataProcessor.user_events_loop events n acts).
Proof.
  revert n acts. induction events as [|event rest IH]; intros n acts;
    cbn [DataProcessor.user_events_loop].
  - steady.
  - repeat first [apply steady_cache_user_data | apply IH | keeps_step].
Qed.

Lemma steady_products_loop products n acts :
  keeps anything (DataProcessor.products_loop products n acts).
Proof.
  revert n acts. induction products as [|product rest IH]; intros n acts;
    cbn [DataProcessor.products_loop].
  - steady.
  - repeat first [apply steady_cache_product_data | apply IH | keeps_step].
Qed.

Lemma steady_bulk_insert_events acts :
  keeps anything (DataProcessor.bulk_insert_events acts).
Proof. unfold DataProcessor.bulk_insert_events, os_bulk. steady. Qed.

Lemma steady_bulk_insert_products acts :
  keeps anything (DataProcessor.bulk_insert_products acts).
Proof. unfold DataProcessor.bulk_insert_products, os_bulk. steady. Qed.

Lemma steady_process_user_events events :
  keeps anything (DataProcessor.process_user_events events).
Proof.
  unfold DataProcessor.process_user_events.
  repeat first [apply steady_user_events_loop | apply steady_bulk_insert_events
               | keeps_step].
Qed.

Lemma steady_process_products products :
  keeps anything (DataProcessor.process_products products).
Proof.
  unfold DataProcessor.process_products.
  repeat first [apply steady_products_loop | apply steady_bulk_insert_products
               | keeps_step].
Qed.

Lemma steady_process_data_batch data :
  keeps anything (DataProcessor.process_data_batch data).
Proof.
  unfold DataProcessor.process_data_batch.
  repeat first [apply steady_process_user_events | apply steady_process_products
               | keeps_step].
Qed.

Lemma steady_create_opensearch_indices :
  keeps anything DataProcessor.create_opensearch_indices.
Proof.
  unfold DataProcessor.create_opensearch_indices.
  keeps_step; [keeps_step|].
  generalize DataProcessor.known_indices. intros l.
  induction l as [|index rest IH]; cbn [DataProcessor.create_indices_loop].
  - steady.
  - unfold os_indices_exists, os_indices_create.
    repeat first [apply IH | keeps_step].
Qed.

(** ** Index creation, run by run *)

Lemma os_indices_exists_run index w r w' :
  os_indices_exists index w = (r, w') ->
  w_trace w' = (w_trace w ++ [OsExists index])%list
  /\ w_indices w ⊆ w_indices w'
  /\ (r = Ok false -> index ∉ w_indices w).
Proof.
  unfold os_indices_exists, os_request.
  destruct (w_os_plan w) as [|[body|m|other] rest]; cbn; intros E;
    injection E as <- <-; cbn;
    (split; [reflexivity|]); (split; [set_solver|]);
    intros E; try discriminate; injection E as E;
    apply bool_decide_eq_false in E; set_solver.
Qed.

Lemma os_indices_create_run index w r w' :
  os_indices_create index w = (r, w') ->
  w_trace w' = (w_trace w ++ [OsCreate index])%list
  /\ w_indices w ⊆ w_indices w'.
Proof.
  unfold os_indices_create, os_request.
  destruct (w_os_plan w) as [|[body|m|other] rest]; cbn;
    try destruct (bool_decide _); cbn; intros E; injection E as <- <-; cbn;
    (split; [reflexivity | set_solver]).
Qed.

(** One turn of the index loop, whatever its outcome. *)
Lemma index_turn_calls index w0 w r w' :
  w_indices w0 ⊆ w_indices w ->
  try_except
    (present <- os_indices_exists index ;;
     if negb present then
       os_indices_create index ;;
       logger INFO_ ("Created OpenSearch index: " +:+ index)
     else
       logger INFO_ ("OpenSearch index already exists: " +:+ index))
    (fun e =>
       logger ERROR ("Error creating index " +:+ index +:+ ": " +:+ exn_str e) ;;
       raise e) w = (r, w') ->
  exists requests,
    w_trace w' = (w_trace w ++ requests)%list
    /\ index_requests w0 index requests
    /\ w_indices w0 ⊆ w_indices w'.
Proof.
  intros Sub. unfold try_except, bind at 1.
  destruct (os_indices_exists index w) as [[present|e] w1] eqn:E1;
    destruct (os_indices_exists_run _ _ _ _ E1) as (T1 & S1 & A1).
  - destruct present; cbn [negb].
    + unfold logger. intros [= <- <-]. exists [OsExists index]. cbn.
      split; [exact T1|]. split; [left; reflexivity | set_solver].
    + unfold bind at 1.
      destruct (os_indices_create index w1) as [[[]|e] w2] eqn:E2;
        destruct (os_indices_create_run _ _ _ _ E2) as (T2 & S2);
        unfold logger, bind, raise; intros [= <- <-];
        exists [OsExists index; OsCreate index]; cbn;
        (split; [rewrite T2, T1, <- app_assoc; reflexivity|]);
        (split; [right; split; [reflexivity | specialize (A1 eq_refl); set_solver]
                | set_solver]).
  - unfold logger, bind, raise. intros [= <- <-]. exists [OsExists index]. cbn.
    split; [exact T1|]. split; [left; reflexivity | set_solver].
Qed.

Lemma create_indices_loop_calls indices w0 w r w' :
  w_indices w0 ⊆ w_indices w ->
  DataProcessor.create_indices_loop indices w = (r, w') ->
  exists turns,
    w_trace w' = (w_trace w ++ concat turns)%list
    /\ Forall2 (index_requests w0) (take (length turns) indices) turns.
Proof.
  revert w. induction indices as [|index rest IH]; intros w Sub.
  - cbn. intros [= <- <-]. exists []. cbn. rewrite app_nil_r. split; constructor.
  - cbn [DataProcessor.create_indices_loop]. unfold bind at 1.
    destruct (try_except _ _ w) as [[[]|e] w1] eqn:E1;
      destruct (index_turn_calls index w0 w _ _ Sub E1) as (requests & T1 & Q1 & S1).
    + intros E2. destruct (IH w1 S1 E2) as (turns & T2 & Q2).
      exists (requests :: turns). cbn. split.
      * rewrite T2, T1, <- app_assoc. reflexivity.
      * constructor; assumption.
    + intros [= <- <-]. exists [requests]. cbn. rewrite app_nil_r.
      split; [exact T1|]. constructor; [exact Q1 | ].
      rewrite take_0. constructor.
Qed.

Lemma get_opensearch_client_calls w r w' :
  get_opensearch_client w = (r, w') ->
  w_trace w' = w_trace w /\ w_indices w' = w_indices w.
Proof.
  unfold get_opensearch_client, try_except, bind, raise, logger.
  destruct (self_opensearch_client w); [intros [= <- <-]; auto|].
  destruct (w_os_conf w); cbn; intros [= <- <-]; auto.
Qed.

Lemma create_opensearch_indices_calls w r w' :
  DataProcessor.create_opensearch_indices w = (r, w') ->
  exists turns,
    w_trace w' = (w_trace w ++ concat turns)%list
    /\ Forall2 (index_requests w)
         (take (length turns) DataProcessor.known_indices) turns.
Proof.
  unfold DataProcessor.create_opensearch_indices, bind.
  destruct (get_opensearch_client w) as [[[]|e] w0] eqn:E0;
    destruct (get_opensearch_client_calls _ _ _ E0) as (T0 & I0).
  - intros E. destruct (create_indices_loop_calls _ w w0 _ _ ltac:(rewrite I0; reflexivity) E)
      as (turns & T & Q).
    exists turns. rewrite T, T0. auto.
  - intros [= <- <-]. exists []. cbn. rewrite app_nil_r. split; [exact T0 | constructor].
Qed.

Lemma get_opensearch_client_available w :
  self_opensearch_client w = true \/ opensearch_configured w ->
  exists w', get_opensearch_client w = (Ok tt, w')
             /\ w_trace w' = w_trace w /\ w_indices w' = w_indices w
             /\ w_os_plan w' = w_os_plan w.
Proof.
  intros Av. unfold get_opensearch_client.
  destruct (self_opensearch_client w) eqn:S; [eauto|].
  destruct Av as [?|[ep C]]; [discriminate|]. rewrite C. cbn. eauto.
Qed.

Lemma create_when_available w :
  self_opensearch_client w = true \/ opensearch_configured w ->
  (forall index, In index DataProcessor.known_indices -> index ∈ w_indices w) ->
  forallb answers (firstn 2 (w_os_plan w)) = true ->
  exists w', DataProcessor.create_opensearch_indices w = (Ok tt, w')
             /\ w_trace w' = (w_trace w ++ [OsExists "user-events";
                                           OsExists "product-catalog"])%list
             /\ w_indices w ⊆ w_indices w'.
Proof.
  intros Av Hall Hup. unfold DataProcessor.create_opensearch_indices.
  destruct (get_opensearch_client_available w Av) as (w0 & E0 & T0 & I0 & P0).
  rewrite (bind_step _ _ _ _ _ E0). rewrite <- T0, <- I0.
  apply create_indices_loop_present; [rewrite I0; exact Hall | rewrite P0; exact Hup].
Qed.

Lemma create_indices_loop_app pre post w :
  DataProcessor.create_indices_loop (pre ++ post) w
  = bind (DataProcessor.create_indices_loop pre)
         (fun _ => DataProcessor.create_indices_loop post) w.
Proof.
  revert w. induction pre as [|first pre IH]; intros w.
  - reflexivity.
  - cbn [app DataProcessor.create_indices_loop]. unfold bind in *.
    destruct (try_except _ _ w) as [[[]|e] w1]; [apply IH | reflexivity].
Qed.

(** A turn whose check reports the index present makes no other request:
    the loop goes on with the next index from the world the check left. *)
Lemma create_opensearch_indices_found pre index post w w0 w1 w2 :
  DataProcessor.known_indices = (pre ++ index :: post)%list ->
  get_opensearch_client w = (Ok tt, w0) ->
  DataProcessor.create_indices_loop pre w0 = (Ok tt, w1) ->
  os_indices_exists index w1 = (Ok true, w2) ->
  DataProcessor.create_opensearch_indices w
  = DataProcessor.create_indices_loop post
      (with_log (w_log w2 ++ [index_found index]) w2).
Proof.
  intros K E0 Pre Found. unfold DataProcessor.create_opensearch_indices.
  rewrite (bind_step _ _ _ _ _ E0), K.
  rewrite create_indices_loop_app, (bind_step _ _ _ _ _ Pre).
  cbn [DataProcessor.create_indices_loop].
  unfold bind at 1, try_except, bind at 1. rewrite Found. reflexivity.
Qed.

(** A turn of the loop that fails is logged and ends the loop there. *)
Lemma create_indices_loop_fails pre index post w w1 e w2 :
  DataProcessor.create_indices_loop pre w = (Ok tt, w1) ->
  index_request_fails index w1 e w2 ->
  DataProcessor.create_indices_loop (pre ++ index :: post) w
  = (Raise e, with_log (w_log w2 ++ [index_error index e]) w2).
Proof.
  revert w. induction pre as [|first pre IH]; intros w.
  - cbn [app DataProcessor.create_indices_loop]. unfold ret. intros [= <-] Fails.
    unfold bind at 1, try_except, bind at 1.
    destruct Fails as [E1|(w1' & E1 & E2)]; rewrite E1.
    + reflexivity.
    + cbn [negb]. unfold bind at 1. rewrite E2. reflexivity.
  - cbn [app DataProcessor.create_indices_loop]. intros E Fails.
    apply bind_Ok in E as ([] & w0 & E0 & E).
    rewrite (bind_step _ _ _ _ _ E0). apply IH; assumption.
Qed.

Lemma create_opensearch_indices_fails pre index post w w0 w1 e w2 :
  DataProcessor.known_indices = (pre ++ index :: post)%list ->
  get_opensearch_client w = (Ok tt, w0) ->
  DataProcessor.create_indices_loop pre w0 = (Ok tt, w1) ->
  index_request_fails index w1 e w2 ->
  DataProcessor.create_opensearch_indices w
  = (Raise e, with_log (w_log w2 ++ [index_error index e]) w2).
Proof.
  intros K E0 E1 Fails. unfold DataProcessor.create_opensearch_indices.
  rewrite (bind_step _ _ _ _ _ E0), K.
  apply create_indices_loop_fails with (w1 := w1); assumption.
Qed.

(** A create request served after another client has created the index
    is refused as a duplicate. *)
Lemma create_after_race index w rest :
  w_os_plan w = OsRace index :: rest ->
  exists w',
    os_indices_create index w
    = (Raise (TransportError "resource_already_exists_exception"), w')
    /\ index ∈ w_indices w'.
Proof.
  intros P. unfold os_indices_create, os_request. rewrite P.
  rewrite bool_decide_eq_true_2 by set_solver.
  eexists. split; [reflexivity|]. cbn. set_solver.
Qed.

Lemma fatal_error_logged event w e w1 :
  DataProcessor.create_opensearch_indices (processor_entry w) = (Raise e, w1) ->
  exists w',
    DataProcessor.lambda_handler event w = (Ok (fatal_reply e w), w')
    /\ w_trace w' = w_trace w1 /\ w_indices w' = w_indices w1
    /\ forall x, In x (w_log w1) -> In x (w_log w').
Proof.
  intros E.
  assert (N : w_now w1 = w_now w).
  { apply steady_create_opensearch_indices in E as (_ & N & _). exact N. }
  unfold DataProcessor.lambda_handler.
  unfold bind at 1. unfold logger at 1. unfold bind at 1.
  change (with_clients false false _) with (processor_entry w).
  erewrite try_except_catch; [|apply bind_raise; exact E].
  unfold bind, logger, utc_now, ret. cbn. eexists. split.
  - unfold fatal_reply. rewrite N. reflexivity.
  - cbn. repeat split. intros x Hx. apply in_or_app. left. exact Hx.
Qed.

(** C8, as the code has it: whatever the world a run of the index step
    starts in and however it ends, it goes through the known indices in
    order and makes the existence check of each; a create request is sent
    only directly after the existence check of its index, never for an
    index that existed when the run started, and not when the check
    reports the index present (the run then goes on with the next index
    from the world the check left); a run that succeeds leaves every known
    index in existence; a run that finds them all present, with a client
    it kept or a fresh one, only checks them.  No error is tolerated:
    whenever the existence check of an index raises, or the check reports
    the index absent and the create request raises, as it does with the
    duplicate-create error of a creation race, the error is logged and
    re-raised, the indices after it are not looked at, and the invocation
    ends with status 500; so it does when another client creates the
    index between the check and the create request, although the index
    exists by then. *)
Theorem create_indices_repeatable_not_race_tolerant (w : world) :
  (forall w', DataProcessor.create_opensearch_indices w = (Ok tt, w') ->
              forall index, In index DataProcessor.known_indices ->
                            index ∈ w_indices w')
  /\ (forall r w', DataProcessor.create_opensearch_indices w = (r, w') ->
        exists turns,
          w_trace w' = (w_trace w ++ concat turns)%list
          /\ Forall2 (index_requests w)
               (take (length turns) DataProcessor.known_indices) turns)
  /\ (forall pre index post w0 w1 w2,
        DataProcessor.known_indices = (pre ++ index :: post)%list ->
        get_opensearch_client w = (Ok tt, w0) ->
        DataProcessor.create_indices_loop pre w0 = (Ok tt, w1) ->
        os_indices_exists index w1 = (Ok true, w2) ->
        DataProcessor.create_opensearch_indices w
        = DataProcessor.create_indices_loop post
            (with_log (w_log w2 ++ [index_found index]) w2))
  /\ (self_opensearch_client w = true \/ opensearch_configured w ->
      (forall index, In index DataProcessor.known_indices -> index ∈ w_indices w) ->
      forallb answers (firstn 2 (w_os_plan w)) = true ->
      exists w', DataProcessor.create_opensearch_indices w = (Ok tt, w')
                 /\ w_trace w' = (w_trace w ++ [OsExists "user-events";
                                               OsExists "product-catalog"])%list
                 /\ w_indices w ⊆ w_indices w')
  /\ (forall pre index post w0 w1 e w2,
        DataProcessor.known_indices = (pre ++ index :: post)%list ->
        get_opensearch_client w = (Ok tt, w0) ->
        DataProcessor.create_indices_loop pre w0 = (Ok tt, w1) ->
        index_request_fails index w1 e w2 ->
        DataProcessor.create_opensearch_indices w
        = (Raise e, with_log (w_log w2 ++ [index_error index e]) w2))
  /\ (forall event pre index post w0 w1 e w2,
        DataProcessor.known_indices = (pre ++ index :: post)%list ->
        get_opensearch_client (processor_entry w) = (Ok tt, w0) ->
        DataProcessor.create_indices_loop pre w0 = (Ok tt, w1) ->
        index_request_fails index w1 e w2 ->
        exists w',
          DataProcessor.lambda_handler event w = (Ok (fatal_reply e w), w')
          /\ w_trace w' = w_trace w2 /\ w_indices w' = w_indices w2
          /\ In (index_error index e) (w_log w'))
  /\ (forall event pre index post w0 w1 w2 rest,
        DataProcessor.known_indices = (pre ++ index :: post)%list ->
        get_opensearch_client (processor_entry w) = (Ok tt, w0) ->
        DataProcessor.create_indices_loop pre w0 = (Ok tt, w1) ->
        os_indices_exists index w1 = (Ok false, w2) ->
        w_os_plan w2 = OsRace index :: rest ->
        exists e w',
          DataProcessor.lambda_handler event w = (Ok (fatal_reply e w), w')
          /\ w_trace w' = (w_trace w2 ++ [OsCreate index])%list
          /\ index ∈ w_indices w').
Proof.
  split; [|split; [|split; [|split; [|split; [|split]]]]].
  - intros w' E. unfold DataProcessor.create_opensearch_indices in E.
    apply bind_Ok in E as ([] & w1 & _ & E).
    apply create_indices_loop_Ok in E as [_ All]. exact All.
  - apply create_opensearch_indices_calls.
  - intros pre index post w0 w1 w2. apply create_opensearch_indices_found.
  - apply create_when_available.
  - intros pre index post w0 w1 e w2. apply create_opensearch_indices_fails.
  - intros event pre index post w0 w1 e w2 K E0 E1 Fails.
    pose proof (create_opensearch_indices_fails _ _ _ _ _ _ _ _ K E0 E1 Fails) as E.
    destruct (fatal_error_logged event w e _ E) as (w' & L & T & I & Lg).
    exists w'. split; [exact L|]. split; [exact T|]. split; [exact I|].
    apply Lg. cbn. apply in_or_app. right. left. reflexivity.
  - intros event pre index post w0 w1 w2 rest K E0 E1 Absent Race.
    destruct (create_after_race index w2 rest Race) as (w3 & Dup & There).
    assert (Fails : index_request_fails index w1
                      (TransportError "resource_already_exists_exception") w3).
    { right. exists w2. split; assumption. }
    pose proof (create_opensearch_indices_fails _ _ _ _ _ _ _ _ K E0 E1 Fails) as E.
    destruct (fatal_error_logged event w _ _ E) as (w' & L & T & I & _).
    exists (TransportError "resource_already_exists_exception"), w'.
    split; [exact L|]. split.
    + rewrite T. cbn. apply (os_indices_create_run _ _ _ _ Dup).
    + rewrite I. exact There.
Qed.

(** ** Batch processing and the bulk request *)

Lemma process_split k records w :
  process k records w
  = bind (collect k records)
         (fun acc => bulk_insert k (snd acc) ;; ret (fst acc)) w.
Proof.
  destruct k; unfold process, collect, DataProcessor.process_user_events,
    DataProcessor.process_products, bind, records_loop_of, bulk_insert;
    destruct (get_opensearch_client w) as [[[]|?] ?]; try reflexivity;
    destruct (get_redis_client _) as [[[]|?] ?]; try reflexivity;
    destruct (lift _ _) as [[?|?] ?]; reflexivity.
Qed.

Lemma bulk_insert_answered k acts w fields rest :
  w_os_plan w = OsReply (JDict fields) :: rest ->
  exists w',
    bulk_insert k acts w = (Ok tt, w')
    /\ (acts <> [] ->
        py_truthy (default JNull (dict_get "errors" fields)) = true ->
        In (failure_warning k (JDict fields)) (w_log w')).
Proof.
  intros P.
  destruct k; destruct acts as [|a acts]; cbn [bulk_insert];
    try (exists w; split; [reflexivity | intros N; contradiction]);
    unfold DataProcessor.bulk_insert_events, DataProcessor.bulk_insert_products,
      try_except, bind, os_bulk, os_request; rewrite P; cbn;
    destruct (py_truthy _) eqn:T; cbn; eexists; (split; [reflexivity|]);
    intros _ T'; try discriminate; cbn; apply in_or_app; right; left; reflexivity.
Qed.

Lemma bulk_insert_down k acts w m rest :
  acts <> [] -> w_os_plan w = OsDown m :: rest ->
  exists w', bulk_insert k acts w = (Raise (TransportError m), w').
Proof.
  intros N P.
  destruct k; destruct acts as [|a acts]; try contradiction; cbn [bulk_insert];
    unfold DataProcessor.bulk_insert_events, DataProcessor.bulk_insert_products,
      try_except, bind, os_bulk, os_request; rewrite P; cbn;
    eexists; reflexivity.
Qed.

Lemma process_data_batch_single k d records w r w1 :
  only_entity k d records ->
  process k records w = (r, w1) ->
  exists w2,
    DataProcessor.process_data_batch (JDict d) w = (r, w2)
    /\ w_now w2 = w_now w1
    /\ (forall x, In x (w_log w1) -> In x (w_log w2)).
Proof.
  intros (G & _ & NE & NO) R.
  assert (Hk : dict_has (entity_key k) d = true) by (unfold dict_has; rewrite G; reflexivity).
  unfold DataProcessor.process_data_batch, py_contains, py_getitem, lift, bind.
  destruct k; cbn [entity_key process] in *;
    repeat (rewrite ?Hk, ?NO, ?NE, ?G, ?R; cbn);
    destruct r as [n|e]; cbn; repeat (rewrite ?Hk, ?NO, ?NE; cbn);
    eexists; (split; [reflexivity|]); (split; [reflexivity|]);
    cbn; intros x Hx; try assumption; apply in_or_app; left; assumption.
Qed.

Lemma lambda_handler_direct d w w0 r w2 :
  dict_has "Records" d = false ->
  DataProcessor.create_opensearch_indices (processor_entry w) = (Ok tt, w0) ->
  DataProcessor.process_data_batch (JDict d) w0 = (r, w2) ->
  exists w',
    DataProcessor.lambda_handler (JDict d) w
    = (Ok (match r with
           | Ok n => success_reply n w2
           | Raise e => fatal_reply e w2
           end), w')
    /\ (forall x, In x (w_log w2) -> In x (w_log w')).
Proof.
  intros NR C B. unfold DataProcessor.lambda_handler.
  unfold bind at 1. unfold logger at 1. unfold bind at 1.
  change (with_clients false false _) with (processor_entry w).
  unfold try_except, bind, py_contains, lift. rewrite C, NR, B.
  destruct r as [n|e]; cbn; eexists; (split; [reflexivity|]);
    cbn; intros x Hx; apply in_or_app; left; assumption.
Qed.

(** ** Runs that differ in the replies of the cluster *)

Lemma same_shape_cases a b :
  same_shape a b ->
  (exists d d', a = OsReply (JDict d) /\ b = OsReply (JDict d')) \/ a = b.
Proof.
  destruct a as [[]| |], b as [[]| |]; cbn; intros E;
    try (right; exact E); left; eauto.
Qed.

Lemma alike_refl_plan w p q :
  Forall2 same_shape p q -> alike (with_plan p w) (with_plan q w).
Proof. intros P. split; [reflexivity | exact P]. Qed.

Ltac open_alike A :=
  match type of A with
  | alike ?w1 ?w2 =>
      let P := fresh "P" in
      destruct w1 as [st1 faults1 info1 ix1 plan1 trace1 log1 today1 now1
                        rconf1 oconf1 rc1 oc1],
               w2 as [st2 faults2 info2 ix2 plan2 trace2 log2 today2 now2
                        rconf2 oconf2 rc2 oc2];
      destruct A as [A P]; cbn in P; unfold beside_log in A; cbn in A;
      injection A as -> -> -> -> -> -> -> -> -> -> ->
  end.

Ltac close_alike :=
  repeat split; cbn; first [assumption | exact (List.Forall2_nil _) | reflexivity | idtac].

Section Sim.
Context {A B : Type}.

Lemma sim_ret (Q : A -> A -> Prop) a b : Q a b -> sim Q (ret a) (ret b).
Proof. intros HQ w1 w2 Al. cbn. auto. Qed.

Lemma sim_raise (Q : A -> A -> Prop) e : sim Q (raise e) (raise e).
Proof. intros w1 w2 Al. cbn. auto. Qed.

Lemma sim_lift (o : outcome A) : sim eq (lift o) (lift o).
Proof. intros w1 w2 Al. unfold lift. destruct o; auto. Qed.

Lemma sim_bind (Q : A -> A -> Prop) (Q' : B -> B -> Prop) m m' k k' :
  sim Q m m' -> (forall a b, Q a b -> sim Q' (k a) (k' b)) ->
  sim Q' (bind m k) (bind m' k').
Proof.
  intros Hm Hk w1 w2 Al. unfold bind. specialize (Hm w1 w2 Al).
  destruct (m w1) as [[a|e] u1], (m' w2) as [[b|e'] u2]; try contradiction.
  - destruct Hm as [HQ Al']. apply Hk; assumption.
  - exact Hm.
Qed.

Lemma sim_try_except (Q : A -> A -> Prop) m m' h h' :
  sim Q m m' -> (forall e, sim Q (h e) (h' e)) ->
  sim Q (try_except m h) (try_except m' h').
Proof.
  intros Hm Hh w1 w2 Al. unfold try_except. specialize (Hm w1 w2 Al).
  destruct (m w1) as [[a|e] u1], (m' w2) as [[b|e'] u2]; try contradiction.
  - exact Hm.
  - destruct Hm as [<- Al']. apply Hh; assumption.
Qed.

Lemma sim_redis_call c arg (f : gmap string entry -> outcome A * gmap string entry) :
  sim eq (redis_call c arg f) (redis_call c arg f).
Proof.
  intros w1 w2 Al. open_alike Al. unfold redis_call. cbn.
  destruct faults2 as [|[] fs]; cbn;
    try destruct (f st2) as [[a|e] st]; cbn; close_alike.
Qed.

Lemma sim_redis_on c k (f : option entry -> outcome A * option entry) :
  sim eq (redis_on c k f) (redis_on c k f).
Proof. apply sim_redis_call. Qed.

Lemma sim_os_request (Q : A -> A -> Prop) c
    (f : json -> gset string -> outcome A * gset string) :
  (forall body body' ix,
      reply_alike body body' ->
      match f body ix, f body' ix with
      | (Ok a, ix1), (Ok b, ix2) => Q a b /\ ix1 = ix2
      | (Raise e, ix1), (Raise e', ix2) => e = e' /\ ix1 = ix2
      | _, _ => False
      end) ->
  sim Q (os_request c f) (os_request c f).
Proof.
  intros Hf w1 w2 Al. open_alike Al. unfold os_request. cbn.
  match goal with P : Forall2 same_shape _ _ |- _ => destruct P as [|a b p q S P'] end.
  - specialize (Hf (JDict []) (JDict []) ix2 (or_intror eq_refl)).
    destruct (f _ _) as [[x|e] ix]; cbn; destruct Hf as [HQ _]; close_alike.
  - apply same_shape_cases in S as [(d & d' & -> & ->)| <-].
    + specialize (Hf (JDict d) (JDict d') ix2
                    (or_introl (conj (ex_intro _ d eq_refl) (ex_intro _ d' eq_refl)))).
      destruct (f (JDict d) _) as [[x|e] ix], (f (JDict d') _) as [[y|e'] ix'];
        try contradiction; destruct Hf as [HQ <-]; cbn; close_alike.
    + destruct a as [body|m|index].
      * specialize (Hf body body ix2 (or_intror eq_refl)).
        destruct (f _ _) as [[x|e] ix]; cbn; destruct Hf as [HQ _]; close_alike.
      * cbn. close_alike.
      * specialize (Hf (JDict []) (JDict []) ({[index]} ∪ ix2)
                      (or_intror eq_refl)).
        destruct (f _ _) as [[x|e] ix]; cbn; destruct Hf as [HQ _]; close_alike.
Qed.

End Sim.

Lemma sim_logger l l' msg msg' : sim eq (logger l msg) (logger l' msg').
Proof. intros w1 w2 Al. open_alike Al. unfold logger. cbn. close_alike. Qed.

Lemma sim_utc_today : sim eq utc_today utc_today.
Proof. intros w1 w2 Al. open_alike Al. unfold utc_today. cbn. close_alike. Qed.

Lemma sim_utc_now : sim eq utc_now utc_now.
Proof. intros w1 w2 Al. open_alike Al. unfold utc_now. cbn. close_alike. Qed.

Lemma sim_with_clients a b :
  sim eq (fun w => (Ok tt, with_clients a b w)) (fun w => (Ok tt, with_clients a b w)).
Proof. intros w1 w2 Al. open_alike Al. cbn. close_alike. Qed.

Lemma sim_get_opensearch_client : sim eq get_opensearch_client get_opensearch_client.
Proof.
  intros w1 w2 Al. open_alike Al.
  unfold get_opensearch_client, try_except, bind, raise, logger. cbn.
  destruct oc2; cbn; [close_alike|].
  destruct oconf2; cbn; close_alike.
Qed.

Lemma sim_get_redis_client : sim eq get_redis_client get_redis_client.
Proof.
  intros w1 w2 Al. open_alike Al.
  unfold get_redis_client, try_except, bind, raise, logger, redis_ping, redis_call.
  cbn. destruct rc2; cbn; [close_alike|].
  destruct rconf2; cbn; [|close_alike].
  destruct faults2 as [|[] fs]; cbn; close_alike.
Qed.

Lemma sim_os_indices_exists index :
  sim eq (os_indices_exists index) (os_indices_exists index).
Proof. apply sim_os_request. intros body body' ix _. auto. Qed.

Lemma sim_os_indices_create index :
  sim eq (os_indices_create index) (os_indices_create index).
Proof.
  apply sim_os_request. intros body body' ix _. destruct (bool_decide _); auto.
Qed.

Lemma sim_os_bulk acts : sim reply_alike (os_bulk acts) (os_bulk acts).
Proof. apply sim_os_request. intros body body' ix R. auto. Qed.

Ltac sim_same :=
  let E := fresh "E" in intros ? ? E; hnf in E; subst.

Ltac sim_leaf :=
  first
    [ apply sim_ret; reflexivity | apply sim_raise | apply sim_lift
    | apply sim_logger | apply sim_utc_today | apply sim_utc_now
    | apply sim_with_clients | apply sim_redis_on | apply sim_redis_call
    | apply sim_get_opensearch_client | apply sim_get_redis_client
    | apply sim_os_indices_exists | apply sim_os_indices_create
    | eassumption
    | match goal with L : context [sim] |- _ => apply L end ].

Ltac sim_go :=
  lazymatch goal with
  | |- sim _ (bind _ _) (bind _ _) =>
      eapply sim_bind; [sim_go | sim_same; sim_go]
  | |- sim _ (try_except _ _) (try_except _ _) =>
      apply sim_try_except; [sim_go | intros ?; sim_go]
  | |- sim _ (if ?b then _ else _) _ => destruct b; sim_go
  | |- sim _ (match ?x with _ => _ end) _ => destruct x; sim_go
  | |- _ => try sim_leaf
  end.

Lemma sim_cache k record : sim eq (cache k record) (cache k record).
Proof.
  destruct k; cbn [cache].
  - unfold DataProcessor.cache_user_data, redis_hset, redis_expire, redis_incr,
      redis_zincrby.
    sim_go.
  - unfold DataProcessor.cache_product_data, redis_hset, redis_expire, redis_sadd,
      redis_set_ex.
    sim_go.
Qed.

Lemma sim_records_loop_of k records n acts :
  sim eq (records_loop_of k records n acts) (records_loop_of k records n acts).
Proof.
  revert n acts. induction records as [|record rest IH]; intros n acts.
  - destruct k; cbn; sim_go.
  - pose proof (sim_cache Events record) as CE.
    pose proof (sim_cache Products record) as CP. cbn [cache] in CE, CP.
    destruct k; cbn [records_loop_of DataProcessor.user_events_loop
                       DataProcessor.products_loop] in *.
    + eapply sim_bind; [sim_go | sim_same; apply IH].
    + eapply sim_bind; [sim_go | sim_same; apply IH].
Qed.

(** The bulk block looks at the reply only to choose what it logs. *)
Lemma sim_bulk_insert k acts : sim eq (bulk_insert k acts) (bulk_insert k acts).
Proof.
  destruct k; destruct acts as [|a acts]; cbn [bulk_insert];
    unfold DataProcessor.bulk_insert_events, DataProcessor.bulk_insert_products;
    try (apply sim_ret; reflexivity);
    (apply sim_try_except; [|intros e; sim_go]);
    (eapply sim_bind; [apply sim_os_bulk|]);
    intros x y [[[d ->] [d' ->]]| <-].
  all: try (unfold lift, py_get, bind; cbn;
            do 2 destruct (py_truthy _); apply sim_logger).
  all: sim_go.
Qed.

Lemma sim_process k records : sim eq (process k records) (process k records).
Proof.
  pose proof (sim_records_loop_of k) as L. pose proof (sim_bulk_insert k) as B.
  destruct k; cbn [process records_loop_of bulk_insert] in *;
    unfold DataProcessor.process_user_events, DataProcessor.process_products.
  - eapply sim_bind; [sim_go | sim_same].
    eapply sim_bind; [sim_go | sim_same].
    eapply sim_bind; [sim_go | sim_same].
    eapply sim_bind; [apply L | sim_same].
    eapply sim_bind; [apply B | sim_same]. sim_go.
  - eapply sim_bind; [sim_go | sim_same].
    eapply sim_bind; [sim_go | sim_same].
    eapply sim_bind; [sim_go | sim_same].
    eapply sim_bind; [apply L | sim_same].
    eapply sim_bind; [apply B | sim_same]. sim_go.
Qed.

Lemma sim_process_data_batch data :
  sim eq (DataProcessor.process_data_batch data) (DataProcessor.process_data_batch data).
Proof.
  pose proof (sim_process Events) as PE. pose proof (sim_process Products) as PP.
  cbn [process] in PE, PP.
  unfold DataProcessor.process_data_batch. sim_go.
Qed.

Lemma sim_records_loop records n :
  sim eq (DataProcessor.records_loop records n) (DataProcessor.records_loop records n).
Proof.
  pose proof sim_process_data_batch as PB.
  revert n. induction records as [|record rest IH]; intros n;
    cbn [DataProcessor.records_loop]; sim_go.
Qed.

Lemma sim_create_opensearch_indices :
  sim eq DataProcessor.create_opensearch_indices DataProcessor.create_opensearch_indices.
Proof.
  unfold DataProcessor.create_opensearch_indices.
  eapply sim_bind; [sim_go | sim_same].
  generalize DataProcessor.known_indices. intros l.
  induction l as [|index rest IH]; cbn [DataProcessor.create_indices_loop]; sim_go.
Qed.

Lemma sim_lambda_handler event :
  sim eq (DataProcessor.lambda_handler event) (DataProcessor.lambda_handler event).
Proof.
  pose proof sim_create_opensearch_indices as CI.
  pose proof sim_records_loop as RL.
  pose proof sim_process_data_batch as PB.
  unfold DataProcessor.lambda_handler. sim_go.
Qed.

(** The response of an invocation, what it leaves in the cache and the
    calls it makes do not depend on the objects the cluster replies with. *)
Lemma replies_do_not_reach_the_response event w p q r1 u1 r2 u2 :
  Forall2 same_shape p q ->
  DataProcessor.lambda_handler event (with_plan p w) = (r1, u1) ->
  DataProcessor.lambda_handler event (with_plan q w) = (r2, u2) ->
  r1 = r2 /\ w_redis u1 = w_redis u2 /\ w_trace u1 = w_trace u2.
Proof.
  intros P E1 E2.
  pose proof (sim_lambda_handler event _ _ (alike_refl_plan w p q P)) as S.
  rewrite E1, E2 in S.
  destruct r1 as [a|e], r2 as [b|e']; try contradiction;
    destruct S as [<- [Al _]]; unfold beside_log in Al;
    injection Al as -> _ _ _ -> _; auto.
Qed.

(** ** Requests that are refused *)

Section Stays.
Context (I : world -> Prop) {A B : Type}.

Lemma stays_weaken (m : M A) : stays I m -> stays_done I m.
Proof. intros Hm w a w' Hw E. exact (Hm _ _ _ Hw E). Qed.

Lemma stays_ret (a : A) : stays I (ret a).
Proof. intros w r w' Hw E. injection E as <- <-. exact Hw. Qed.

Lemma stays_raise (e : exn) : stays I (@raise A e).
Proof. intros w r w' Hw E. injection E as <- <-. exact Hw. Qed.

Lemma stays_lift (o : outcome A) : stays I (lift o).
Proof. intros w r w' Hw E. injection E as <- <-. exact Hw. Qed.

Lemma stays_bind (m : M A) (k : A -> M B) :
  stays I m -> (forall a, stays I (k a)) -> stays I (bind m k).
Proof.
  intros Hm Hk w r w' Hw. unfold bind.
  destruct (m w) as [[a|e] w1] eqn:E; pose proof (Hm _ _ _ Hw E) as H1.
  - apply Hk. exact H1.
  - intros E2. injection E2 as <- <-. exact H1.
Qed.

Lemma stays_try_except (m : M A) (h : exn -> M A) :
  stays I m -> (forall e, stays I (h e)) -> stays I (try_except m h).
Proof.
  intros Hm Hh w r w' Hw. unfold try_except.
  destruct (m w) as [[a|e] w1] eqn:E; pose proof (Hm _ _ _ Hw E) as H1.
  - intros E2. injection E2 as <- <-. exact H1.
  - apply Hh. exact H1.
Qed.

Lemma done_bind (m : M A) (k : A -> M B) :
  stays_done I m -> (forall a, stays_done I (k a)) -> stays_done I (bind m k).
Proof.
  intros Hm Hk w b w' Hw E. apply bind_Ok in E as (a & w1 & E1 & E2).
  exact (Hk a _ _ _ (Hm _ _ _ Hw E1) E2).
Qed.

(** A handler that goes on after an exception needs the block it guards
    to stay in [I] however it ends; one that raises again does not. *)
Lemma done_try_swallow (m : M A) (h : exn -> M A) :
  stays I m -> (forall e, stays_done I (h e)) -> stays_done I (try_except m h).
Proof.
  intros Hm Hh w a w' Hw. unfold try_except.
  destruct (m w) as [[a1|e] w1] eqn:E; pose proof (Hm _ _ _ Hw E) as H1.
  - intros E2. injection E2 as <- <-. exact H1.
  - apply Hh. exact H1.
Qed.

Lemma done_try_reraise (m : M A) (h : exn -> M A) :
  stays_done I m -> (forall e w a w', h e w <> (Ok a, w')) ->
  stays_done I (try_except m h).
Proof.
  intros Hm Hh w a w' Hw. unfold try_except.
  destruct (m w) as [[a1|e] w1] eqn:E.
  - intros E2. injection E2 as <- <-. exact (Hm _ _ _ Hw E).
  - intros E2. destruct (Hh _ _ _ _ E2).
Qed.

End Stays.

Lemma os_calls_app a b : os_calls (a ++ b) = (os_calls a ++ os_calls b)%list.
Proof. unfold os_calls. apply List.filter_app. Qed.

Section Served.
Context (plan : list os_event) (trace : list call).

Lemma served_start w : w_os_plan w = plan -> w_trace w = trace -> served plan trace w.
Proof.
  intros P T. exists []. rewrite app_nil_r. cbn. repeat split; try assumption.
  intros i c m E. rewrite lookup_nil in E. discriminate.
Qed.

(** What does not journal a request to OpenSearch and leaves the plan
    alone keeps [served]. *)
Lemma served_aside w w' calls :
  served plan trace w ->
  w_trace w' = (w_trace w ++ calls)%list -> os_calls calls = [] ->
  w_os_plan w' = w_os_plan w ->
  served plan trace w'.
Proof.
  intros (done & T & P & C) T' N P'. exists (done ++ calls)%list.
  rewrite os_calls_app, N, app_nil_r. repeat split.
  - rewrite T', T, app_assoc. reflexivity.
  - rewrite P'. exact P.
  - exact C.
Qed.

Lemma stays_logger l msg : stays (served plan trace) (logger l msg).
Proof.
  intros w r w' Hw E. injection E as <- <-.
  apply (served_aside w _ [] Hw); cbn; rewrite ?app_nil_r; reflexivity.
Qed.

Lemma stays_utc_today : stays (served plan trace) utc_today.
Proof. intros w r w' Hw E. injection E as <- <-. exact Hw. Qed.

Lemma stays_utc_now : stays (served plan trace) utc_now.
Proof. intros w r w' Hw E. injection E as <- <-. exact Hw. Qed.

Lemma stays_with_clients a b :
  stays (served plan trace) (fun w => (Ok tt, with_clients a b w)).
Proof.
  intros w r w' Hw E. injection E as <- <-.
  apply (served_aside w _ [] Hw); cbn; rewrite ?app_nil_r; reflexivity.
Qed.

Lemma stays_redis_call {A : Type} c arg
    (f : gmap string entry -> outcome A * gmap string entry) :
  stays (served plan trace) (redis_call c arg f).
Proof.
  intros w r w' Hw. unfold redis_call.
  destruct (w_redis_faults w) as [|[] fs];
    try destruct (f (w_redis w)) as [r0 st]; intros E; injection E as <- <-;
    apply (served_aside w _ [Redis c arg] Hw); reflexivity.
Qed.

Lemma stays_redis_on {A : Type} c k (f : option entry -> outcome A * option entry) :
  stays (served plan trace) (redis_on c k f).
Proof. apply stays_redis_call. Qed.

Lemma stays_get_opensearch_client : stays (served plan trace) get_opensearch_client.
Proof.
  intros w r w' Hw.
  unfold get_opensearch_client, try_except, bind, raise, logger.
  destruct (self_opensearch_client w); [intros E; injection E as <- <-; exact Hw|].
  destruct (w_os_conf w); cbn; intros E; injection E as <- <-;
    apply (served_aside w _ [] Hw); cbn; rewrite ?app_nil_r; reflexivity.
Qed.

Lemma stays_get_redis_client : stays (served plan trace) get_redis_client.
Proof.
  intros w r w' Hw.
  unfold get_redis_client, try_except, bind, raise, logger, redis_ping, redis_call.
  destruct (self_redis_client w); [intros E; injection E as <- <-; exact Hw|].
  destruct (w_redis_conf w); cbn;
    [|intros E; injection E as <- <-;
      apply (served_aside w _ [] Hw); cbn; rewrite ?app_nil_r; reflexivity].
  destruct (w_redis_faults w) as [|[] fs]; cbn; intros E; injection E as <- <-;
    apply (served_aside w _ [Redis PING ""] Hw); reflexivity.
Qed.

Lemma drop_head {X : Type} n (l : list X) x rest :
  drop n l = x :: rest -> l !! n = Some x /\ drop (S n) l = rest.
Proof.
  intros D. split.
  - pose proof (lookup_drop l n 0) as L. rewrite D, Nat.add_0_r in L.
    symmetry. exact L.
  - replace (S n) with (n + 1)%nat by lia. rewrite <- drop_drop, D. reflexivity.
Qed.

Lemma drop_end {X : Type} n (l : list X) :
  drop n l = [] -> l !! n = None /\ drop (S n) l = [].
Proof.
  intros D. split.
  - pose proof (lookup_drop l n 0) as L. rewrite D, Nat.add_0_r in L.
    symmetry. exact L.
  - replace (S n) with (n + 1)%nat by lia. rewrite <- drop_drop, D. reflexivity.
Qed.

(** A request to OpenSearch that is answered uses up the next event of
    the plan, and that event is not a refusal. *)
Lemma served_request w w' c ev :
  served plan trace w -> is_os_call c = true ->
  w_trace w' = (w_trace w ++ [c])%list ->
  head (w_os_plan w) = ev -> (forall m, ev <> Some (OsDown m)) ->
  w_os_plan w' = tail (w_os_plan w) ->
  served plan trace w'.
Proof.
  intros (done & T & P & C) Os T' Hd Up P'. exists (done ++ [c])%list.
  assert (Calls : os_calls (done ++ [c]) = (os_calls done ++ [c])%list).
  { rewrite os_calls_app. unfold os_calls at 2. cbn. rewrite Os. reflexivity. }
  rewrite Calls, length_app. cbn [length].
  replace (length (os_calls done) + 1)%nat with (S (length (os_calls done))) by lia.
  assert (Next : plan !! length (os_calls done) = ev
                 /\ drop (S (length (os_calls done))) plan = tail (w_os_plan w)).
  { rewrite <- Hd. destruct (w_os_plan w) as [|x rest] eqn:Pw; cbn.
    - apply drop_end. symmetry. exact P.
    - apply drop_head. symmetry. exact P. }
  destruct Next as [Nx Dr]. repeat split.
  - rewrite T', T, app_assoc. reflexivity.
  - rewrite P'. symmetry. exact Dr.
  - intros i c' m L.
    destruct (decide (i < length (os_calls done))%nat) as [Lt|Ge].
    + rewrite lookup_app_l in L by exact Lt. exact (C i c' m L).
    + rewrite lookup_app_r in L by lia.
      destruct (i - length (os_calls done))%nat as [|j] eqn:D; [|discriminate].
      replace i with (length (os_calls done)) by lia. rewrite Nx. apply Up.
Qed.

Lemma done_os_request {A : Type} c
    (f : json -> gset string -> outcome A * gset string) :
  is_os_call c = true -> stays_done (served plan trace) (os_request c f).
Proof.
  intros Os w a w' Hw. unfold os_request.
  destruct (w_os_plan w) as [|[body|m|index] rest] eqn:P;
    try destruct (f _ _) as [r0 ix]; intros E; try discriminate E;
    injection E as -> <-;
    apply (served_request w _ c (head (w_os_plan w)) Hw Os);
    try reflexivity; rewrite P; cbn; try reflexivity;
    first [exact P | intros m'; discriminate].
Qed.

End Served.

Ltac stays_leaf :=
  first
    [ apply stays_ret | apply stays_raise | apply stays_lift
    | apply stays_logger | apply stays_utc_today | apply stays_utc_now
    | apply stays_with_clients | apply stays_redis_on | apply stays_redis_call
    | apply stays_get_opensearch_client | apply stays_get_redis_client
    | eassumption
    | match goal with L : context [stays] |- _ => apply L end ].

Ltac done_leaf :=
  first
    [ apply done_os_request; reflexivity
    | eassumption
    | match goal with L : context [stays_done] |- _ => apply L end
    | apply stays_weaken; stays_leaf ].

Ltac stays_go :=
  lazymatch goal with
  | |- stays _ (bind _ _) => apply stays_bind; [stays_go | intros ?; stays_go]
  | |- stays _ (try_except _ _) =>
      apply stays_try_except; [stays_go | intros ?; stays_go]
  | |- stays _ (if ?b then _ else _) => destruct b; stays_go
  | |- stays _ (match ?x with _ => _ end) => destruct x; stays_go
  | |- stays_done _ (bind _ _) => apply done_bind; [stays_go | intros ?; stays_go]
  | |- stays_done _ (try_except _ _) =>
      first
        [ apply done_try_swallow; [solve [stays_go] | intros ?; stays_go]
        | apply done_try_reraise;
          [ stays_go
          | intros ? ? ? ?; unfold bind, logger, raise; discriminate ] ]
  | |- stays_done _ (if ?b then _ else _) => destruct b; stays_go
  | |- stays_done _ (match ?x with _ => _ end) => destruct x; stays_go
  | |- stays _ _ => stays_leaf
  | |- stays_done _ _ => done_leaf
  end.

Section Refused.
Context (plan : list os_event) (trace : list call).

Lemma stays_cache k record : stays (served plan trace) (cache k record).
Proof.
  destruct k; cbn [cache].
  - unfold DataProcessor.cache_user_data, redis_hset, redis_expire, redis_incr,
      redis_zincrby.
    stays_go.
  - unfold DataProcessor.cache_product_data, redis_hset, redis_expire, redis_sadd,
      redis_set_ex.
    stays_go.
Qed.

Lemma stays_records_loop_of k records n acts :
  stays (served plan trace) (records_loop_of k records n acts).
Proof.
  revert n acts. induction records as [|record rest IH]; intros n acts.
  - destruct k; cbn; stays_go.
  - pose proof (stays_cache Events record) as CE.
    pose proof (stays_cache Products record) as CP. cbn [cache] in CE, CP.
    destruct k; cbn [records_loop_of DataProcessor.user_events_loop
                       DataProcessor.products_loop] in *; stays_go.
Qed.

Lemma done_bulk_insert k acts : stays_done (served plan trace) (bulk_insert k acts).
Proof.
  destruct k; destruct acts as [|a acts]; cbn [bulk_insert];
    unfold DataProcessor.bulk_insert_events, DataProcessor.bulk_insert_products,
      os_bulk;
    stays_go.
Qed.

Lemma done_process k records : stays_done (served plan trace) (process k records).
Proof.
  pose proof (stays_records_loop_of k) as L. pose proof (done_bulk_insert k) as B.
  destruct k; cbn [process records_loop_of bulk_insert] in *;
    unfold DataProcessor.process_user_events, DataProcessor.process_products;
    stays_go.
Qed.

Lemma done_process_data_batch data :
  stays_done (served plan trace) (DataProcessor.process_data_batch data).
Proof.
  pose proof (done_process Events) as PE. pose proof (done_process Products) as PP.
  cbn [process] in PE, PP.
  unfold DataProcessor.process_data_batch. stays_go.
Qed.

Lemma done_records_loop records n :
  stays_done (served plan trace) (DataProcessor.records_loop records n).
Proof.
  pose proof done_process_data_batch as PB.
  revert n. induction records as [|record rest IH]; intros n;
    cbn [DataProcessor.records_loop]; stays_go.
Qed.

Lemma done_create_opensearch_indices :
  stays_done (served plan trace) DataProcessor.create_opensearch_indices.
Proof.
  unfold DataProcessor.create_opensearch_indices.
  apply done_bind; [stays_go | intros _].
  generalize DataProcessor.known_indices. intros l.
  induction l as [|index rest IH]; cbn [DataProcessor.create_indices_loop];
    unfold os_indices_exists, os_indices_create; stays_go.
Qed.

End Refused.

(** An invocation that does not end with status 500 has had every
    request it made to OpenSearch answered. *)
Lemma lambda_handler_served event w resp w' :
  DataProcessor.lambda_handler event w = (Ok resp, w') ->
  statusCode resp = 500 \/ served (w_os_plan w) (w_trace w) w'.
Proof.
  unfold DataProcessor.lambda_handler.
  unfold bind at 1. unfold logger at 1. unfold bind at 1.
  change (with_clients false false _) with (processor_entry w).
  assert (S0 : served (w_os_plan w) (w_trace w) (processor_entry w)).
  { apply served_start; reflexivity. }
  unfold try_except.
  match goal with |- context [bind ?m ?k (processor_entry w)] =>
    assert (D : stays_done (served (w_os_plan w) (w_trace w)) (bind m k));
    [|destruct (bind m k (processor_entry w)) as [[ok|e] w1] eqn:E]
  end.
  - pose proof (done_create_opensearch_indices (w_os_plan w) (w_trace w)) as CI.
    pose proof (done_records_loop (w_os_plan w) (w_trace w)) as RL.
    pose proof (done_process_data_batch (w_os_plan w) (w_trace w)) as PB.
    stays_go.
  - intros X. injection X as <- <-. right. exact (D _ _ _ S0 E).
  - unfold bind, logger, utc_now, ret. intros X. injection X as <- _. left. reflexivity.
Qed.

Lemma refused_request_is_fatal event w resp w' calls i c m :
  DataProcessor.lambda_handler event w = (Ok resp, w') ->
  w_trace w' = (w_trace w ++ calls)%list ->
  os_calls calls !! i = Some c ->
  w_os_plan w !! i = Some (OsDown m) ->
  statusCode resp = 500.
Proof.
  intros Run T L P.
  destruct (lambda_handler_served event w resp w' Run) as [Fatal|(done & T' & _ & C)];
    [exact Fatal|].
  rewrite T' in T. apply app_inv_head in T. subst done.
  destruct (C i c m L P).
Qed.

Lemma one_entity_batch_replies k d records w w0 w1 n acts :
  only_entity k d records ->
  DataProcessor.create_opensearch_indices (processor_entry w) = (Ok tt, w0) ->
  collect k records w0 = (Ok (n, acts), w1) ->
  (forall fields rest,
      w_os_plan w1 = OsReply (JDict fields) :: rest ->
      exists w',
        DataProcessor.lambda_handler (JDict d) w = (Ok (success_reply n w), w')
        /\ (acts <> [] ->
            py_truthy (default JNull (dict_get "errors" fields)) = true ->
            In (failure_warning k (JDict fields)) (w_log w')))
  /\ (forall m rest,
        acts <> [] ->
        w_os_plan w1 = OsDown m :: rest ->
        exists w',
          DataProcessor.lambda_handler (JDict d) w
          = (Ok (fatal_reply (TransportError m) w), w')).
Proof.
  intros Only C Col.
  assert (N0 : w_now w0 = w_now w).
  { apply steady_create_opensearch_indices in C as (_ & N & _). exact N. }
  assert (N1 : w_now w1 = w_now w0).
  { assert (S : keeps anything (collect k records)).
    { unfold collect. destruct k; cbn [records_loop_of];
        repeat first [apply steady_user_events_loop | apply steady_products_loop
                     | keeps_step]. }
    apply S in Col as (_ & N & _). exact N. }
  split.
  - intros fields rest P.
    destruct (bulk_insert_answered k acts w1 fields rest P) as (w2 & B & W).
    assert (N2 : w_now w2 = w_now w1).
    { assert (S : keeps anything (bulk_insert k acts)).
      { destruct k; [apply steady_bulk_insert_events | apply steady_bulk_insert_products]. }
      apply S in B as (_ & N & _). exact N. }
    assert (R : process k records w0 = (Ok n, w2)).
    { rewrite process_split. rewrite (bind_step _ _ _ _ _ Col). cbn [fst snd].
      rewrite (bind_step _ _ _ _ _ B). reflexivity. }
    destruct (process_data_batch_single k d records w0 _ _ Only R) as (w3 & B3 & N3 & L3).
    destruct Only as (_ & NR & _).
    destruct (lambda_handler_direct d w w0 _ _ NR C B3) as (w' & L & L').
    exists w'. split.
    + rewrite L. unfold success_reply. rewrite N3, N2, N1, N0. reflexivity.
    + intros Na T. apply L', L3, W; assumption.
  - intros m rest Na P.
    destruct (bulk_insert_down k acts w1 m rest Na P) as (w2 & B).
    assert (N2 : w_now w2 = w_now w1).
    { assert (S : keeps anything (bulk_insert k acts)).
      { destruct k; [apply steady_bulk_insert_events | apply steady_bulk_insert_products]. }
      apply S in B as (_ & N & _). exact N. }
    assert (R : process k records w0 = (Raise (TransportError m), w2)).
    { rewrite process_split. rewrite (bind_step _ _ _ _ _ Col). cbn [fst snd].
      rewrite (bind_raise _ _ _ _ _ B). reflexivity. }
    destruct (process_data_batch_single k d records w0 _ _ Only R) as (w3 & B3 & N3 & L3).
    destruct Only as (_ & NR & _).
    destruct (lambda_handler_direct d w w0 _ _ NR C B3) as (w' & L & L').
    exists w'. rewrite L. unfold fatal_reply. rewrite N3, N2, N1, N0. reflexivity.
Qed.

(** C3: of the reply to a bulk request the code reads the [errors]
    field, and only to choose what it logs.  At the function: once the
    loop has gathered its bulk actions, a reply of the cluster makes
    [process_user_events] and [process_products] return the count of the
    loop whatever [errors] says, a non-empty one leaving a warning in the
    log, and a bulk call that raises makes them raise.  At the invocation,
    for every payload (a direct one with events, products or both, an
    envelope of records, a single flattened event): the response, the
    cache and the calls made are the same whatever objects the cluster
    replies with, so a bulk reply that reports errors is answered with the
    status and the count of the run in which it reports none; and an
    invocation in which a request to OpenSearch, a bulk request among
    them, is refused ends with status 500.  For a direct payload with one
    entity type the two responses are spelled out: status 200 with the
    count of the loop, status 500 with the error of the bulk call. *)
Theorem bulk_errors_are_not_fatal :
  (forall k records w n acts w1,
      collect k records w = (Ok (n, acts), w1) ->
      (forall fields rest,
          w_os_plan w1 = OsReply (JDict fields) :: rest ->
          exists w',
            process k records w = (Ok n, w')
            /\ (acts <> [] ->
                py_truthy (default JNull (dict_get "errors" fields)) = true ->
                In (failure_warning k (JDict fields)) (w_log w')))
      /\ (forall m rest,
            acts <> [] -> w_os_plan w1 = OsDown m :: rest ->
            exists w', process k records w = (Raise (TransportError m), w')))
  /\ (forall event w p q r1 u1 r2 u2,
        Forall2 same_shape p q ->
        DataProcessor.lambda_handler event (with_plan p w) = (r1, u1) ->
        DataProcessor.lambda_handler event (with_plan q w) = (r2, u2) ->
        r1 = r2 /\ w_redis u1 = w_redis u2 /\ w_trace u1 = w_trace u2)
  /\ (forall event w resp w' calls i c m,
        DataProcessor.lambda_handler event w = (Ok resp, w') ->
        w_trace w' = (w_trace w ++ calls)%list ->
        os_calls calls !! i = Some c ->
        w_os_plan w !! i = Some (OsDown m) ->
        statusCode resp = 500)
  /\ (forall k d records w w0 w1 n acts,
        only_entity k d records ->
        DataProcessor.create_opensearch_indices (processor_entry w) = (Ok tt, w0) ->
        collect k records w0 = (Ok (n, acts), w1) ->
        (forall fields rest,
            w_os_plan w1 = OsReply (JDict fields) :: rest ->
            exists w',
              DataProcessor.lambda_handler (JDict d) w = (Ok (success_reply n w), w')
              /\ (acts <> [] ->
                  py_truthy (default JNull (dict_get "errors" fields)) = true ->
                  In (failure_warning k (JDict fields)) (w_log w')))
        /\ (forall m rest,
              acts <> [] ->
              w_os_plan w1 = OsDown m :: rest ->
              exists w',
                DataProcessor.lambda_handler (JDict d) w
                = (Ok (fatal_reply (TransportError m) w), w'))).
Proof.
  split; [|split; [|split]].
  - intros k records w n acts w1 Col. split.
    + intros fields rest P.
      destruct (bulk_insert_answered k acts w1 fields rest P) as (w2 & B & W).
      exists w2. split; [|exact W].
      rewrite process_split. rewrite (bind_step _ _ _ _ _ Col). cbn [fst snd].
      rewrite (bind_step _ _ _ _ _ B). reflexivity.
    + intros m rest Na P.
      destruct (bulk_insert_down k acts w1 m rest Na P) as (w2 & B).
      exists w2.
      rewrite process_split. rewrite (bind_step _ _ _ _ _ Col). cbn [fst snd].
      rewrite (bind_raise _ _ _ _ _ B). reflexivity.
  - apply replies_do_not_reach_the_response.
  - apply refused_request_is_fatal.
  - apply one_entity_batch_replies.
Qed.

(** ** Pattern lookups *)

Lemma dict_get_app {V : Type} k (a b : list (string * V)) :
  dict_get k (a ++ b)%list
  = match dict_get k a with Some v => Some v | None => dict_get k b end.
Proof.
  induction a as [|[k' v'] a IH]; cbn; [reflexivity|].
  destruct (String.eqb k' k); [reflexivity | exact IH].
Qed.

Lemma dict_set_fresh {V : Type} k (v : V) (a : list (string * V)) :
  dict_get k a = None -> dict_set k v a = (a ++ [(k, v)])%list.
Proof.
  induction a as [|[k' v'] a IH]; cbn; [reflexivity|].
  destruct (String.eqb k' k); [discriminate|].
  intros E. rewrite IH by exact E. reflexivity.
Qed.

Lemma pattern_results_fst st keys k :
  In k (map fst (pattern_results st keys)) -> In k keys.
Proof.
  induction keys as [|k' rest IH]; cbn; [tauto|].
  destruct (decoded st k'); cbn; intuition.
Qed.

(** A key of another type gets no entry at all in the results. *)
Lemma pattern_results_omits st keys k :
  decoded st k = None -> dict_get k (pattern_results st keys) = None.
Proof.
  intros D. induction keys as [|k' rest IH]; cbn; [reflexivity|].
  destruct (decoded st k') as [v|] eqn:E; [|exact IH].
  cbn. destruct (String.eqb_spec k' k) as [->|Ne]; [congruence | exact IH].
Qed.

Lemma pattern_results_length st keys :
  (length (pattern_results st keys) <= length keys)%nat.
Proof.
  induction keys as [|k rest IH]; cbn; [lia|].
  destruct (decoded st k); cbn; lia.
Qed.

Lemma pattern_results_all st keys :
  forallb (reportable st) keys = true ->
  map fst (pattern_results st keys) = keys.
Proof.
  induction keys as [|k rest IH]; cbn; [reflexivity|].
  unfold reportable at 1. destruct (decoded st k); cbn; [|discriminate].
  intros E. rewrite IH by exact E. reflexivity.
Qed.

Lemma redis_on_reads {A : Type} c k (f : option entry -> outcome A * option entry) w :
  reads f -> w_redis_faults w = [] ->
  exists w',
    redis_on c k f w = (fst (f (w_redis w !! k)), w')
    /\ w_redis w' = w_redis w /\ w_redis_faults w' = []
    /\ w_now w' = w_now w.
Proof.
  intros Rd F. unfold redis_on, redis_call. rewrite F.
  specialize (Rd (w_redis w !! k)).
  destruct (f (w_redis w !! k)) as [r e'] eqn:E. cbn in Rd. subst e'.
  eexists. split; [reflexivity|]. cbn.
  rewrite partial_alter_self. repeat split; reflexivity.
Qed.

Lemma pattern_loop_quiet keys acc w :
  w_redis_faults w = [] -> NoDup keys ->
  (forall k, In k keys -> dict_get k acc = None) ->
  exists w',
    ApiHandler.pattern_loop keys acc w
    = (Ok (acc ++ pattern_results (w_redis w) keys)%list, w')
    /\ w_now w' = w_now w.
Proof.
  revert acc w. induction keys as [|k rest IH]; intros acc w F ND Fresh.
  - exists w. cbn. rewrite app_nil_r. split; reflexivity.
  - apply NoDup_cons in ND as [Nk ND]. rewrite list_elem_of_In in Nk.
    assert (Fk : dict_get k acc = None) by (apply Fresh; left; reflexivity).
    cbn [ApiHandler.pattern_loop pattern_results].
    destruct (redis_on_reads TYPE k type_step w) as (w1 & E1 & S1 & F1 & N1);
      [intros e; reflexivity | exact F |].
    assert (Step : exists w2,
      try_except
        (key_type <- redis_type k ;;
         if String.eqb key_type "string" then
           v <- redis_get k ;; ret (dict_set k (opt_json v) acc)
         else if String.eqb key_type "hash" then
           h <- redis_hgetall k ;; ret (dict_set k (hash_json h) acc)
         else ret acc)
        (fun e => ret (dict_set k (JStr ("Error: " +:+ exn_str e)) acc)) w
      = (Ok (match decoded (w_redis w) k with
             | Some v => (acc ++ [(k, v)])%list
             | None => acc
             end), w2)
      /\ w_redis w2 = w_redis w /\ w_redis_faults w2 = [] /\ w_now w2 = w_now w).
    { unfold try_except, bind, redis_type. rewrite E1. unfold decoded.
      destruct (w_redis w !! k) as [[[s|h|s|z|l] t]|] eqn:L; cbn.
      - destruct (redis_on_reads GET k get_step w1) as (w2 & E2 & S2 & F2 & N2);
          [intros [[[]]|]; reflexivity | exact F1 |].
        unfold redis_get. rewrite E2, S1, L. cbn.
        rewrite dict_set_fresh by exact Fk.
        exists w2. repeat split; congruence.
      - destruct (redis_on_reads HGETALL k hgetall_step w1) as (w2 & E2 & S2 & F2 & N2);
          [intros [[[]]|]; reflexivity | exact F1 |].
        unfold redis_hgetall. rewrite E2, S1, L. cbn.
        rewrite dict_set_fresh by exact Fk.
        exists w2. repeat split; congruence.
      - exists w1. repeat split; congruence.
      - exists w1. repeat split; congruence.
      - exists w1. repeat split; congruence.
      - exists w1. repeat split; congruence. }
    destruct Step as (w2 & E2 & S2 & F2 & N2).
    rewrite (bind_step _ _ _ _ _ E2).
    destruct (IH (match decoded (w_redis w) k with
                  | Some v => (acc ++ [(k, v)])%list
                  | None => acc
                  end) w2 F2 ND) as (w' & E & N).
    { intros k' Hk'. destruct (decoded (w_redis w) k); [|apply Fresh; right; exact Hk'].
      rewrite dict_get_app, (Fresh k' (or_intror Hk')). cbn.
      destruct (String.eqb_spec k k') as [->|Ne]; [contradiction | reflexivity]. }
    exists w'. rewrite E, S2. split; [|congruence].
    destruct (decoded (w_redis w) k); [rewrite <- app_assoc|]; reflexivity.
Qed.

Lemma NoDup_matching pattern st : NoDup (matching pattern st).
Proof.
  unfold matching.
  assert (ND : NoDup (map fst (map_to_list st))) by exact (NoDup_fst_map_to_list st).
  induction ND as [|k l Nk ND IH]; cbn; [constructor|].
  destruct (glob_match pattern k); [|exact IH].
  constructor; [|exact IH].
  rewrite list_elem_of_In, filter_In. rewrite list_elem_of_In in Nk. tauto.
Qed.

Lemma firstn_incl {A : Type} n (l : list A) x : In x (firstn n l) -> In x l.
Proof.
  revert n. induction l as [|a l IH]; intros [|n]; cbn; try tauto.
  intros [->|I]; [left; reflexivity | right; exact (IH n I)].
Qed.

Lemma NoDup_firstn {A : Type} n (l : list A) : NoDup l -> NoDup (firstn n l).
Proof.
  intros ND. revert n. induction ND as [|a l Na ND IH]; intros [|n]; cbn;
    try constructor; [|apply IH].
  rewrite list_elem_of_In in *. intros I. apply Na. exact (firstn_incl n l a I).
Qed.

Lemma cap_is_firstn (keys : list string) :
  (if (100 <? length keys)%nat then firstn 100 keys else keys) = capped keys.
Proof.
  unfold capped. destruct (Nat.ltb_spec 100 (length keys)); [reflexivity|].
  symmetry. apply firstn_all2. lia.
Qed.

Lemma pattern_lookup_quiet pattern w :
  w_redis_faults w = [] ->
  exists w',
    ApiHandler.pattern_lookup pattern w
    = (Ok (pattern_reply pattern
             (pattern_results (w_redis w) (capped (matching pattern (w_redis w))))), w')
    /\ w_now w' = w_now w.
Proof.
  intros F. unfold ApiHandler.pattern_lookup, redis_keys.
  assert (K : exists w1,
    redis_call KEYS pattern
      (fun st => (Ok (List.filter (glob_match pattern) (map fst (map_to_list st))), st)) w
    = (Ok (matching pattern (w_redis w)), w1)
    /\ w_redis w1 = w_redis w /\ w_redis_faults w1 = [] /\ w_now w1 = w_now w).
  { unfold redis_call. rewrite F. eexists. split; [reflexivity|]. cbn. auto. }
  destruct K as (w1 & K & S1 & F1 & N1).
  rewrite (bind_step _ _ _ _ _ K). rewrite cap_is_firstn.
  destruct (pattern_loop_quiet (capped (matching pattern (w_redis w))) [] w1 F1)
    as (w2 & L & N2).
  { apply NoDup_firstn, NoDup_matching. }
  { reflexivity. }
  rewrite (bind_step _ _ _ _ _ L). cbn [app]. rewrite S1.
  exists w2. split; [reflexivity | congruence].
Qed.

Lemma handle_cache_lookup_pattern_quiet qp pattern w :
  opt_truthy (dict_get "key" qp) = false ->
  dict_get "pattern" qp = Some pattern -> pattern <> "" ->
  self_redis_client w = false -> is_Some (w_redis_conf w) ->
  w_redis_faults w = [] ->
  exists w',
    ApiHandler.handle_cache_lookup qp w
    = (Ok (pattern_reply pattern
             (pattern_results (w_redis w) (capped (matching pattern (w_redis w))))), w')
    /\ w_now w' = w_now w.
Proof.
  intros Hk Hp Ne Hs Hc F.
  destruct (get_redis_client_fresh w Hs) as (w1 & C & S1 & F1 & _ & _ & _ & N1 & _).
  { split; [exact Hc | rewrite F; discriminate]. }
  rewrite F in F1. cbn in F1.
  unfold ApiHandler.handle_cache_lookup.
  rewrite (bind_step _ _ _ _ _ C), Hk, Hp. cbn [negb andb opt_truthy].
  assert (T : String.eqb pattern "" = false) by (apply String.eqb_neq; exact Ne).
  rewrite T. cbn [negb default].
  destruct (pattern_lookup_quiet pattern w1 F1) as (w2 & L & N2).
  rewrite (try_except_pass _ _ _ _ _ L), S1.
  exists w2. split; [reflexivity | congruence].
Qed.

Lemma pattern_results_hit st keys k v :
  decoded st k = Some v -> In k keys ->
  dict_get k (pattern_results st keys) = Some v.
Proof.
  intros D. induction keys as [|k' rest IH]; cbn; [tauto|].
  intros [->|I].
  - rewrite D. cbn. rewrite String.eqb_refl. reflexivity.
  - destruct (decoded st k') as [v'|] eqn:E; [|exact (IH I)].
    cbn. destruct (String.eqb_spec k' k) as [->|Ne]; [congruence | exact (IH I)].
Qed.

Lemma capped_length (keys : list string) : (length (capped keys) <= 100)%nat.
Proof. unfold capped. apply firstn_le_length. Qed.

(** C7, as the code has it: in a pattern lookup served by a reachable
    Redis, each of the (at most 100) keys gone through that holds a
    string or a hash is reported with its value, a key of any other type
    is left out of the results altogether (it is not reported as
    unsupported, and it does not fail the request), and [count] is the
    number of entries of [results]. *)
Theorem pattern_lookup_omits_other_types (method : option string)
    (qp : list (string * string)) (pattern : string) (w : world) :
  default "GET" method = "GET" ->
  opt_truthy (dict_get "key" qp) = false ->
  dict_get "pattern" qp = Some pattern -> pattern <> "" ->
  is_Some (w_redis_conf w) -> w_redis_faults w = [] ->
  let keys := capped (matching pattern (w_redis w)) in
  let results := pattern_results (w_redis w) keys in
  (exists w',
      ApiHandler.lambda_handler (ApiEvent method (Some "/cache") (Some qp)) w
      = (Ok (pattern_reply pattern results), w'))
  /\ (forall k v, In k keys -> decoded (w_redis w) k = Some v ->
                  dict_get k results = Some v)
  /\ (forall k, decoded (w_redis w) k = None -> dict_get k results = None)
  /\ (length results <= length keys <= 100)%nat.
Proof.
  intros Hm Hk Hp Ne Hc F keys results.
  split; [|split; [|split]].
  - destruct (handle_cache_lookup_pattern_quiet qp pattern
                (api_entry (ApiEvent method (Some "/cache") (Some qp)) w)
                Hk Hp Ne eq_refl Hc F) as (w1 & E & _).
    destruct (lambda_handler_cache method qp w Hm _ _ E) as (w' & L & _).
    exists w'. exact L.
  - intros k v I D. apply pattern_results_hit; assumption.
  - intros k D. apply pattern_results_omits. exact D.
  - split; [apply pattern_results_length | apply capped_length].
Qed.

(** C9, as the code has it: when more than 100 keys match the pattern of
    a lookup served by a reachable Redis, the reply is a success, only
    the first 100 keys returned are gone through, and [results] has at
    most 100 entries: exactly 100, one per key, when these 100 keys hold
    strings or hashes (as the keys [user:*] do). *)
Theorem pattern_lookup_is_capped (method : option string)
    (qp : list (string * string)) (pattern : string) (w : world) :
  default "GET" method = "GET" ->
  opt_truthy (dict_get "key" qp) = false ->
  dict_get "pattern" qp = Some pattern -> pattern <> "" ->
  is_Some (w_redis_conf w) -> w_redis_faults w = [] ->
  (100 < length (matching pattern (w_redis w)))%nat ->
  exists results w',
    ApiHandler.lambda_handler (ApiEvent method (Some "/cache") (Some qp)) w
    = (Ok (pattern_reply pattern results), w')
    /\ (forall k, In k (map fst results) ->
                  In k (firstn 100 (matching pattern (w_redis w))))
    /\ (length results <= 100)%nat
    /\ (forallb (reportable (w_redis w))
                (firstn 100 (matching pattern (w_redis w))) = true ->
        length results = 100%nat
        /\ map fst results = firstn 100 (matching pattern (w_redis w))).
Proof.
  intros Hm Hk Hp Ne Hc F Many.
  destruct (handle_cache_lookup_pattern_quiet qp pattern
              (api_entry (ApiEvent method (Some "/cache") (Some qp)) w)
              Hk Hp Ne eq_refl Hc F) as (w1 & E & _).
  destruct (lambda_handler_cache method qp w Hm _ _ E) as (w' & L & _).
  eexists _, w'. split; [exact L|]. cbn [api_entry w_redis with_clients with_log].
  split; [|split].
  - intros k. apply pattern_results_fst.
  - etransitivity; [apply pattern_results_length | apply capped_length].
  - intros All. unfold capped.
    assert (M : map fst (pattern_results (w_redis w)
                           (firstn 100 (matching pattern (w_redis w))))
                = firstn 100 (matching pattern (w_redis w)))
      by (apply pattern_results_all; exact All).
    split; [|exact M].
    rewrite <- (length_map fst), M, length_firstn. lia.
Qed.

(** ** Cache-aside search *)

Lemma lambda_handler_search method qp w :
  default "GET" method = "GET" ->
  forall r w1,
    ApiHandler.handle_search qp (api_entry (ApiEvent method (Some "/search") (Some qp)) w)
    = (r, w1) ->
    exists w',
      ApiHandler.lambda_handler (ApiEvent method (Some "/search") (Some qp)) w
      = (Ok (match r with Ok resp => resp | Raise e => last_resort_reply e w1 end), w')
      /\ w_redis w' = w_redis w1 /\ w_redis_faults w' = w_redis_faults w1
      /\ w_redis_conf w' = w_redis_conf w1 /\ w_os_conf w' = w_os_conf w1.
Proof.
  intros Hm r w1 R.
  unfold ApiHandler.lambda_handler.
  cbn -[ApiHandler.handle_search ApiHandler.create_response].
  rewrite Hm. cbn -[ApiHandler.handle_search ApiHandler.create_response].
  unfold bind at 1. unfold logger at 1. unfold bind at 1.
  change (with_clients false false _) with
    (api_entry (ApiEvent method (Some "/search") (Some qp)) w).
  destruct r as [resp|e].
  - rewrite (try_except_pass _ _ _ _ _ R). eauto 10.
  - rewrite (try_except_catch _ _ _ _ _ R).
    eexists. split; [reflexivity|]. cbn. auto.
Qed.

Lemma format_results_total reply results :
  ApiHandler.format_results reply = Ok results ->
  exists total, py_getitem results "total" = Ok total.
Proof.
  unfold ApiHandler.format_results.
  destruct (py_getitem reply "hits") as [hits|]; [|discriminate].
  destruct (py_getitem hits "hits") as [hit_list|]; [|discriminate].
  destruct (py_iter hit_list) as [items|]; [|discriminate].
  destruct (sources_of items) as [sources|]; [|discriminate].
  destruct (py_getitem hits "total") as [total_raw|]; [|discriminate].
  destruct (match total_raw with JDict _ => _ | _ => _ end) as [total|]; [|discriminate].
  destruct (py_getitem hits "max_score") as [max_score|]; [|discriminate].
  intros [= <-]. exists total. reflexivity.
Qed.



Lemma handle_search_hit qp n s t results w :
  requested_size qp = Some n ->
  self_opensearch_client w = false -> self_redis_client w = false ->
  opensearch_configured w -> is_Some (w_redis_conf w) ->
  w_redis_faults w = [] ->
  w_redis w !! fingerprint qp n = Some (Entry (RString s) t) ->
  s <> "" -> json_loads s = Some results ->
  exists w', ApiHandler.handle_search qp w = (Ok (search_reply qp true results), w').
Proof.
  intros Hn So Sr Co Cr F Hit Ne Load.
  destruct (get_opensearch_client_fresh w So Co)
    as (w1 & E1 & R1 & F1 & _ & C1 & S1 & P1 & _).
  destruct (get_redis_client_fresh w1) as (w2 & E2 & R2 & F2 & _ & P2 & _).
  { rewrite S1. exact Sr. }
  { split; [rewrite C1; exact Cr | rewrite F1, F; discriminate]. }
  rewrite F1, F in F2. cbn in F2. rewrite R1 in R2.
  unfold ApiHandler.handle_search.
  rewrite (bind_step _ _ _ _ _ E1), (bind_step _ _ _ _ _ E2).
  assert (Hreq : (match dict_get "size" qp with
                  | Some s => match py_int s with
                              | Some n0 => ret n0
                              | None => raise (ValueError
                                  ("invalid literal for int() with base 10: "
                                   +:+ py_repr (JStr s)))
                              end
                  | None => ret 10
                  end) w2 = (Ok n, w2)).
  { unfold requested_size in Hn. destruct (dict_get "size" qp) as [s0|].
    - rewrite Hn. reflexivity.
    - injection Hn as <-. reflexivity. }
  rewrite (bind_step _ _ _ _ _ Hreq).
  fold (query_of qp). fold (index_of qp). fold (fingerprint qp n).
  destruct (redis_on_reads GET (fingerprint qp n) get_step w2) as (w3 & E3 & _);
    [intros [[[]]|]; reflexivity | exact F2 |].
  unfold try_except, bind, redis_get. rewrite E3, R2, Hit. cbn.
  assert (T : String.eqb s "" = false) by (apply String.eqb_neq; exact Ne).
  rewrite T. cbn. rewrite Load. cbn.
  eexists. reflexivity.
Qed.


Lemma lookup_elapse st k v t d :
  st !! k = Some (Entry v (Some t)) -> d < t ->
  elapse d st !! k = Some (Entry v (Some (t - d))).
Proof.
  intros L Lt. unfold elapse. rewrite lookup_omap, L. cbn. unfold age. cbn.
  destruct (Z.leb_spec (t - d) 0); [lia | reflexivity].
Qed.


(** ** Cache writes: expiry and counters *)

Lemma redis_on_Ok {A : Type} c k (f : option entry -> outcome A * option entry)
    w a w' :
  redis_on c k f w = (Ok a, w') ->
  exists e', f (w_redis w !! k) = (Ok a, e')
             /\ w_redis w' = partial_alter (fun _ => e') k (w_redis w)
             /\ w_today w' = w_today w.
Proof.
  unfold redis_on, redis_call.
  destruct (w_redis_faults w) as [|[] fs];
    try (intros [= ]; fail);
    destruct (f (w_redis w !! k)) as [r e'] eqn:E; intros [= -> <-];
    exists e'; repeat split; reflexivity.
Qed.

Lemma stores_hset fields : stores (hset_step fields).
Proof.
  intros [[[] t]|] a e'; cbn; intros [= <- <-] || intros [= ]; eauto.
Qed.

Lemma stores_incr : stores incr_step.
Proof.
  intros [[[s| | | |] t]|] a e'; cbn; try (intros [= ]; fail);
    try (intros [= <- <-]; eauto; fail).
  destruct (Z_of_str s) as [z|]; [|intros [= ]].
  destruct (_ || _); [intros [= ]|].
  destruct (z =? int64_max); [intros [= ] | intros [= <- <-]; eauto].
Qed.

Lemma stores_zincrby amount member : stores (zincrby_step amount member).
Proof.
  intros [[[] t]|] a e'; cbn; intros [= <- <-] || intros [= ]; eauto.
Qed.

Lemma stores_sadd member : stores (sadd_step member).
Proof.
  intros [[[] t]|] a e'; cbn; intros [= <- <-] || intros [= ]; eauto.
Qed.

(** A write to [k] followed by [EXPIRE k s], both successful, leaves [k]
    with [s] seconds and every other key as it was. *)
Lemma write_then_expire {A : Type} c k
    (f : option entry -> outcome A * option entry) s w a w1 b w2 :
  stores f ->
  redis_on c k f w = (Ok a, w1) ->
  redis_expire k s w1 = (Ok b, w2) ->
  expires_in (w_redis w2) k s
  /\ differ_at k (w_redis w) (w_redis w2)
  /\ w_today w2 = w_today w.
Proof.
  intros St W X.
  apply redis_on_Ok in W as (e1 & F1 & R1 & T1).
  apply redis_on_Ok in X as (e2 & F2 & R2 & T2).
  destruct (St _ _ _ F1) as [[v t] ->].
  rewrite R1, lookup_partial_alter_eq in F2. cbn in F2. injection F2 as <- <-.
  split; [|split].
  - exists v. rewrite R2. apply lookup_partial_alter_eq.
  - intros k' N. rewrite R2, R1.
    rewrite !lookup_partial_alter_ne by congruence. reflexivity.
  - congruence.
Qed.

(** Keys of different classes differ, whatever fills their placeholders;
    the proofs below settle each such inequality this way. *)
Lemma key_classes_apart a b today :
  "session:" +:+ a <> "user:" +:+ b
  /\ "session:" +:+ a <> "search_queries:" +:+ today
  /\ "product:" +:+ a <> "product_search:" +:+ b
  /\ "session:" +:+ a <> "popular_products"
  /\ "counters:" +:+ today +:+ ":" +:+ a <> "search_queries:" +:+ today.
Proof. repeat split; cbn; discriminate. Qed.

Lemma touched_app l1 l2 st st1 st' :
  touched l1 st st1 -> touched l2 st1 st' -> touched (l1 ++ l2)%list st st'.
Proof.
  intros T1. revert st'. induction T1 as [|k t rest a b c X D T IH]; intros st' T2.
  - exact T2.
  - cbn. econstructor; eauto.
Qed.

Lemma touched_frame l st st' k :
  touched l st st' -> ~ In k (map fst l) -> st' !! k = st !! k.
Proof.
  induction 1 as [|k0 t rest a b c X D T IH]; cbn; [reflexivity|].
  intros N. rewrite IH by tauto. apply D. intros ->. apply N. left. reflexivity.
Qed.

Lemma touched_expires l st st' k t :
  touched l st st' -> NoDup (map fst l) -> In (k, t) l -> expires_in st' k t.
Proof.
  induction 1 as [|k0 t0 rest a b c X D T IH]; cbn; [tauto|].
  intros ND [[= -> ->]|I].
  - apply NoDup_cons in ND as [N _]. rewrite list_elem_of_In in N.
    destruct X as [v L]. exists v. rewrite (touched_frame _ _ _ _ T N). exact L.
  - apply NoDup_cons in ND as [_ ND]. exact (IH ND I).
Qed.

Tactic Notation "next" hyp(H) ident(x) ident(w) ident(R) :=
  apply bind_Ok in H as (x & w & R & H).
Tactic Notation "pure" hyp(R) := apply lift_Ok in R as [R ->].

Lemma redis_hset_Ok name mapping w n w' :
  redis_hset name mapping w = (Ok n, w') ->
  exists fields, redis_on HSET name (hset_step fields) w = (Ok n, w').
Proof.
  unfold redis_hset. intros E. next E fields w1 S. pure S. eauto.
Qed.

Lemma redis_zincrby_Ok name amount value w n w' :
  redis_zincrby name amount value w = (Ok n, w') ->
  exists member, redis_on ZINCRBY name (zincrby_step amount member) w = (Ok n, w').
Proof.
  unfold redis_zincrby. intros E. next E member w1 S. pure S. eauto.
Qed.

Lemma incr_then_expire k s w a w1 b w2 :
  redis_incr k w = (Ok a, w1) ->
  redis_expire k s w1 = (Ok b, w2) ->
  forall v, counter_read (w_redis w) k = Some v ->
            counter_read (w_redis w2) k = Some (v + 1).
Proof.
  intros W X v. unfold counter_read.
  apply redis_on_Ok in W as (e1 & F1 & R1 & T1).
  apply redis_on_Ok in X as (e2 & F2 & R2 & T2).
  rewrite R2, lookup_partial_alter_eq.
  rewrite R1, lookup_partial_alter_eq in F2.
  destruct (w_redis w !! k) as [[[txt| | | |] t]|]; cbn in F1; try discriminate.
  - destruct (Z_of_str txt) as [z|]; [|discriminate].
    destruct (_ || _); [discriminate|].
    destruct (z =? int64_max); [discriminate|].
    injection F1 as <- <-. cbn in F2. injection F2 as <- <-.
    intros [= <-]. apply Z_of_str_of_Z.
  - injection F1 as <- <-. cbn in F2. injection F2 as <- <-.
    intros [= <-]. reflexivity.
Qed.

(** A successful [cache_user_data], step by step. *)
Lemma cache_user_data_Ok event w w' :
  DataProcessor.cache_user_data event w = (Ok tt, w') ->
  exists user_id session_id event_type has_product has_query st4 st6,
    py_getitem event "user_id" = Ok user_id
    /\ py_getitem event "session_id" = Ok session_id
    /\ py_getitem event "event_type" = Ok event_type
    /\ py_contains "product_id" event = Ok has_product
    /\ (if is_str event_type "search"
        then py_contains "search_query" event = Ok has_query
        else has_query = false)
    /\ touched [("session:" +:+ py_str session_id, 3600);
                ("user:" +:+ py_str user_id, 86400)] (w_redis w) st4
    /\ touched [("counters:" +:+ w_today w +:+ ":" +:+ py_str event_type, 604800)]
               st4 st6
    /\ (forall v,
          counter_read st4 ("counters:" +:+ w_today w +:+ ":" +:+ py_str event_type)
          = Some v ->
          counter_read st6 ("counters:" +:+ w_today w +:+ ":" +:+ py_str event_type)
          = Some (v + 1))
    /\ touched (late_event_keys (w_today w) has_product has_query) st6 (w_redis w')
    /\ w_today w' = w_today w.
Proof.
  intros E. unfold DataProcessor.cache_user_data in E.
  next E user_id w1 S1. pure S1.
  next E session_id w1 S2. pure S2.
  next E la w1 S3. pure S3. next E le w1 S4. pure S4.
  next E dt w1 S5. pure S5. next E loc w1 S6. pure S6.
  next E n1 w1 H1. apply redis_hset_Ok in H1 as (f1 & H1).
  next E b1 w2 X1.
  destruct (write_then_expire _ _ _ _ _ _ _ _ _ (stores_hset f1) H1 X1) as (A1 & D1 & T1).
  next E la2 w3 S7. pure S7. next E le2 w3 S8. pure S8.
  next E n2 w3 H2. apply redis_hset_Ok in H2 as (f2 & H2).
  next E b2 w4 X2.
  destruct (write_then_expire _ _ _ _ _ _ _ _ _ (stores_hset f2) H2 X2) as (A2 & D2 & T2).
  next E event_type w5 S9. pure S9.
  next E today w5 S10. injection S10 as <- <-.
  next E n3 w5 H3. next E b3 w6 X3.
  destruct (write_then_expire _ _ _ _ _ _ _ _ _ stores_incr H3 X3) as (A3 & D3 & T3).
  pose proof (incr_then_expire _ _ _ _ _ _ _ H3 X3) as C3.
  next E has_product w7 S11. pure S11.
  next E u w8 P.
  next E has_query w9 Q.
  rewrite T2, T1 in *.
  assert (TP : touched (if has_product then [("popular_products", 86400)] else [])
                       (w_redis w6) (w_redis w8) /\ w_today w8 = w_today w6).
  { destruct has_product.
    - next P pid w7 S12. pure S12.
      next P n4 w7 H4. apply redis_zincrby_Ok in H4 as (m4 & H4).
      next P b4 w7' X4. unfold ret in P. injection P as _ <-.
      destruct (write_then_expire _ _ _ _ _ _ _ _ _ (stores_zincrby 1 m4) H4 X4)
        as (A4 & D4 & T4).
      split; [|exact T4]. econstructor; [exact A4 | exact D4 | constructor].
    - unfold ret in P. injection P as _ <-. split; [constructor | reflexivity]. }
  destruct TP as [TP T8].
  assert (Q' : (if is_str event_type "search"
                then py_contains "search_query" event = Ok has_query
                else has_query = false) /\ w9 = w8).
  { destruct (is_str event_type "search").
    - pure Q. auto.
    - injection Q as <- <-. auto. }
  destruct Q' as [Q' ->].
  assert (TQ : touched (if has_query
                        then [("search_queries:" +:+ w_today w, 604800)] else [])
                       (w_redis w8) (w_redis w') /\ w_today w' = w_today w8).
  { destruct has_query.
    - next E sq w9 S13. pure S13.
      next E n5 w9 H5. apply redis_zincrby_Ok in H5 as (m5 & H5).
      next E b5 w10 X5. unfold ret in E. injection E as <-.
      destruct (write_then_expire _ _ _ _ _ _ _ _ _ (stores_zincrby 1 m5) H5 X5)
        as (A5 & D5 & T5).
      split; [|exact T5]. econstructor; [exact A5 | exact D5 | constructor].
    - unfold ret in E. injection E as <-. split; [constructor | reflexivity]. }
  destruct TQ as [TQ T9].
  exists user_id, session_id, event_type, has_product, has_query,
    (w_redis w4), (w_redis w6).
  repeat split; try assumption.
  - econstructor; [exact A1 | exact D1 |].
    econstructor; [exact A2 | exact D2 | constructor].
  - econstructor; [exact A3 | exact D3 | constructor].
  - unfold late_event_keys. eapply touched_app; eassumption.
  - congruence.
Qed.

Lemma redis_set_ex_Ok name value ex w b w' :
  redis_set_ex name value ex w = (Ok b, w') ->
  expires_in (w_redis w') name ex /\ differ_at name (w_redis w) (w_redis w').
Proof.
  unfold redis_set_ex. intros E. next E v w1 S1. pure S1.
  apply redis_on_Ok in E as (e' & F & R & _).
  unfold set_ex_step in F. injection F as _ <-. split.
  - eexists. rewrite R, lookup_partial_alter_eq. reflexivity.
  - intros k N. rewrite R. apply lookup_partial_alter_ne. congruence.
Qed.

Lemma redis_sadd_Ok name value w n w' :
  redis_sadd name value w = (Ok n, w') ->
  exists member, redis_on SADD name (sadd_step member) w = (Ok n, w').
Proof.
  unfold redis_sadd. intros E. next E member w1 S1. pure S1. eauto.
Qed.

(** A successful [cache_product_data], step by step. *)
Lemma cache_product_data_Ok product w w' :
  DataProcessor.cache_product_data product w = (Ok tt, w') ->
  exists id category name,
    py_getitem product "id" = Ok id
    /\ py_getitem product "category" = Ok category
    /\ py_getitem product "name" = Ok (JStr name)
    /\ touched [("product:" +:+ py_str id, 3600);
                ("category_products:" +:+ py_str category, 86400);
                ("product_search:" +:+ py_lower name, 3600)]
               (w_redis w) (w_redis w').
Proof.
  intros E. unfold DataProcessor.cache_product_data in E.
  next E id w1 S1. pure S1.
  next E name0 w1 S2. pure S2. next E cat0 w1 S3. pure S3.
  next E price w1 S4. pure S4. next E brand w1 S5. pure S5.
  next E rating w1 S6. pure S6. next E stock w1 S7. pure S7.
  next E active w1 S8. pure S8.
  next E n1 w1 H1. apply redis_hset_Ok in H1 as (f1 & H1).
  next E b1 w2 X1.
  destruct (write_then_expire _ _ _ _ _ _ _ _ _ (stores_hset f1) H1 X1) as (A1 & D1 & _).
  next E category w3 S9. pure S9.
  next E n2 w3 H2. apply redis_sadd_Ok in H2 as (m2 & H2).
  next E b2 w4 X2.
  destruct (write_then_expire _ _ _ _ _ _ _ _ _ (stores_sadd m2) H2 X2) as (A2 & D2 & _).
  next E name w5 S10. pure S10.
  next E lowered w5 L.
  destruct name as [| | | |s| |]; try (unfold raise in L; discriminate).
  unfold ret in L. injection L as <- <-.
  next E b3 w6 H3. unfold ret in E. injection E as <-.
  apply redis_set_ex_Ok in H3 as (A3 & D3).
  exists id, category, s. repeat split; try assumption.
  econstructor; [exact A1 | exact D1 |].
  econstructor; [exact A2 | exact D2 |].
  econstructor; [exact A3 | exact D3 | constructor].
Qed.

Ltac distinct_keys :=
  repeat first [apply NoDup_cons_2 | apply NoDup_nil_2];
  rewrite ?not_elem_of_cons; repeat split;
  first [apply not_elem_of_nil | cbn; discriminate].

Lemma ttl_reply_expires st key t d :
  expires_in st key t -> 0 <= d < t ->
  ttl_reply st key = t /\ 0 < ttl_reply (elapse d st) key <= t.
Proof.
  intros [v L] Hd. unfold ttl_reply.
  rewrite (lookup_elapse st key v t d L) by lia. rewrite L. cbn. lia.
Qed.

#[local] Instance class_kept_preorder : PreOrder class_kept.
Proof.
  split.
  - intros st key. left. reflexivity.
  - intros a b c Hab Hbc key.
    destruct (Hab key) as [E1|(c1 & C1 & S1 & T1)];
      destruct (Hbc key) as [E2|(c2 & C2 & S2 & T2)].
    + left. congruence.
    + right. exists c2. rewrite <- E1. repeat split; assumption.
    + right. exists c1. rewrite E2. repeat split; assumption.
    + right. exists c1. replace c2 with c1 in * by congruence.
      split; [exact C1|]. split; [exact S2|].
      destruct T2 as [T2|T2]; [left; exact T2 | rewrite T2; exact T1].
Qed.

Lemma class_kept_at key c st e' :
  class_of key = Some c ->
  e' = st !! key \/ ttl_kept c (st !! key) e' ->
  class_kept st (partial_alter (fun _ => e') key st).
Proof.
  intros C Step k. destruct (decide (k = key)) as [->|N].
  - rewrite lookup_partial_alter_eq. destruct Step as [->|K]; [left; reflexivity|].
    right. exists c. split; assumption.
  - left. apply lookup_partial_alter_ne. congruence.
Qed.

(** The write commands leave the expiry of their key alone. *)
Lemma hset_step_ttl c fields e r e' :
  hset_step fields e = (r, e') -> e' = e \/ ttl_kept c e e'.
Proof.
  destruct e as [[[] t]|]; cbn; intros E; injection E as <- <-;
    first [left; reflexivity | right; split; [eauto | right; reflexivity]].
Qed.

Lemma incr_step_ttl c e r e' :
  incr_step e = (r, e') -> e' = e \/ ttl_kept c e e'.
Proof.
  destruct e as [[[s| | | |] t]|]; cbn;
    try (intros E; injection E as <- <-;
         first [left; reflexivity | right; split; [eauto | right; reflexivity]]).
  destruct (Z_of_str s) as [z|]; [|intros E; injection E as <- <-; left; reflexivity].
  destruct (_ || _); [intros E; injection E as <- <-; left; reflexivity|].
  destruct (z =? int64_max); intros E; injection E as <- <-;
    first [left; reflexivity | right; split; [eauto | right; reflexivity]].
Qed.

Lemma zincrby_step_ttl c amount member e r e' :
  zincrby_step amount member e = (r, e') -> e' = e \/ ttl_kept c e e'.
Proof.
  destruct e as [[[] t]|]; cbn; intros E; injection E as <- <-;
    first [left; reflexivity | right; split; [eauto | right; reflexivity]].
Qed.

Lemma sadd_step_ttl c member e r e' :
  sadd_step member e = (r, e') -> e' = e \/ ttl_kept c e e'.
Proof.
  destruct e as [[[] t]|]; cbn; intros E; injection E as <- <-;
    first [left; reflexivity | right; split; [eauto | right; reflexivity]].
Qed.

(** [EXPIRE] and [SET ... EX] give their key the seconds they are called
    with. *)
Lemma expire_step_ttl c e r e' :
  expire_step (class_ttl c) e = (r, e') -> e' = e \/ ttl_kept c e e'.
Proof.
  destruct e as [[v t]|]; cbn; intros E; injection E as <- <-;
    first [left; reflexivity | right; split; [eauto | left; reflexivity]].
Qed.

Lemma set_ex_step_ttl c value e r e' :
  set_ex_step value (class_ttl c) e = (r, e') -> e' = e \/ ttl_kept c e e'.
Proof.
  unfold set_ex_step. intros E; injection E as <- <-.
  right. split; [eauto | left; reflexivity].
Qed.

Ltac class_steps :=
  repeat first
    [ keeps_step
    | keeps_apply @keeps_redis_on;
      intros;
      eapply class_kept_at; [reflexivity|];
      first [ eapply hset_step_ttl; eassumption
            | eapply incr_step_ttl; eassumption
            | eapply zincrby_step_ttl; eassumption
            | eapply sadd_step_ttl; eassumption
            | eapply expire_step_ttl; eassumption
            | eapply set_ex_step_ttl; eassumption ] ].

(** Whatever it does and however it ends, caching a record changes keys
    of the eight classes only, and leaves none of them with an expiry
    other than the one of its class or the one it had. *)
Lemma cache_keeps_classes k record : keeps class_kept (cache k record).
Proof.
  destruct k; cbn [cache].
  - unfold DataProcessor.cache_user_data, redis_hset, redis_expire, redis_incr,
      redis_zincrby.
    class_steps.
  - unfold DataProcessor.cache_product_data, redis_hset, redis_expire, redis_sadd,
      redis_set_ex.
    class_steps.
Qed.

Lemma writes_class_of k today record c key :
  writes k today record c key -> class_of key = Some c.
Proof. destruct 1; reflexivity. Qed.

Lemma ttl_kept_reply c st st' key :
  ttl_kept c (st !! key) (st' !! key) ->
  ttl_reply st' key = class_ttl c
  \/ (is_Some (st !! key) /\ ttl_reply st' key = ttl_reply st key)
  \/ (st !! key = None /\ ttl_reply st' key = -1).
Proof.
  unfold ttl_kept, ttl_reply, ttl_of. intros [[[v' t'] ->] T]. cbn in *.
  destruct T as [-> | ->]; [left; reflexivity|].
  destruct (st !! key) as [[v t]|]; cbn.
  - right. left. split; [eauto | reflexivity].
  - right. right. split; reflexivity.
Qed.

(** C5, as the code has it: a cache write that runs to its end leaves
    every key it writes with the time to live of the key's class, whatever
    the record holds: read right away ([d = 0]) or any time before it runs
    out, the remaining time is positive and at most the class constant.
    The class of a key is fixed by the literal text in front of it.  The
    expiry is set by a command of its own after the write command, so a
    cache write that an exception cuts short can leave a key written
    without it: however a cache write ends, every key is as it was, or is
    a key of one of the eight classes and has the seconds of its class,
    the time to live it had before, or none if it was not there. *)
Theorem ttl_fixed_by_key_class (k : entity) (record : json) (w : world)
    (r : outcome unit) (w' : world) :
  cache k record w = (r, w') ->
  (r = Ok tt ->
   forall c key d,
     writes k (w_today w) record c key ->
     0 <= d < class_ttl c ->
     ttl_reply (w_redis w') key = class_ttl c
     /\ 0 < ttl_reply (elapse d (w_redis w')) key <= class_ttl c)
  /\ (forall c key, writes k (w_today w) record c key -> class_of key = Some c)
  /\ (forall key,
        w_redis w' !! key = w_redis w !! key
        \/ exists c,
             class_of key = Some c
             /\ (ttl_reply (w_redis w') key = class_ttl c
                 \/ (is_Some (w_redis w !! key)
                     /\ ttl_reply (w_redis w') key = ttl_reply (w_redis w) key)
                 \/ (w_redis w !! key = None
                     /\ ttl_reply (w_redis w') key = -1))).
Proof.
  intros Run. split; [|split].
  - intros -> c key d W Hd. apply ttl_reply_expires; [|exact Hd]. clear Hd d.
    destruct k; cbn [cache] in Run.
    + apply cache_user_data_Ok in Run
        as (uid & sid & et & hp & hq & st4 & st6 & G1 & G2 & G3 & G4 & G5
            & T1 & T2 & _ & T3 & _).
      pose proof (touched_app _ _ _ _ _ T1 (touched_app _ _ _ _ _ T2 T3)) as T.
      eapply touched_expires; [exact T | |].
      * unfold late_event_keys. destruct hp, hq; cbn; distinct_keys.
      * inversion W; subst; cbn.
        -- replace session_id with sid by congruence. auto.
        -- replace user_id with uid by congruence. auto.
        -- replace event_type with et by congruence. auto.
        -- replace hp with true by congruence. cbn. auto.
        -- replace et with (JStr "search") in * by congruence. cbn in G5.
           replace hq with true by congruence.
           unfold late_event_keys. destruct hp; cbn; tauto.
    + apply cache_product_data_Ok in Run as (id & cat & name & G1 & G2 & G3 & T).
      eapply touched_expires; [exact T | |].
      * cbn. distinct_keys.
      * inversion W; subst; cbn.
        -- replace id0 with id by congruence. auto.
        -- replace category with cat by congruence. auto.
        -- replace name0 with name by congruence. auto.
  - intros c key. apply writes_class_of.
  - intros key.
    destruct (cache_keeps_classes k record w r w' Run) as (Kept & _).
    destruct (Kept key) as [Same|(c & C & K)]; [left; exact Same|].
    right. exists c. split; [exact C|]. apply ttl_kept_reply. exact K.
Qed.

(** ** Event counters *)

#[local] Instance counter_le_preorder key : PreOrder (counter_le key).
Proof.
  split.
  - intros st v E. exists v. split; [exact E | lia].
  - intros a b c Hab Hbc v E.
    destruct (Hab v E) as (v1 & E1 & L1).
    destruct (Hbc v1 E1) as (v2 & E2 & L2).
    exists v2. split; [exact E2 | lia].
Qed.

Lemma counter_le_other key k st e' :
  k <> key -> counter_le key st (partial_alter (fun _ => e') k st).
Proof.
  intros N v E. exists v. split; [|lia].
  unfold counter_read in *. rewrite lookup_partial_alter_ne by exact N. exact E.
Qed.

Lemma counter_le_expire key k seconds st r e' :
  expire_step seconds (st !! k) = (r, e') ->
  counter_le key st (partial_alter (fun _ => e') k st).
Proof.
  intros F. destruct (decide (k = key)) as [->|N]; [|apply counter_le_other; exact N].
  intros v E. exists v. split; [|lia].
  unfold counter_read in *. rewrite lookup_partial_alter_eq.
  destruct (st !! key) as [[val t]|]; cbn in F; injection F as _ <-; exact E.
Qed.

Lemma counter_le_incr key k st r e' :
  incr_step (st !! k) = (r, e') ->
  counter_le key st (partial_alter (fun _ => e') k st).
Proof.
  intros F. destruct (decide (k = key)) as [->|N]; [|apply counter_le_other; exact N].
  intros v E. unfold counter_read in *. rewrite lookup_partial_alter_eq.
  destruct (st !! key) as [[[txt| | | |] t]|]; cbn in F; try discriminate.
  - rewrite E in F.
    destruct (_ || _); [injection F as _ <-; exists v; split; [exact E | lia]|].
    destruct (v =? int64_max); injection F as _ <-.
    + exists v. split; [exact E | lia].
    + exists (v + 1). split; [apply Z_of_str_of_Z | lia].
  - injection F as _ <-. injection E as <-. exists 1. split; [reflexivity | lia].
Qed.

Ltac counter_steps :=
  repeat first
    [ keeps_step
    | keeps_apply @keeps_redis_on;
      intros;
      first [ eapply counter_le_incr; eassumption
            | eapply counter_le_expire; eassumption
            | apply counter_le_other; cbn; discriminate ] ].

(** Whatever it does and however it ends, caching a record never takes a
    daily counter down. *)
Lemma cache_keeps_counters k record date event_type :
  keeps (counter_le ("counters:" +:+ date +:+ ":" +:+ event_type)) (cache k record).
Proof.
  destruct k; cbn [cache].
  - unfold DataProcessor.cache_user_data, redis_hset, redis_expire, redis_incr,
      redis_zincrby.
    counter_steps.
  - unfold DataProcessor.cache_product_data, redis_hset, redis_expire, redis_sadd,
      redis_set_ex.
    counter_steps.
Qed.

Lemma cached_event_counts event w w' v :
  DataProcessor.cache_user_data event w = (Ok tt, w') ->
  py_getitem event "event_type" = Ok (JStr "purchase") ->
  counter_read (w_redis w) ("counters:" +:+ w_today w +:+ ":purchase") = Some v ->
  counter_read (w_redis w') ("counters:" +:+ w_today w +:+ ":purchase") = Some (v + 1)
  /\ w_today w' = w_today w.
Proof.
  intros Run Ty C.
  apply cache_user_data_Ok in Run
    as (uid & sid & et & hp & hq & st4 & st6 & G1 & G2 & G3 & G4 & G5
        & T1 & T2 & Inc & T3 & Day).
  replace et with (JStr "purchase") in * by congruence. cbn [py_str] in *.
  split; [|exact Day].
  assert (E4 : st4 !! ("counters:" +:+ w_today w +:+ ":purchase")
               = w_redis w !! ("counters:" +:+ w_today w +:+ ":purchase")).
  { apply (touched_frame _ _ _ _ T1). cbn. intros [E|[E|[]]]; discriminate. }
  assert (E6 : w_redis w' !! ("counters:" +:+ w_today w +:+ ":purchase")
               = st6 !! ("counters:" +:+ w_today w +:+ ":purchase")).
  { apply (touched_frame _ _ _ _ T3). unfold late_event_keys.
    destruct hp, hq; cbn; intuition discriminate. }
  assert (C4 : counter_read st4 ("counters:" +:+ w_today w +:+ ":purchase") = Some v).
  { unfold counter_read in *. rewrite E4. exact C. }
  apply Inc in C4. unfold counter_read in *. rewrite E6. exact C4.
Qed.

(** C4: after [N] purchase events cached successfully on one day, the
    counter [counters:{date}:purchase] stands [N] above where it stood,
    that is at [N] when the key did not exist ([counter_read] is [0]
    there); and no cache write, of an event or of a product, successful
    or not, ever takes a counter down. *)
Theorem purchase_counter_counts (events : list json) (w w' : world) (v : Z) :
  Forall (fun event => py_getitem event "event_type" = Ok (JStr "purchase")) events ->
  cached_run events w w' ->
  counter_read (w_redis w) ("counters:" +:+ w_today w +:+ ":purchase") = Some v ->
  counter_read (w_redis w') ("counters:" +:+ w_today w +:+ ":purchase")
  = Some (v + Z.of_nat (length events))
  /\ (forall k record date event_type u r u' x,
        cache k record u = (r, u') ->
        counter_read (w_redis u) ("counters:" +:+ date +:+ ":" +:+ event_type) = Some x ->
        exists x',
          counter_read (w_redis u') ("counters:" +:+ date +:+ ":" +:+ event_type)
          = Some x' /\ x <= x').
Proof.
  intros All Run C. split.
  - revert v C All. induction Run as [w|event rest w w1 w' Step Run IH]; intros v C All.
    + cbn. rewrite Z.add_0_r. exact C.
    + apply Forall_cons in All as [Ty All].
      destruct (cached_event_counts event w w1 v Step Ty C) as [C1 Day].
      rewrite <- Day in *. specialize (IH _ C1 All).
      rewrite IH. f_equal. cbn [length]. lia.
  - intros k record date event_type u r u' x Step Cx.
    destruct (cache_keeps_counters k record date event_type u r u' Step) as [Le _].
    exact (Le x Cx).
Qed.

(** ** The per-record loop *)

Lemma loop_step k d rest n acts w :
  records_loop_of k (JDict d :: rest) n acts w
  = match attempt k (JDict d) w with
    | (Ok id, w1) =>
        records_loop_of k rest (n + 1) (acts ++ enqueued k (JDict d, id))%list w1
    | (Raise e, w1) =>
        records_loop_of k rest n acts
          (with_log (w_log w1 ++ [skip_record k (JDict d) e]) w1)
    end.
Proof.
  destruct k; cbn [records_loop_of DataProcessor.user_events_loop
                     DataProcessor.products_loop];
    unfold attempt, cache, try_except, bind, lift, logger, ret, py_getitem, py_get,
      skip_record.
  - destruct (DataProcessor.cache_user_data (JDict d) w) as [[[]|e] w1];
      [destruct (dict_get "id" d)|]; reflexivity.
  - destruct (DataProcessor.cache_product_data (JDict d) w) as [[[]|e] w1];
      [destruct (dict_get "id" d)|]; reflexivity.
Qed.

(** On a batch of JSON objects the loop never raises: a record whose
    cache write (or id lookup) raises is logged and skipped, the others
    are counted and enqueued for the bulk request, in order. *)
Lemma loop_gathers k records n acts w :
  Forall is_dict records ->
  exists kept w',
    records_loop_of k records n acts w
    = (Ok (n + Z.of_nat (length kept), (acts ++ flat_map (enqueued k) kept)%list), w')
    /\ gathers k records w kept w'.
Proof.
  intros All. revert n acts w.
  induction All as [|record rest [d ->] All IH]; intros n acts w.
  - exists [], w. cbn. destruct k; cbn; rewrite Z.add_0_r, app_nil_r;
      split; constructor.
  - rewrite loop_step.
    destruct (attempt k (JDict d) w) as [[id|e] w1] eqn:A.
    + destruct (IH (n + 1) (acts ++ enqueued k (JDict d, id))%list w1)
        as (kept & w' & L & G).
      exists ((JDict d, id) :: kept), w'. split; [|econstructor; eassumption].
      rewrite L. cbn [flat_map length]. rewrite <- app_assoc.
      replace (n + 1 + Z.of_nat (length kept))
        with (n + Z.of_nat (S (length kept))) by lia.
      reflexivity.
    + destruct (IH n acts (with_log (w_log w1 ++ [skip_record k (JDict d) e]) w1))
        as (kept & w' & L & G).
      exists kept, w'. split; [exact L | eapply gathers_skip; eassumption].
Qed.

(** The single flattened-event path of [process_data_batch] reports one
    processed record whatever [process_user_events] returns for it. *)
Lemma single_event_always_counts_one d w n w1 :
  dict_has "event_type" d = true ->
  dict_has "events" d = false -> dict_has "products" d = false ->
  DataProcessor.process_user_events (JList [JDict d]) w = (Ok n, w1) ->
  exists w', DataProcessor.process_data_batch (JDict d) w = (Ok 1, w').
Proof.
  intros Te Ne Np Run.
  unfold DataProcessor.process_data_batch, py_contains, lift, bind, logger, ret.
  rewrite Ne, Np, Te, Run. eexists. reflexivity.
Qed.

(** * Further properties of the two handlers *)

(** ** What a run returns *)

Section Returns.
Context {A : Type} (Q : A -> Prop).

Lemma returns_ret (a : A) : Q a -> returns Q (ret a).
Proof. intros Qa w a' w' [= <- <-]. exact Qa. Qed.

Lemma returns_raise (e : exn) : returns Q (raise e).
Proof. intros w a w' [= ]. Qed.

Lemma returns_bind {B : Type} (P : B -> Prop) (m : M B) (k : B -> M A) :
  returns P m -> (forall b, P b -> returns Q (k b)) -> returns Q (bind m k).
Proof.
  intros Hm Hk w a w' E. apply bind_Ok in E as (b & w1 & E1 & E2).
  exact (Hk b (Hm _ _ _ E1) _ _ _ E2).
Qed.

Lemma returns_then {B : Type} (m : M B) (k : B -> M A) :
  (forall b, returns Q (k b)) -> returns Q (bind m k).
Proof.
  intros Hk. apply (returns_bind (fun _ => True)); [intros ? ? ? ?; exact I | auto].
Qed.

Lemma returns_try_except (m : M A) (h : exn -> M A) :
  returns Q m -> (forall e, returns Q (h e)) -> returns Q (try_except m h).
Proof.
  intros Hm Hh w a w'. unfold try_except.
  destruct (m w) as [[a0|e] w1] eqn:E.
  - intros [= <- <-]. exact (Hm _ _ _ E).
  - apply Hh.
Qed.

End Returns.

Ltac returns_step :=
  first
    [ apply returns_raise
    | apply returns_ret
    | apply returns_then; intros ?
    | apply returns_try_except; [|intros ?]
    | match goal with
      | |- returns _ (if ?b then _ else _) => destruct b
      | |- returns _ (match ?x with _ => _ end) => destruct x
      end ].

Lemma create_response_api (status_code : Z) (body : json) :
  In status_code api_statuses ->
  api_response (ApiHandler.create_response status_code body).
Proof. intros I. split; [exact I | reflexivity]. Qed.

Ltac api_replies :=
  repeat first
    [ apply create_response_api; cbn; tauto
    | returns_step ].

Lemma handle_search_replies qp : returns api_response (ApiHandler.handle_search qp).
Proof.
  unfold ApiHandler.handle_search.
  do 3 (apply returns_then; intros ?).
  apply (returns_bind _ (fun c => forall resp, c = Some resp -> api_response resp)).
  - apply returns_try_except.
    + apply returns_then. intros c. destruct (opt_truthy c).
      * do 2 (apply returns_then; intros ?). apply returns_ret.
        intros resp [= <-]. apply create_response_api. cbn. tauto.
      * apply returns_ret. discriminate.
    + intros e. apply returns_then. intros _. apply returns_ret. discriminate.
  - intros [resp|] Hc.
    + apply returns_ret. auto.
    + api_replies.
Qed.

Lemma handle_cache_lookup_replies qp :
  returns api_response (ApiHandler.handle_cache_lookup qp).
Proof.
  unfold ApiHandler.handle_cache_lookup, ApiHandler.key_lookup,
    ApiHandler.pattern_lookup.
  api_replies.
Qed.

Lemma handle_user_lookup_replies qp :
  returns api_response (ApiHandler.handle_user_lookup qp).
Proof. unfold ApiHandler.handle_user_lookup. api_replies. Qed.

Lemma handle_analytics_replies qp :
  returns api_response (ApiHandler.handle_analytics qp).
Proof. unfold ApiHandler.handle_analytics. api_replies. Qed.

Lemma handle_metrics_replies qp :
  returns api_response (ApiHandler.handle_metrics qp).
Proof. unfold ApiHandler.handle_metrics. api_replies. Qed.

Lemma handle_health_check_replies :
  returns api_response ApiHandler.handle_health_check.
Proof.
  unfold ApiHandler.handle_health_check.
  do 3 (apply returns_then; intros ?). apply returns_ret.
  apply create_response_api. destruct (_ && _); cbn; tauto.
Qed.

(** The handler of last resort of a [lambda_handler] makes it total. *)
Lemma try_except_answers {A : Type} (m : M A) (h : exn -> M A) w :
  (forall e w1, exists a w', h e w1 = (Ok a, w')) ->
  exists a w', try_except m h w = (Ok a, w').
Proof.
  intros Hh. unfold try_except. destruct (m w) as [[a|e] w1]; eauto.
Qed.

(** X1: whatever the proxy event and whatever the stores do, the API handler
    ends with a response, never with an exception; the response has one
    of the five status codes 200, 400, 404, 500 and 503 and carries the
    CORS headers. *)
Theorem api_always_answers (event : api_event) (w : world) :
  exists resp w',
    ApiHandler.lambda_handler event w = (Ok resp, w')
    /\ In (statusCode resp) [200; 400; 404; 500; 503]
    /\ headers resp = Some cors_headers.
Proof.
  assert (R : returns api_response (ApiHandler.lambda_handler event)).
  { unfold ApiHandler.lambda_handler.
    do 2 (apply returns_then; intros ?).
    apply returns_try_except.
    - repeat match goal with
             | |- returns _ (if ?b then _ else _) => destruct b
             end;
        first [ apply handle_search_replies | apply handle_cache_lookup_replies
              | apply handle_user_lookup_replies | apply handle_analytics_replies
              | apply handle_health_check_replies | apply handle_metrics_replies
              | api_replies ].
    - intros e. api_replies. }
  assert (T : exists resp w', ApiHandler.lambda_handler event w = (Ok resp, w')).
  { unfold ApiHandler.lambda_handler.
    unfold bind at 1. unfold logger at 1. unfold bind at 1.
    apply try_except_answers. intros e w1. eexists _, _. reflexivity. }
  destruct T as (resp & w' & E). exists resp, w'. split; [exact E|].
  exact (R _ _ _ E).
Qed.

(** X2: whatever the payload and whatever the stores do, the data processor
    ends with a response, never with an exception: status 200 or 500,
    without headers. *)
Theorem processor_always_answers (event : json) (w : world) :
  exists resp w',
    DataProcessor.lambda_handler event w = (Ok resp, w')
    /\ In (statusCode resp) [200; 500]
    /\ headers resp = None.
Proof.
  assert (R : returns processor_response (DataProcessor.lambda_handler event)).
  { unfold DataProcessor.lambda_handler.
    do 2 (apply returns_then; intros ?).
    apply returns_try_except.
    - do 5 (apply returns_then; intros ?). apply returns_ret.
      split; [cbn; tauto | reflexivity].
    - intros e. do 2 (apply returns_then; intros ?). apply returns_ret.
      split; [cbn; tauto | reflexivity]. }
  assert (T : exists resp w', DataProcessor.lambda_handler event w = (Ok resp, w')).
  { unfold DataProcessor.lambda_handler.
    unfold bind at 1. unfold logger at 1. unfold bind at 1.
    apply try_except_answers. intros e w1. eexists _, _. reflexivity. }
  destruct T as (resp & w' & E). exists resp, w'. split; [exact E|].
  exact (R _ _ _ E).
Qed.

(** X3: a request that matches no route (a path other than the six known
    ones, or a method other than GET) is answered 404 with the path and
    the method echoed, before any client is initialised: no store is
    called. *)
Theorem unknown_route_is_not_found (event : api_event) (w : world) :
  routed event = false ->
  ApiHandler.lambda_handler event w = (Ok (not_found_reply event), api_entry event w).
Proof.
  unfold routed, api_paths, not_found_reply. intros N.
  unfold ApiHandler.lambda_handler.
  unfold bind at 1. unfold logger at 1. unfold bind at 1.
  change (with_clients false false _) with (api_entry event w).
  destruct (String.eqb (default "GET" (httpMethod event)) "GET");
    cbn [andb existsb orb] in N |- *.
  - repeat match type of N with
           | (String.eqb ?a ?b || _) = false =>
               destruct (String.eqb a b); cbn [orb andb] in N |- *;
               [discriminate|]
           end.
    reflexivity.
  - rewrite !andb_false_r. reflexivity.
Qed.

(** ** What the API leaves alone *)

Section Quiet.
Context (V : relation (gmap string entry)) `{!PreOrder V}.

Lemma keeps_reads {A : Type} c k (f : option entry -> outcome A * option entry) :
  reads f -> keeps V (redis_on c k f).
Proof.
  intros Rd. keeps_apply @keeps_redis_on. intros st r e' E.
  specialize (Rd (st !! k)). rewrite E in Rd. cbn in Rd. subst e'.
  rewrite partial_alter_self. reflexivity.
Qed.

Lemma keeps_redis_info : keeps V redis_info.
Proof.
  intros w r w' E. unfold redis_info in E.
  revert E. keeps_apply @keeps_redis_call. intros st r0 st' [= <- <-]. reflexivity.
Qed.

Lemma keeps_redis_keys pattern : keeps V (redis_keys pattern).
Proof.
  unfold redis_keys. keeps_apply @keeps_redis_call.
  intros st r0 st' [= <- <-]. reflexivity.
Qed.

Lemma keeps_weaken (V' : relation (gmap string entry)) {A : Type} (m : M A) :
  (forall st st', V' st st' -> V st st') -> keeps V' m -> keeps V m.
Proof.
  intros Sub Hm w r w' E. destruct (Hm _ _ _ E) as (V1 & Rest). split; auto.
Qed.

End Quiet.

Lemma reads_get : reads get_step.
Proof. intros [[[] ?]|]; reflexivity. Qed.
Lemma reads_exists : reads exists_step.
Proof. intros e; reflexivity. Qed.
Lemma reads_type : reads type_step.
Proof. intros e; reflexivity. Qed.
Lemma reads_hgetall : reads hgetall_step.
Proof. intros [[[] ?]|]; reflexivity. Qed.
Lemma reads_smembers : reads smembers_step.
Proof. intros [[[] ?]|]; reflexivity. Qed.
Lemma reads_zrange_all : reads zrange_all_step.
Proof. intros [[[] ?]|]; reflexivity. Qed.
Lemma reads_zrevrange stop : reads (zrevrange_step stop).
Proof. intros [[[] ?]|]; reflexivity. Qed.
Lemma reads_lrange_all : reads lrange_all_step.
Proof. intros [[[] ?]|]; reflexivity. Qed.
Lemma reads_ttl : reads ttl_step.
Proof. intros e; reflexivity. Qed.

Ltac reads_step :=
  keeps_apply @keeps_reads;
  first [ apply reads_get | apply reads_exists | apply reads_type
        | apply reads_hgetall | apply reads_smembers | apply reads_zrange_all
        | apply reads_zrevrange | apply reads_lrange_all | apply reads_ttl ].

Ltac quiet :=
  repeat first [ keeps_step | reads_step | keeps_apply keeps_redis_info
               | keeps_apply keeps_redis_keys ].

Section QuietHandlers.
Context (V : relation (gmap string entry)) `{!PreOrder V}.

Lemma quiet_pattern_loop keys acc : keeps V (ApiHandler.pattern_loop keys acc).
Proof.
  revert acc. induction keys as [|k rest IH]; intros acc;
    cbn [ApiHandler.pattern_loop]; unfold redis_type, redis_get, redis_hgetall.
  - quiet.
  - repeat first [apply IH | keeps_step | reads_step].
Qed.

Lemma quiet_handle_cache_lookup qp : keeps V (ApiHandler.handle_cache_lookup qp).
Proof.
  unfold ApiHandler.handle_cache_lookup, ApiHandler.key_lookup,
    ApiHandler.pattern_lookup, redis_exists, redis_type, redis_get, redis_hgetall,
    redis_smembers, redis_zrange_all, redis_lrange_all, redis_ttl.
  repeat first [apply quiet_pattern_loop | keeps_step | reads_step
               | keeps_apply keeps_redis_keys].
Qed.

Lemma quiet_handle_user_lookup qp : keeps V (ApiHandler.handle_user_lookup qp).
Proof. unfold ApiHandler.handle_user_lookup, redis_hgetall. quiet. Qed.

Lemma quiet_event_counts_loop today types acc :
  keeps V (ApiHandler.event_counts_loop today types acc).
Proof.
  revert acc. induction types as [|ty rest IH]; intros acc;
    cbn [ApiHandler.event_counts_loop]; unfold redis_get.
  - quiet.
  - repeat first [apply IH | keeps_step | reads_step].
Qed.

Lemma quiet_handle_analytics qp : keeps V (ApiHandler.handle_analytics qp).
Proof.
  unfold ApiHandler.handle_analytics, redis_zrevrange.
  repeat first [apply quiet_event_counts_loop | keeps_step | reads_step].
Qed.

Lemma quiet_handle_metrics qp : keeps V (ApiHandler.handle_metrics qp).
Proof. unfold ApiHandler.handle_metrics. quiet. Qed.

Lemma quiet_handle_health_check : keeps V ApiHandler.handle_health_check.
Proof. unfold ApiHandler.handle_health_check, os_cluster_health. quiet. Qed.

End QuietHandlers.

#[local] Instance outside_search_cache_preorder : PreOrder outside_search_cache.
Proof.
  split.
  - intros st k _. reflexivity.
  - intros a b c Hab Hbc k Hk. rewrite (Hbc k Hk). exact (Hab k Hk).
Qed.

#[local] Instance inside_search_cache_preorder : PreOrder inside_search_cache.
Proof.
  split.
  - intros st k _. reflexivity.
  - intros a b c Hab Hbc k Hk. rewrite (Hbc k Hk). exact (Hab k Hk).
Qed.

Lemma search_handle_search qp : keeps outside_search_cache (ApiHandler.handle_search qp).
Proof.
  unfold ApiHandler.handle_search, redis_get, redis_setex, os_search.
  repeat first
    [ keeps_step | reads_step
    | keeps_apply @keeps_redis_on; intros st r e' _ k Hk;
      apply lookup_partial_alter_ne; intros <-; cbn in Hk; discriminate ].
Qed.

Lemma lambda_handler_outside event :
  keeps outside_search_cache (ApiHandler.lambda_handler event).
Proof.
  unfold ApiHandler.lambda_handler.
  repeat first
    [ apply search_handle_search
    | keeps_apply @quiet_handle_cache_lookup
    | keeps_apply @quiet_handle_user_lookup
    | keeps_apply @quiet_handle_analytics
    | keeps_apply @quiet_handle_health_check
    | keeps_apply @quiet_handle_metrics
    | keeps_step ].
Qed.

Lemma lambda_handler_quiet event :
  default "/" (path event) <> "/search" ->
  keeps eq (ApiHandler.lambda_handler event).
Proof.
  intros N. apply String.eqb_neq in N.
  unfold ApiHandler.lambda_handler. rewrite N. cbn [andb].
  repeat first
    [ keeps_apply @quiet_handle_cache_lookup
    | keeps_apply @quiet_handle_user_lookup
    | keeps_apply @quiet_handle_analytics
    | keeps_apply @quiet_handle_health_check
    | keeps_apply @quiet_handle_metrics
    | keeps_step ].
Qed.

(** X4: whatever the request and however it ends, the API handler leaves
    every key outside [search_cache:*] exactly as it was (value and time
    to live): nothing that ingestion cached is created, changed or removed
    by a read request; and a request for any path other than [/search]
    leaves the whole keyspace as it was. *)
Theorem api_writes_only_the_search_cache (event : api_event) (w : world)
    (r : outcome response) (w' : world) :
  ApiHandler.lambda_handler event w = (r, w') ->
  (forall k, is_prefix "search_cache:" k = false -> w_redis w' !! k = w_redis w !! k)
  /\ (default "/" (path event) <> "/search" -> w_redis w' = w_redis w).
Proof.
  intros E. split.
  - exact (proj1 (lambda_handler_outside event _ _ _ E)).
  - intros N. symmetry. exact (proj1 (lambda_handler_quiet event N _ _ _ E)).
Qed.

(** ** What ingestion leaves alone *)

Section Ingestion.
Context (V : relation (gmap string entry)) `{!PreOrder V}.
Hypothesis cache_events : forall event, keeps V (DataProcessor.cache_user_data event).
Hypothesis cache_products :
  forall product, keeps V (DataProcessor.cache_product_data product).

Lemma kept_user_events_loop events n acts :
  keeps V (DataProcessor.user_events_loop events n acts).
Proof.
  revert n acts. induction events as [|event rest IH]; intros n acts;
    cbn [DataProcessor.user_events_loop].
  - keeps_step.
  - repeat first [apply cache_events | apply IH | keeps_step].
Qed.

Lemma kept_products_loop products n acts :
  keeps V (DataProcessor.products_loop products n acts).
Proof.
  revert n acts. induction products as [|product rest IH]; intros n acts;
    cbn [DataProcessor.products_loop].
  - keeps_step.
  - repeat first [apply cache_products | apply IH | keeps_step].
Qed.

Lemma kept_process_data_batch data : keeps V (DataProcessor.process_data_batch data).
Proof.
  unfold DataProcessor.process_data_batch, DataProcessor.process_user_events,
    DataProcessor.process_products, DataProcessor.bulk_insert_events,
    DataProcessor.bulk_insert_products, os_bulk.
  repeat first [apply kept_user_events_loop | apply kept_products_loop | keeps_step].
Qed.

Lemma kept_records_loop records n : keeps V (DataProcessor.records_loop records n).
Proof.
  revert n. induction records as [|record rest IH]; intros n;
    cbn [DataProcessor.records_loop].
  - keeps_step.
  - repeat first [apply kept_process_data_batch | apply IH | keeps_step].
Qed.

Lemma kept_create_opensearch_indices : keeps V DataProcessor.create_opensearch_indices.
Proof.
  unfold DataProcessor.create_opensearch_indices.
  keeps_step; [keeps_step|].
  generalize DataProcessor.known_indices. intros l.
  induction l as [|index rest IH]; cbn [DataProcessor.create_indices_loop].
  - keeps_step.
  - unfold os_indices_exists, os_indices_create.
    repeat first [apply IH | keeps_step].
Qed.

Lemma kept_lambda_handler event : keeps V (DataProcessor.lambda_handler event).
Proof.
  unfold DataProcessor.lambda_handler.
  repeat first [apply kept_create_opensearch_indices | apply kept_records_loop
               | apply kept_process_data_batch | keeps_step].
Qed.

End Ingestion.

Ltac apart_steps :=
  repeat first
    [ keeps_step
    | keeps_apply @keeps_redis_on; intros ? ? ? _ ? ?;
      apply lookup_partial_alter_ne; intros <-;
      match goal with Hk : is_prefix _ _ = true |- _ => cbn in Hk; discriminate end ].

Lemma cache_user_data_apart event :
  keeps inside_search_cache (DataProcessor.cache_user_data event).
Proof.
  unfold DataProcessor.cache_user_data, redis_hset, redis_expire, redis_incr,
    redis_zincrby.
  apart_steps.
Qed.

Lemma cache_product_data_apart product :
  keeps inside_search_cache (DataProcessor.cache_product_data product).
Proof.
  unfold DataProcessor.cache_product_data, redis_hset, redis_expire, redis_sadd,
    redis_set_ex.
  apart_steps.
Qed.

(** X5: whatever the payload and however the invocation ends, the data
    processor leaves every key of [search_cache:*] as it was (value and
    time to live): ingesting documents never refreshes or invalidates a
    cached search result. *)
Theorem ingestion_keeps_cached_searches (event : json) (w : world)
    (r : outcome response) (w' : world) (k : string) :
  DataProcessor.lambda_handler event w = (r, w') ->
  is_prefix "search_cache:" k = true ->
  w_redis w' !! k = w_redis w !! k.
Proof.
  intros E Hk.
  assert (K : keeps inside_search_cache (DataProcessor.lambda_handler event)).
  { keeps_apply @kept_lambda_handler;
      [apply cache_user_data_apart | apply cache_product_data_apart]. }
  exact (proj1 (K _ _ _ E) k Hk).
Qed.

(** ** The store calls a run makes *)

Section Emits.
Context (P : call -> bool).

Local Ltac silent := exists []; rewrite app_nil_r; split; reflexivity.

Lemma emits_ret {A : Type} (a : A) : emits P (ret a).
Proof. intros w r w' [= <- <-]. silent. Qed.

Lemma emits_raise {A : Type} (e : exn) : emits P (@raise A e).
Proof. intros w r w' [= <- <-]. silent. Qed.

Lemma emits_lift {A : Type} (o : outcome A) : emits P (lift o).
Proof. intros w r w' [= <- <-]. silent. Qed.

Lemma emits_logger l msg : emits P (logger l msg).
Proof. intros w r w' [= <- <-]. cbn. silent. Qed.

Lemma emits_utc_today : emits P utc_today.
Proof. intros w r w' [= <- <-]. silent. Qed.

Lemma emits_utc_now : emits P utc_now.
Proof. intros w r w' [= <- <-]. silent. Qed.

Lemma emits_with_clients a b : emits P (fun w => (Ok tt, with_clients a b w)).
Proof. intros w r w' [= <- <-]. cbn. silent. Qed.

Lemma emits_bind {A B : Type} (m : M A) (k : A -> M B) :
  emits P m -> (forall a, emits P (k a)) -> emits P (bind m k).
Proof.
  intros Hm Hk w r w'. unfold bind.
  destruct (m w) as [[a|e] w1] eqn:E; destruct (Hm _ _ _ E) as (l1 & T1 & P1).
  - intros E2. destruct (Hk a _ _ _ E2) as (l2 & T2 & P2).
    exists (l1 ++ l2)%list. rewrite T2, T1, <- app_assoc, forallb_app, P1, P2.
    split; reflexivity.
  - intros [= <- <-]. eauto.
Qed.

Lemma emits_try_except {A : Type} (m : M A) (h : exn -> M A) :
  emits P m -> (forall e, emits P (h e)) -> emits P (try_except m h).
Proof.
  intros Hm Hh w r w'. unfold try_except.
  destruct (m w) as [[a|e] w1] eqn:E; destruct (Hm _ _ _ E) as (l1 & T1 & P1).
  - intros [= <- <-]. eauto.
  - intros E2. destruct (Hh e _ _ _ E2) as (l2 & T2 & P2).
    exists (l1 ++ l2)%list. rewrite T2, T1, <- app_assoc, forallb_app, P1, P2.
    split; reflexivity.
Qed.

Lemma emits_redis_call {A : Type} c arg
    (f : gmap string entry -> outcome A * gmap string entry) :
  P (Redis c arg) = true -> emits P (redis_call c arg f).
Proof.
  intros Pc w r w'. unfold redis_call.
  destruct (w_redis_faults w) as [|[] fs]; try destruct (f (w_redis w));
    intros [= <- <-]; exists [Redis c arg]; cbn; rewrite Pc; split; reflexivity.
Qed.

Lemma emits_redis_on {A : Type} c k (f : option entry -> outcome A * option entry) :
  P (Redis c k) = true -> emits P (redis_on c k f).
Proof. apply emits_redis_call. Qed.

Lemma emits_os_request {A : Type} c
    (f : json -> gset string -> outcome A * gset string) :
  P c = true -> emits P (os_request c f).
Proof.
  intros Pc w r w'. unfold os_request.
  destruct (w_os_plan w) as [|[body|m|index] rest]; try destruct (f _ _);
    intros [= <- <-]; exists [c]; cbn; rewrite Pc; split; reflexivity.
Qed.

Lemma emits_get_opensearch_client : emits P get_opensearch_client.
Proof.
  intros w r w'. unfold get_opensearch_client, try_except, bind, raise, logger.
  destruct (self_opensearch_client w); [intros [= <- <-]; silent|].
  destruct (w_os_conf w); cbn; intros [= <- <-]; cbn; silent.
Qed.

Lemma emits_get_redis_client : P (Redis PING "") = true -> emits P get_redis_client.
Proof.
  intros Pc w r w'.
  unfold get_redis_client, try_except, bind, raise, logger, redis_ping, redis_call.
  destruct (self_redis_client w); [intros [= <- <-]; silent|].
  destruct (w_redis_conf w); cbn; [|intros [= <- <-]; cbn; silent].
  destruct (w_redis_faults w) as [|[] fs]; cbn; intros [= <- <-]; cbn;
    exists [Redis PING ""]; cbn; rewrite Pc; split; reflexivity.
Qed.

End Emits.

Ltac emits_step :=
  first
    [ apply emits_ret | apply emits_raise | apply emits_lift
    | apply emits_logger | apply emits_utc_today | apply emits_utc_now
    | apply emits_with_clients
    | apply emits_get_opensearch_client
    | apply emits_get_redis_client; reflexivity
    | apply emits_redis_on; reflexivity
    | apply emits_redis_call; reflexivity
    | apply emits_os_request; reflexivity
    | apply emits_bind; [|intros ?]
    | apply emits_try_except; [|intros ?]
    | match goal with
      | |- emits _ (if ?b then _ else _) => destruct b
      | |- emits _ (match ?x with _ => _ end) => destruct x
      end ].

Lemma emits_redis_info (P : call -> bool) :
  P (Redis INFO "") = true -> emits P redis_info.
Proof.
  intros Pc w r w' E. unfold redis_info in E. revert E.
  apply emits_redis_call. exact Pc.
Qed.

Lemma api_pattern_loop keys acc : emits api_call (ApiHandler.pattern_loop keys acc).
Proof.
  revert acc. induction keys as [|k rest IH]; intros acc;
    cbn [ApiHandler.pattern_loop]; unfold redis_type, redis_get, redis_hgetall.
  - emits_step.
  - repeat first [apply IH | emits_step].
Qed.

Lemma api_event_counts_loop today types acc :
  emits api_call (ApiHandler.event_counts_loop today types acc).
Proof.
  revert acc. induction types as [|ty rest IH]; intros acc;
    cbn [ApiHandler.event_counts_loop]; unfold redis_get.
  - emits_step.
  - repeat first [apply IH | emits_step].
Qed.

(** X6: on the wire too the API only reads: every store call of a request is
    a Redis read command ([PING], [GET], [EXISTS], [TYPE], [HGETALL],
    [SMEMBERS], [ZRANGE], [ZREVRANGE], [LRANGE], [TTL], [KEYS], [INFO]), a
    [SETEX] on a key of [search_cache:*], an OpenSearch search or a
    cluster-health request; no index is created and no bulk request is
    sent, whatever the request. *)
Theorem api_issues_only_reads (event : api_event) (w : world)
    (r : outcome response) (w' : world) :
  ApiHandler.lambda_handler event w = (r, w') ->
  exists calls,
    w_trace w' = (w_trace w ++ calls)%list /\ forallb api_call calls = true.
Proof.
  revert w r w'. change (emits api_call (ApiHandler.lambda_handler event)).
  unfold ApiHandler.lambda_handler, ApiHandler.handle_search,
    ApiHandler.handle_cache_lookup, ApiHandler.key_lookup, ApiHandler.pattern_lookup,
    ApiHandler.handle_user_lookup, ApiHandler.handle_analytics,
    ApiHandler.handle_metrics, ApiHandler.handle_health_check,
    redis_get, redis_setex, redis_exists, redis_type, redis_hgetall, redis_smembers,
    redis_zrange_all, redis_zrevrange, redis_lrange_all, redis_ttl, redis_keys,
    redis_ping, os_search, os_cluster_health.
  repeat first [ apply api_pattern_loop | apply api_event_counts_loop
               | apply emits_redis_info; reflexivity | emits_step ].
Qed.

(** ** The health check *)

Lemma redis_check w :
  self_redis_client w = false ->
  exists state w1,
    try_except (get_redis_client ;; redis_ping ;; ret "healthy")
               (fun e => ret ("unhealthy: " +:+ exn_str e)) w
    = (Ok state, w1)
    /\ (state = "healthy" <-> redis_passes w)
    /\ w_now w1 = w_now w /\ w_os_conf w1 = w_os_conf w
    /\ w_os_plan w1 = w_os_plan w
    /\ self_opensearch_client w1 = self_opensearch_client w.
Proof.
  intros Sr.
  unfold get_redis_client, redis_ping, redis_call, try_except, bind, raise, logger,
    ret, redis_passes.
  destruct w as [st faults info ix plan trace log today now rc oc sr so].
  cbn in Sr. subst sr. cbn.
  destruct rc as [rc|].
  - destruct faults as [|[] [|[] fs]]; cbn;
      eexists _, _; (split; [reflexivity|]); cbn;
      (split; [|repeat split; reflexivity]);
      (split; [intros E; first [discriminate E | split; [eauto | reflexivity]]
              | intros [_ E]; first [discriminate E | reflexivity]]).
  - cbn. eexists _, _. split; [reflexivity|]. cbn.
    split; [|repeat split; reflexivity].
    split; [intros E; discriminate E | intros [[x E] _]; discriminate E].
Qed.

Lemma opensearch_check w :
  self_opensearch_client w = false ->
  exists state w1,
    try_except (get_opensearch_client ;; os_cluster_health ;; ret "healthy")
               (fun e => ret ("unhealthy: " +:+ exn_str e)) w
    = (Ok state, w1)
    /\ (state = "healthy" <-> opensearch_passes w).
Proof.
  intros So.
  unfold get_opensearch_client, os_cluster_health, os_request, try_except, bind,
    raise, logger, ret, opensearch_passes.
  destruct w as [st faults info ix plan trace log today now rc oc sr so].
  cbn in So. subst so. cbn.
  destruct oc as [oc|].
  - destruct plan as [|[body|m|index] rest]; cbn;
      eexists _, _; (split; [reflexivity|]);
      (split; [intros E; first [discriminate E | split; [eauto | reflexivity]]
              | intros [_ E]; first [discriminate E | reflexivity]]).
  - cbn. eexists _, _. split; [reflexivity|].
    split; [intros E; discriminate E | intros [[x E] _]; discriminate E].
Qed.

(** X7: a health check never fails: it is answered 200 when both services
    pass and 503 (status [degraded]) otherwise, never 500.  Redis is
    reported healthy exactly when its endpoint is found and both pings are
    answered, OpenSearch exactly when its endpoint is found and the
    cluster-health request is answered; the OpenSearch check is made
    whatever the Redis check gave. *)
Theorem health_check_reports (method : option string)
    (qp : option (list (string * string))) (w : world) :
  default "GET" method = "GET" ->
  exists redis_state opensearch_state w',
    ApiHandler.lambda_handler (ApiEvent method (Some "/health") qp) w
    = (Ok (health_reply redis_state opensearch_state (w_now w)), w')
    /\ (redis_state = "healthy" <-> redis_passes w)
    /\ (opensearch_state = "healthy" <-> opensearch_passes w)
    /\ (statusCode (health_reply redis_state opensearch_state (w_now w)) = 200
        <-> redis_passes w /\ opensearch_passes w).
Proof.
  intros Hm. unfold ApiHandler.lambda_handler.
  cbn -[ApiHandler.handle_health_check ApiHandler.create_response].
  rewrite Hm. cbn -[ApiHandler.handle_health_check ApiHandler.create_response].
  unfold bind at 1. unfold logger at 1. unfold bind at 1.
  set (w0 := with_clients false false _).
  destruct (redis_check w0 eq_refl) as (rs & w1 & E1 & I1 & N1 & C1 & P1 & S1).
  destruct (opensearch_check w1 S1) as (os & w2 & E2 & I2).
  assert (Run : ApiHandler.handle_health_check w0
                = (Ok (health_reply rs os (w_now w)), w2)).
  { unfold ApiHandler.handle_health_check.
    unfold bind at 1. unfold utc_now at 1.
    rewrite (bind_step _ _ _ _ _ E1), (bind_step _ _ _ _ _ E2). reflexivity. }
  rewrite (try_except_pass _ _ _ _ _ Run).
  assert (I2' : os = "healthy" <-> opensearch_passes w).
  { rewrite I2. unfold opensearch_passes. rewrite C1, P1. reflexivity. }
  assert (I1' : rs = "healthy" <-> redis_passes w) by exact I1.
  exists rs, os, w2. split; [reflexivity|]. split; [exact I1'|]. split; [exact I2'|].
  rewrite <- I1', <- I2'. unfold health_reply. cbn [statusCode ApiHandler.create_response].
  destruct (String.eqb_spec rs "healthy") as [->|Nr];
    destruct (String.eqb_spec os "healthy") as [->|No]; cbn [andb];
    split; try tauto; try discriminate; intros [? ?]; congruence.
Qed.

(** ** Key lookups *)

Lemma key_lookup_quiet key w :
  w_redis_faults w = [] ->
  exists w', ApiHandler.key_lookup key w = (Ok (key_reply key (w_redis w !! key)), w')
             /\ w_redis w' = w_redis w.
Proof.
  intros F. unfold ApiHandler.key_lookup.
  destruct (redis_on_reads EXISTS key exists_step w reads_exists F)
    as (w1 & E1 & S1 & F1 & _).
  unfold redis_exists. rewrite (bind_step _ _ _ _ _ E1).
  destruct (w_redis w !! key) as [[v t]|] eqn:L; cbn [exists_step fst key_reply].
  - destruct (redis_on_reads TYPE key type_step w1 reads_type F1)
      as (w2 & E2 & S2 & F2 & _).
    unfold redis_type. rewrite (bind_step _ _ _ _ _ E2).
    rewrite S1, L.
    assert (Val : exists w3,
      (if String.eqb (redis_type_of v) "string" then
         v0 <- redis_get key ;; ret (opt_json v0)
       else if String.eqb (redis_type_of v) "hash" then
         h <- redis_hgetall key ;; ret (hash_json h)
       else if String.eqb (redis_type_of v) "set" then
         s <- redis_smembers key ;; ret (JList (map JStr s))
       else if String.eqb (redis_type_of v) "zset" then
         z <- redis_zrange_all key ;;
         ret (JList (map (fun ms => JList [JStr (fst ms); score_json (snd ms)]) z))
       else if String.eqb (redis_type_of v) "list" then
         l <- redis_lrange_all key ;; ret (JList (map JStr l))
       else ret (JStr ("Unsupported type: " +:+ redis_type_of v))) w2
      = (Ok (value_json v), w3)
      /\ w_redis w3 = w_redis w /\ w_redis_faults w3 = []).
    { destruct v as [s|h|s|z|l]; cbn [redis_type_of String.eqb Ascii.eqb Bool.eqb];
        cbn -[redis_get redis_hgetall redis_smembers redis_zrange_all redis_lrange_all].
      - destruct (redis_on_reads GET key get_step w2 reads_get F2)
          as (w3 & E3 & S3 & F3 & _).
        rewrite S2, S1, L in E3. cbn in E3.
        unfold redis_get. rewrite (bind_step _ _ _ _ _ E3).
        exists w3. repeat split; congruence.
      - destruct (redis_on_reads HGETALL key hgetall_step w2 reads_hgetall F2)
          as (w3 & E3 & S3 & F3 & _).
        rewrite S2, S1, L in E3. cbn in E3.
        unfold redis_hgetall. rewrite (bind_step _ _ _ _ _ E3).
        exists w3. repeat split; congruence.
      - destruct (redis_on_reads SMEMBERS key smembers_step w2 reads_smembers F2)
          as (w3 & E3 & S3 & F3 & _).
        rewrite S2, S1, L in E3. cbn in E3.
        unfold redis_smembers. rewrite (bind_step _ _ _ _ _ E3).
        exists w3. repeat split; congruence.
      - destruct (redis_on_reads ZRANGE key zrange_all_step w2 reads_zrange_all F2)
          as (w3 & E3 & S3 & F3 & _).
        rewrite S2, S1, L in E3. cbn in E3.
        unfold redis_zrange_all. rewrite (bind_step _ _ _ _ _ E3).
        exists w3. repeat split; congruence.
      - destruct (redis_on_reads LRANGE key lrange_all_step w2 reads_lrange_all F2)
          as (w3 & E3 & S3 & F3 & _).
        rewrite S2, S1, L in E3. cbn in E3.
        unfold redis_lrange_all. rewrite (bind_step _ _ _ _ _ E3).
        exists w3. repeat split; congruence. }
    destruct Val as (w3 & E3 & S3 & F3).
    cbn [type_step fst].
    replace (match v with
             | RString _ => "string" | RHash _ => "hash" | RSet _ => "set"
             | RZSet _ => "zset" | RList _ => "list"
             end) with (redis_type_of v) by (destruct v; reflexivity).
    rewrite (bind_step _ _ _ _ _ E3).
    destruct (redis_on_reads TTL key ttl_step w3 reads_ttl F3)
      as (w4 & E4 & S4 & F4 & _).
    rewrite S3, L in E4.
    unfold redis_ttl. rewrite (bind_step _ _ _ _ _ E4).
    exists w4. split; [|congruence].
    destruct t; reflexivity.
  - exists w1. split; [reflexivity | exact S1].
Qed.

(** X8: a cache lookup by key on a reachable Redis reports what the keyspace
    holds under the key: status 200 with the key's type, its whole value
    (all five Redis types are read in this mode) and its remaining time to
    live, [-1] for a key that does not expire; status 404 when the key
    does not exist.  A [pattern] parameter given beside the key is
    ignored, and the keyspace is left as it was. *)
Theorem key_lookup_reports (method : option string) (qp : list (string * string))
    (key : string) (w : world) :
  default "GET" method = "GET" ->
  dict_get "key" qp = Some key -> key <> "" ->
  is_Some (w_redis_conf w) -> w_redis_faults w = [] ->
  exists w',
    ApiHandler.lambda_handler (ApiEvent method (Some "/cache") (Some qp)) w
    = (Ok (key_reply key (w_redis w !! key)), w')
    /\ w_redis w' = w_redis w.
Proof.
  intros Hm Hk Ne Hc F.
  set (event := ApiEvent method (Some "/cache") (Some qp)).
  destruct (get_redis_client_fresh (api_entry event w) eq_refl)
    as (w1 & C & S1 & F1 & _).
  { split; [exact Hc | cbn; rewrite F; discriminate]. }
  cbn in F1. rewrite F in F1. cbn in F1.
  destruct (key_lookup_quiet key w1 F1) as (w2 & K & S2).
  assert (T : opt_truthy (Some key) = true).
  { cbn. apply String.eqb_neq in Ne. rewrite Ne. reflexivity. }
  assert (Run : ApiHandler.handle_cache_lookup qp (api_entry event w)
                = (Ok (key_reply key (w_redis w !! key)), w2)).
  { unfold ApiHandler.handle_cache_lookup.
    rewrite (bind_step _ _ _ _ _ C), Hk, T. cbn [negb andb default].
    rewrite (try_except_pass _ _ _ _ _ K), S1. reflexivity. }
  destruct (lambda_handler_cache method qp w Hm _ _ Run) as (w' & L & _).
  exists w'. split; [exact L|].
  pose proof (api_keyspace := lambda_handler_quiet event).
  symmetry. refine (proj1 (api_keyspace _ _ _ _ L)). cbn. discriminate.
Qed.

(** ** Searches under failures *)

Lemma handle_search_blocks qp n w :
  requested_size qp = Some n ->
  ApiHandler.handle_search qp w
  = (get_opensearch_client ;;
     get_redis_client ;;
     cached <- cache_lookup_block (query_of qp) (index_of qp) (fingerprint qp n) ;;
     match cached with
     | Some resp => ret resp
     | None => search_block (query_of qp) (index_of qp) (Z.min n 100)
                            (fingerprint qp n)
     end) w.
Proof.
  intros Hn. unfold ApiHandler.handle_search, bind.
  destruct (get_opensearch_client w) as [[[]|e1] w1]; [|reflexivity].
  destruct (get_redis_client w1) as [[[]|e2] w2]; [|reflexivity].
  unfold requested_size in Hn. destruct (dict_get "size" qp) as [s|].
  - rewrite Hn. reflexivity.
  - injection Hn as <-. reflexivity.
Qed.

(** The look in the cache never raises and makes one [GET]; it yields a
    reply exactly when the cache serves the request. *)
Lemma cache_lookup_block_cases query index key w :
  exists c w1,
    cache_lookup_block query index key w = (Ok c, w1)
    /\ w_trace w1 = (w_trace w ++ [Redis GET key])%list
    /\ w_redis w1 = w_redis w
    /\ w_redis_faults w1 = tail (w_redis_faults w)
    /\ w_os_plan w1 = w_os_plan w /\ w_now w1 = w_now w
    /\ (c = None
        \/ exists results,
             cache_serves (w_redis w) key results
             /\ head (w_redis_faults w) <> Some true
             /\ c = Some (ApiHandler.create_response 200
                            (JDict [("query", JStr query); ("index", JStr index);
                                    ("cached", JBool true); ("results", results)]))).
Proof.
  unfold cache_lookup_block, redis_get, redis_on, redis_call, try_except, bind,
    logger, lift, ret, cache_serves.
  destruct w as [st faults info ix plan trace log today now rc oc sr so]. cbn.
  assert (Id : partial_alter (fun _ => (get_step (st !! key)).2) key st = st).
  { replace ((get_step (st !! key)).2) with (st !! key)
      by (destruct (st !! key) as [[[] ?]|]; reflexivity).
    apply partial_alter_self. }
  destruct faults as [|[] fs]; cbn;
    try (eexists _, _; split; [reflexivity|]; cbn; repeat split; auto; fail);
    destruct (get_step (st !! key)) as [r e'] eqn:G; cbn in Id; rewrite Id;
    destruct (st !! key) as [[[s|h|s|z|l] t]|] eqn:L; cbn in G; injection G as <- <-;
    cbn;
    try (eexists _, _; split; [reflexivity|]; cbn; repeat split; auto; fail).
  all: destruct (String.eqb_spec s "") as [->|Ne]; cbn;
    try (eexists _, _; split; [reflexivity|]; cbn; repeat split; auto; fail).
  all: destruct (json_loads s) as [j|] eqn:J; cbn;
    eexists _, _; (split; [reflexivity|]); cbn; repeat split; auto.
  all: right; exists j; split; [eauto | split; [discriminate | reflexivity]].
Qed.

(** The search proper never raises either. Answered by the cluster with
    a body that can be formatted, it replies with the results whatever
    Redis does with the [SETEX]. *)
Lemma search_block_answered query index size key w reply rest results :
  w_os_plan w = OsReply reply :: rest ->
  ApiHandler.format_results reply = Ok results ->
  exists w1,
    search_block query index size key w
    = (Ok (ApiHandler.create_response 200
             (JDict [("query", JStr query); ("index", JStr index);
                     ("cached", JBool false); ("results", results)])), w1)
    /\ w_trace w1
       = (w_trace w
          ++ [OsSearch index (if String.eqb query "*" then match_all_body size
                              else multi_match_body query size);
              Redis SETEX key])%list
    /\ (head (w_redis_faults w) <> Some true ->
        w_redis w1 = <[key := Entry (RString (json_dumps results)) (Some 300)]> (w_redis w)).
Proof.
  intros P Fmt. destruct (format_results_total _ _ Fmt) as (total & Tot).
  unfold search_block, os_search, os_request, redis_setex, redis_on, redis_call,
    try_except, bind, logger, lift, ret.
  destruct w as [st faults info ix plan trace log today now rc oc sr so].
  cbn in P. subst plan. cbn. rewrite Fmt. cbn.
  destruct faults as [|[] fs]; cbn; rewrite Tot; cbn;
    eexists; (split; [reflexivity|]); cbn; rewrite <- app_assoc;
    (split; [reflexivity|]); intros N; try reflexivity.
  exfalso. apply N. reflexivity.
Qed.

(** Refused by the cluster, or answered with a body that cannot be
    formatted, it replies 500 and caches nothing. *)
Lemma search_block_failed query index size key w :
  (exists m rest, w_os_plan w = OsDown m :: rest)
  \/ (exists reply rest e, w_os_plan w = OsReply reply :: rest
                           /\ ApiHandler.format_results reply = Raise e) ->
  exists msg w1,
    search_block query index size key w = (Ok (search_failed_reply msg), w1)
    /\ w_redis w1 = w_redis w
    /\ ((exists rest, w_os_plan w = OsDown msg :: rest)
        \/ (exists reply rest e, w_os_plan w = OsReply reply :: rest
                                 /\ ApiHandler.format_results reply = Raise e
                                 /\ msg = exn_str e)).
Proof.
  unfold search_block, os_search, os_request, try_except, bind, logger, lift, ret,
    search_failed_reply.
  destruct w as [st faults info ix plan trace log today now rc oc sr so]. cbn.
  intros [(m & rest & ->)|(reply & rest & e & -> & Fmt)]; cbn.
  - eexists _, _. split; [reflexivity|]. cbn. split; [reflexivity|]. left. eauto.
  - rewrite Fmt. cbn. eexists _, _. split; [reflexivity|]. cbn.
    split; [reflexivity|]. right. eauto 10.
Qed.

Lemma clients_fresh w :
  self_opensearch_client w = false -> self_redis_client w = false ->
  opensearch_configured w -> redis_reachable w ->
  exists w2,
    (get_opensearch_client ;; get_redis_client) w = (Ok tt, w2)
    /\ w_redis w2 = w_redis w /\ w_redis_faults w2 = tail (w_redis_faults w)
    /\ w_trace w2 = (w_trace w ++ [Redis PING ""])%list
    /\ w_os_plan w2 = w_os_plan w /\ w_now w2 = w_now w.
Proof.
  intros So Sr Co Cr.
  destruct (get_opensearch_client_fresh w So Co)
    as (w1 & E1 & R1 & F1 & T1 & C1 & S1 & P1 & _ & N1 & _).
  destruct (get_redis_client_fresh w1) as (w2 & E2 & R2 & F2 & T2 & P2 & _ & N2 & _).
  { rewrite S1. exact Sr. }
  { destruct Cr as [Cc Cf]. split; [rewrite C1; exact Cc | rewrite F1; exact Cf]. }
  exists w2. rewrite (bind_step _ _ _ _ _ E1). split; [exact E2|].
  repeat split; congruence.
Qed.

Lemma handle_search_run qp n w :
  requested_size qp = Some n ->
  self_opensearch_client w = false -> self_redis_client w = false ->
  opensearch_configured w -> redis_reachable w ->
  exists w2 c w3,
    cache_lookup_block (query_of qp) (index_of qp) (fingerprint qp n) w2 = (Ok c, w3)
    /\ ApiHandler.handle_search qp w
       = match c with
         | Some resp => (Ok resp, w3)
         | None => search_block (query_of qp) (index_of qp) (Z.min n 100)
                                (fingerprint qp n) w3
         end
    /\ w_redis w2 = w_redis w /\ w_redis_faults w2 = tail (w_redis_faults w)
    /\ w_trace w2 = (w_trace w ++ [Redis PING ""])%list
    /\ w_os_plan w2 = w_os_plan w.
Proof.
  intros Hn So Sr Co Cr.
  destruct (clients_fresh w So Sr Co Cr) as (w2 & E & R2 & F2 & T2 & P2 & N2).
  destruct (cache_lookup_block_cases (query_of qp) (index_of qp) (fingerprint qp n) w2)
    as (c & w3 & L & _).
  exists w2, c, w3. split; [exact L|]. split; [|auto].
  rewrite (handle_search_blocks qp n w Hn).
  unfold bind in E |- *.
  destruct (get_opensearch_client w) as [[[]|e1] w1]; [|discriminate].
  rewrite E, L. destruct c; reflexivity.
Qed.

Lemma lambda_handler_search_calls method qp w :
  default "GET" method = "GET" ->
  forall r w1,
    ApiHandler.handle_search qp (api_entry (ApiEvent method (Some "/search") (Some qp)) w)
    = (r, w1) ->
    exists w',
      ApiHandler.lambda_handler (ApiEvent method (Some "/search") (Some qp)) w
      = (Ok (match r with Ok resp => resp | Raise e => last_resort_reply e w1 end), w')
      /\ w_trace w' = w_trace w1 /\ w_redis w' = w_redis w1.
Proof.
  intros Hm r w1 R.
  unfold ApiHandler.lambda_handler.
  cbn -[ApiHandler.handle_search ApiHandler.create_response].
  rewrite Hm. cbn -[ApiHandler.handle_search ApiHandler.create_response].
  unfold bind at 1. unfold logger at 1. unfold bind at 1.
  change (with_clients false false _) with
    (api_entry (ApiEvent method (Some "/search") (Some qp)) w).
  destruct r as [resp|e].
  - rewrite (try_except_pass _ _ _ _ _ R). eauto.
  - rewrite (try_except_catch _ _ _ _ _ R).
    eexists. split; [reflexivity|]. cbn. auto.
Qed.

(** X9: once the connection ping has been answered, nothing Redis does can
    fail a search: whatever the later round trips do (the [GET] and the
    [SETEX] may each be dropped) and whatever the cache holds under the
    key (nothing, a value of another type, text that is not JSON), a
    search that the cluster answers is replied to with status 200.  It is
    either served from the cache, with what the cache holds, after one
    [GET] and without any call to OpenSearch; or served from the cluster,
    asked for the requested size capped at 100 (and not bounded below),
    after which one [SETEX] is attempted. *)
Theorem search_survives_cache_trouble (method : option string)
    (qp : list (string * string)) (n : Z) (reply : json) (rest : list os_event)
    (results : json) (w : world) :
  default "GET" method = "GET" ->
  requested_size qp = Some n ->
  opensearch_configured w -> redis_reachable w ->
  w_os_plan w = OsReply reply :: rest ->
  ApiHandler.format_results reply = Ok results ->
  exists w',
    (exists served,
        ApiHandler.lambda_handler (ApiEvent method (Some "/search") (Some qp)) w
        = (Ok (search_reply qp true served), w')
        /\ cache_serves (w_redis w) (fingerprint qp n) served
        /\ w_trace w' = (w_trace w ++ [Redis PING ""; Redis GET (fingerprint qp n)])%list)
    \/ (ApiHandler.lambda_handler (ApiEvent method (Some "/search") (Some qp)) w
        = (Ok (search_reply qp false results), w')
        /\ w_trace w'
           = (w_trace w ++ [Redis PING ""; Redis GET (fingerprint qp n);
                            OsSearch (index_of qp) (search_body qp n);
                            Redis SETEX (fingerprint qp n)])%list).
Proof.
  intros Hm Hn Co Cr P Fmt.
  set (event := ApiEvent method (Some "/search") (Some qp)).
  destruct (handle_search_run qp n (api_entry event w) Hn eq_refl eq_refl Co Cr)
    as (w2 & c & w3 & L & Run & R2 & F2 & T2 & P2).
  destruct (cache_lookup_block_cases (query_of qp) (index_of qp) (fingerprint qp n) w2)
    as (c' & w3' & L' & T3 & R3 & F3 & P3 & N3 & Cases).
  rewrite L in L'. injection L' as <- <-.
  destruct Cases as [->|(served & Serves & _ & ->)].
  - destruct (search_block_answered (query_of qp) (index_of qp) (Z.min n 100)
                (fingerprint qp n) w3 reply rest results) as (w4 & S & T4 & _).
    { rewrite P3, P2. exact P. }
    { exact Fmt. }
    rewrite S in Run.
    destruct (lambda_handler_search_calls method qp w Hm _ _ Run) as (w' & E & T' & _).
    exists w'. right. split; [exact E|].
    rewrite T', T4, T3, T2. cbn. rewrite <- !app_assoc. reflexivity.
  - destruct (lambda_handler_search_calls method qp w Hm _ _ Run) as (w' & E & T' & _).
    exists w'. left. exists served. split; [exact E|]. split.
    + destruct Serves as (s & t & Lk & Ne & J). exists s, t.
      cbn in R2. rewrite R2 in Lk. auto.
    + rewrite T', T3, T2. cbn. rewrite <- !app_assoc. reflexivity.
Qed.

(** X10: when the cache has nothing to serve and the search itself fails, the
    request is answered 500 by [handle_search] itself with the error
    prefixed [Search failed:] (the message of the cluster's refusal, or
    the error raised while formatting a body that lacks a field), and
    nothing is written to the cache: the keyspace is as it was. *)
Theorem failed_search_caches_nothing (method : option string)
    (qp : list (string * string)) (n : Z) (w : world) :
  default "GET" method = "GET" ->
  requested_size qp = Some n ->
  opensearch_configured w -> redis_reachable w ->
  (forall results, ~ cache_serves (w_redis w) (fingerprint qp n) results) ->
  let event := ApiEvent method (Some "/search") (Some qp) in
  (forall m rest,
      w_os_plan w = OsDown m :: rest ->
      exists w', ApiHandler.lambda_handler event w = (Ok (search_failed_reply m), w')
                 /\ w_redis w' = w_redis w)
  /\ (forall reply rest e,
        w_os_plan w = OsReply reply :: rest ->
        ApiHandler.format_results reply = Raise e ->
        exists w', ApiHandler.lambda_handler event w
                   = (Ok (search_failed_reply (exn_str e)), w')
                   /\ w_redis w' = w_redis w).
Proof.
  intros Hm Hn Co Cr Miss event.
  destruct (handle_search_run qp n (api_entry event w) Hn eq_refl eq_refl Co Cr)
    as (w2 & c & w3 & L & Run & R2 & F2 & T2 & P2).
  destruct (cache_lookup_block_cases (query_of qp) (index_of qp) (fingerprint qp n) w2)
    as (c' & w3' & L' & T3 & R3 & F3 & P3 & N3 & Cases).
  rewrite L in L'. injection L' as <- <-.
  destruct Cases as [->|(served & Serves & _)].
  2:{ exfalso. apply (Miss served). destruct Serves as (s & t & Lk & Rest).
      exists s, t. cbn in R2. rewrite R2 in Lk. auto. }
  assert (Fail : forall msg,
    (exists rest, w_os_plan w = OsDown msg :: rest)
    \/ (exists reply rest e, w_os_plan w = OsReply reply :: rest
                             /\ ApiHandler.format_results reply = Raise e
                             /\ msg = exn_str e) ->
    exists w', ApiHandler.lambda_handler event w = (Ok (search_failed_reply msg), w')
               /\ w_redis w' = w_redis w).
  { intros msg Why.
    destruct (search_block_failed (query_of qp) (index_of qp) (Z.min n 100)
                (fingerprint qp n) w3) as (msg' & w4 & S & R4 & Why').
    { rewrite P3, P2. cbn.
      destruct Why as [(rest & ->)|(reply & rest & e & -> & Fmt & _)]; eauto 10. }
    assert (msg' = msg) as ->.
    { rewrite P3, P2 in Why'. cbn in Why'.
      destruct Why as [(rest & Pl)|(reply & rest & e & Pl & Fmt & ->)];
        rewrite Pl in Why';
        destruct Why' as [(rest' & [= ])|(reply' & rest' & e' & [= ] & Fmt' & ->)];
        subst; congruence. }
    rewrite S in Run.
    destruct (lambda_handler_search_calls method qp w Hm _ _ Run) as (w' & E & _ & R').
    exists w'. split; [exact E|]. rewrite R', R4, R3, R2. reflexivity. }
  split.
  - intros m rest Pl. apply Fail. left. eauto.
  - intros reply rest e Pl Fmt. apply Fail. right. eauto 10.
Qed.

Lemma append_assoc (a b c : string) : (a +:+ b) +:+ c = a +:+ (b +:+ c).
Proof.
  induction a as [|x a IH]; [reflexivity|].
  change (String x ((a +:+ b) +:+ c) = String x (a +:+ (b +:+ c))).
  rewrite IH. reflexivity.
Qed.

(** X11: the cache key [search_cache:{index}:{query}:{size}] does not keep the
    index and the query apart: results cached for the query [b:c] on
    index [a] are served, as a cache hit, to a search for [c] on an index
    named [a:b]. *)
Theorem cached_search_crosses_index_and_query (method : option string)
    (a b c : string) (results : json) (w : world) :
  default "GET" method = "GET" ->
  opensearch_configured w -> is_Some (w_redis_conf w) -> w_redis_faults w = [] ->
  cache_serves (w_redis w)
    (fingerprint [("q", b +:+ ":" +:+ c); ("index", a)] 10) results ->
  let qp := [("q", c); ("index", a +:+ ":" +:+ b)] in
  exists w',
    ApiHandler.lambda_handler (ApiEvent method (Some "/search") (Some qp)) w
    = (Ok (search_reply qp true results), w').
Proof.
  intros Hm Co Cr F (s & t & Lk & Ne & J) qp.
  assert (K : fingerprint qp 10
              = fingerprint [("q", b +:+ ":" +:+ c); ("index", a)] 10).
  { change (fingerprint qp 10)
      with ("search_cache:" +:+ (a +:+ ":" +:+ b) +:+ ":" +:+ c +:+ ":"
            +:+ str_of_Z (Z.min 10 100)).
    change (fingerprint [("q", b +:+ ":" +:+ c); ("index", a)] 10)
      with ("search_cache:" +:+ a +:+ ":" +:+ (b +:+ ":" +:+ c) +:+ ":"
            +:+ str_of_Z (Z.min 10 100)).
    rewrite !append_assoc. reflexivity. }
  destruct (handle_search_hit qp 10 s t results
              (api_entry (ApiEvent method (Some "/search") (Some qp)) w)
              eq_refl eq_refl eq_refl Co Cr F) as (w1 & Run).
  { cbn [api_entry w_redis with_clients with_log]. rewrite K. exact Lk. }
  { exact Ne. }
  { exact J. }
  destruct (lambda_handler_search method qp w Hm _ _ Run) as (w' & E & _).
  exists w'. exact E.
Qed.

(** ** Records that cannot be cached *)


(** X13: a hash and its expiry are written by two commands, [HSET] and then
    [EXPIRE].  When the connection fails between the two on an event's
    first key, the session hash is left in Redis without any expiry ([TTL]
    answers [-1]) and the event is given up with the error: the write of
    a key and of its expiry is not atomic. *)
Theorem interrupted_write_leaves_no_expiry (event session_id : json)
    (w w0 : world) (fs : list bool) :
  DataProcessor.cache_user_data event (with_faults [] w) = (Ok tt, w0) ->
  py_getitem event "session_id" = Ok session_id ->
  w_redis w !! ("session:" +:+ py_str session_id) = None ->
  w_redis_faults w = false :: true :: fs ->
  exists e w',
    DataProcessor.cache_user_data event w = (Raise e, w')
    /\ is_Some (w_redis w' !! ("session:" +:+ py_str session_id))
    /\ ttl_reply (w_redis w') ("session:" +:+ py_str session_id) = -1.
Proof.
  intros Run Sid Absent F.
  unfold DataProcessor.cache_user_data in Run.
  next Run user_id w1 S1. pure S1.
  next Run sid w1 S2. pure S2.
  next Run la w1 S3. pure S3. next Run le w1 S4. pure S4.
  next Run dt w1 S5. pure S5. next Run loc w1 S6. pure S6.
  next Run n1 w1 H1. unfold redis_hset in H1.
  next H1 fields w2 S7. pure S7. clear H1 Run.
  assert (sid = session_id) as -> by congruence.
  unfold DataProcessor.cache_user_data, redis_hset, redis_expire, redis_on,
    redis_call, bind, lift.
  rewrite S1, S2, S3, S4, S5, S6, S7, F. cbn. rewrite Absent. cbn.
  eexists _, _. split; [reflexivity|]. cbn.
  unfold ttl_reply. rewrite lookup_partial_alter_eq. cbn. eauto.
Qed.

(** ** What the index step leaves alone *)

Section Untouched.
Context {X : Type} (proj : world -> X).

Lemma untouched_ret {A : Type} (a : A) : untouched proj (ret a).
Proof. intros w r w' [= <- <-]. reflexivity. Qed.

Lemma untouched_raise {A : Type} (e : exn) : untouched proj (@raise A e).
Proof. intros w r w' [= <- <-]. reflexivity. Qed.

Lemma untouched_bind {A B : Type} (m : M A) (k : A -> M B) :
  untouched proj m -> (forall a, untouched proj (k a)) -> untouched proj (bind m k).
Proof.
  intros Hm Hk w r w'. unfold bind. destruct (m w) as [[a|e] w1] eqn:E.
  - intros E2. rewrite (Hk a _ _ _ E2). exact (Hm _ _ _ E).
  - intros [= <- <-]. exact (Hm _ _ _ E).
Qed.

Lemma untouched_try_except {A : Type} (m : M A) (h : exn -> M A) :
  untouched proj m -> (forall e, untouched proj (h e)) ->
  untouched proj (try_except m h).
Proof.
  intros Hm Hh w r w'. unfold try_except. destruct (m w) as [[a|e] w1] eqn:E.
  - intros [= <- <-]. exact (Hm _ _ _ E).
  - intros E2. rewrite (Hh e _ _ _ E2). exact (Hm _ _ _ E).
Qed.

End Untouched.

Lemma logger_redis_side l msg : untouched redis_side (logger l msg).
Proof. intros w r w' [= <- <-]. reflexivity. Qed.

Lemma os_request_redis_side {A : Type} c
    (f : json -> gset string -> outcome A * gset string) :
  untouched redis_side (os_request c f).
Proof.
  intros w r w'. unfold os_request.
  destruct (w_os_plan w) as [|[body|m|index] rest]; try destruct (f _ _);
    intros [= <- <-]; reflexivity.
Qed.

Lemma get_opensearch_client_redis_side : untouched redis_side get_opensearch_client.
Proof.
  intros w r w'. unfold get_opensearch_client, try_except, bind, raise, logger.
  destruct (self_opensearch_client w); [intros [= <- <-]; reflexivity|].
  destruct (w_os_conf w); cbn; intros [= <- <-]; reflexivity.
Qed.

Ltac untouched_steps L1 L2 :=
  repeat first
    [ apply untouched_ret | apply untouched_raise
    | apply L1 | apply L2
    | apply untouched_bind; [|intros ?]
    | apply untouched_try_except; [|intros ?]
    | match goal with |- untouched _ (if ?b then _ else _) => destruct b end ].

Lemma create_indices_loop_redis_side indices :
  untouched redis_side (DataProcessor.create_indices_loop indices).
Proof.
  induction indices as [|index rest IH]; cbn [DataProcessor.create_indices_loop].
  - apply untouched_ret.
  - unfold os_indices_exists, os_indices_create.
    apply untouched_bind; [|intros ?; exact IH].
    untouched_steps logger_redis_side (@os_request_redis_side).
Qed.

Lemma create_opensearch_indices_redis_side :
  untouched redis_side DataProcessor.create_opensearch_indices.
Proof.
  unfold DataProcessor.create_opensearch_indices.
  apply untouched_bind; [apply get_opensearch_client_redis_side|]. intros _.
  apply create_indices_loop_redis_side.
Qed.





(** ** Payloads *)

(** X14: a payload in which none of the keys [Records], [events], [products]
    and [event_type] is found (an empty object, an object with misspelt
    keys, a list) is accepted: once the index step is through, the
    invocation reports 200 with 0 processed records, without a call to
    Redis and without a bulk request. *)
Theorem unrecognised_payload_is_accepted (event : json) (w w0 : world) :
  py_contains "Records" event = Ok false ->
  py_contains "events" event = Ok false ->
  py_contains "products" event = Ok false ->
  py_contains "event_type" event = Ok false ->
  DataProcessor.create_opensearch_indices (processor_entry w) = (Ok tt, w0) ->
  exists w',
    DataProcessor.lambda_handler event w = (Ok (success_reply 0 w), w')
    /\ w_redis w' = w_redis w /\ w_trace w' = w_trace w0.
Proof.
  intros NR NE NP NT C.
  assert (N0 : w_now w0 = w_now w).
  { apply steady_create_opensearch_indices in C as (_ & N & _). exact N. }
  assert (R0 : w_redis w0 = w_redis w).
  { apply create_opensearch_indices_redis_side in C.
    injection C as R _. exact R. }
  unfold DataProcessor.lambda_handler.
  unfold bind at 1. unfold logger at 1. unfold bind at 1.
  change (with_clients false false _) with (processor_entry w).
  unfold try_except, bind, DataProcessor.process_data_batch, lift, logger, ret,
    utc_now.
  rewrite C, NR, NE, NP, NT. cbn.
  eexists. split; [unfold success_reply; rewrite N0; reflexivity|].
  cbn. split; [exact R0 | reflexivity].
Qed.

Lemma lambda_handler_direct_calls event w w0 r w2 :
  py_contains "Records" event = Ok false ->
  DataProcessor.create_opensearch_indices (processor_entry w) = (Ok tt, w0) ->
  DataProcessor.process_data_batch event w0 = (r, w2) ->
  exists w',
    DataProcessor.lambda_handler event w
    = (Ok (match r with
           | Ok n => success_reply n w2
           | Raise e => fatal_reply e w2
           end), w')
    /\ w_redis w' = w_redis w2 /\ w_trace w' = w_trace w2.
Proof.
  intros NR C B. unfold DataProcessor.lambda_handler.
  unfold bind at 1. unfold logger at 1. unfold bind at 1.
  change (with_clients false false _) with (processor_entry w).
  unfold try_except, bind, lift. rewrite C, NR, B.
  destruct r as [n|e]; cbn; eexists; (split; [reflexivity|]); cbn; auto.
Qed.




(** X16: a batch that carries both [events] and [products] (the shape the
    generator produces) has its events processed first and then its
    products, and the invocation reports the sum of the two counts; an
    error that ends the processing of the events (the client
    initialisation or the bulk request failing) ends the invocation with
    status 500 before any product is looked at. *)
Theorem mixed_batch_adds_the_counts (d : list (string * json))
    (events products : json) (w w0 : world) :
  dict_get "events" d = Some events -> dict_get "products" d = Some products ->
  dict_has "Records" d = false -> dict_has "event_type" d = false ->
  DataProcessor.create_opensearch_indices (processor_entry w) = (Ok tt, w0) ->
  (forall ne w1 np w2,
      DataProcessor.process_user_events events w0 = (Ok ne, w1) ->
      DataProcessor.process_products products
        (noted ("Processed " +:+ str_of_Z ne +:+ " events") w1) = (Ok np, w2) ->
      exists w',
        DataProcessor.lambda_handler (JDict d) w = (Ok (success_reply (ne + np) w), w'))
  /\ (forall e w1,
        DataProcessor.process_user_events events w0 = (Raise e, w1) ->
        exists w',
          DataProcessor.lambda_handler (JDict d) w = (Ok (fatal_reply e w), w')
          /\ w_redis w' = w_redis w1 /\ w_trace w' = w_trace w1).
Proof.
  intros Ge Gp NR NT C.
  assert (N0 : w_now w0 = w_now w).
  { apply steady_create_opensearch_indices in C as (_ & N & _). exact N. }
  assert (He : dict_has "events" d = true) by (unfold dict_has; rewrite Ge; reflexivity).
  assert (Hp : dict_has "products" d = true) by (unfold dict_has; rewrite Gp; reflexivity).
  assert (NR' : py_contains "Records" (JDict d) = Ok false) by (cbn; rewrite NR; reflexivity).
  split.
  - intros ne w1 np w2 Pe Pp.
    assert (B : exists w3,
      DataProcessor.process_data_batch (JDict d) w0 = (Ok (ne + np), w3)
      /\ w_now w3 = w_now w2).
    { unfold DataProcessor.process_data_batch, py_contains, py_getitem, lift, bind,
        logger, ret.
      rewrite He, Ge, Pe, Hp, Gp. unfold noted in Pp. rewrite Pp, NT. cbn.
      eexists. split; reflexivity. }
    destruct B as (w3 & B & N3).
    destruct (lambda_handler_direct_calls (JDict d) w w0 _ _ NR' C B) as (w' & L & _).
    exists w'. rewrite L. unfold success_reply. rewrite N3.
    apply steady_process_products in Pp as (_ & N2 & _).
    apply steady_process_user_events in Pe as (_ & N1 & _).
    rewrite N2. cbn. rewrite N1, N0. reflexivity.
  - intros e w1 Pe.
    assert (B : DataProcessor.process_data_batch (JDict d) w0 = (Raise e, w1)).
    { unfold DataProcessor.process_data_batch, py_contains, py_getitem, lift, bind.
      rewrite He, Ge, Pe. reflexivity. }
    destruct (lambda_handler_direct_calls (JDict d) w w0 _ _ NR' C B)
      as (w' & L & R' & T').
    exists w'. split; [|auto].
    rewrite L. unfold fatal_reply.
    apply steady_process_user_events in Pe as (_ & N1 & _).
    rewrite N1, N0. reflexivity.
Qed.

(** ** Envelopes of records *)

Lemma bind_assoc {A B C : Type} (m : M A) (k : A -> M B) (k' : B -> M C) w :
  bind (bind m k) k' w = bind m (fun a => bind (k a) k') w.
Proof. unfold bind. destruct (m w) as [[a|e] w1]; reflexivity. Qed.

Lemma bind_ext {A B : Type} (m : M A) (k k' : A -> M B) w :
  (forall a w1, k a w1 = k' a w1) -> bind m k w = bind m k' w.
Proof. intros E. unfold bind. destruct (m w) as [[a|e] w1]; [apply E | reflexivity]. Qed.

Lemma records_loop_app pre post n w :
  DataProcessor.records_loop (pre ++ post)%list n w
  = bind (DataProcessor.records_loop pre n)
         (fun m => DataProcessor.records_loop post m) w.
Proof.
  revert n w. induction pre as [|record rest IH]; intros n w.
  - reflexivity.
  - cbn [app DataProcessor.records_loop].
    rewrite bind_assoc. apply bind_ext. intros b w1.
    rewrite bind_assoc. apply bind_ext. intros data w2.
    rewrite bind_assoc. apply bind_ext. intros m w3.
    apply IH.
Qed.

(** X17: in an envelope of [Records], a record whose [body] is not JSON ends
    the invocation with status 500 at that record: the records before it
    have been processed and what they wrote stays written, the records
    after it are not looked at, and the count of the records processed so
    far is not reported. *)
Theorem malformed_record_stops_the_batch (d : list (string * json))
    (pre post : list json) (bad : json) (s : string) (w w0 w1 : world) (n : Z) :
  dict_get "Records" d = Some (JList (pre ++ bad :: post)) ->
  py_getitem bad "body" = Ok (JStr s) -> json_loads s = None ->
  DataProcessor.create_opensearch_indices (processor_entry w) = (Ok tt, w0) ->
  DataProcessor.records_loop pre 0 w0 = (Ok n, w1) ->
  exists e w',
    DataProcessor.lambda_handler (JDict d) w = (Ok (fatal_reply e w), w')
    /\ w_redis w' = w_redis w1 /\ w_trace w' = w_trace w1.
Proof.
  intros G Body Bad C Pre.
  assert (N0 : w_now w0 = w_now w).
  { apply steady_create_opensearch_indices in C as (_ & N & _). exact N. }
  assert (N1 : w_now w1 = w_now w0).
  { assert (K : keeps anything (DataProcessor.records_loop pre 0)).
    { keeps_apply @kept_records_loop;
        [apply steady_cache_user_data | apply steady_cache_product_data]. }
    apply K in Pre as (_ & N & _). exact N. }
  assert (HB : py_contains "body" bad = Ok true).
  { destruct bad as [| | | | | |bd]; try discriminate. cbn in Body |- *.
    unfold dict_has. destruct (dict_get "body" bd); [reflexivity | discriminate]. }
  assert (L : DataProcessor.records_loop (pre ++ bad :: post) 0 w0
              = (Raise (ValueError "Expecting value"), w1)).
  { rewrite records_loop_app, (bind_step _ _ _ _ _ Pre).
    cbn [DataProcessor.records_loop]. unfold bind, lift, py_json_loads.
    rewrite HB, Body, Bad. reflexivity. }
  assert (HR : dict_has "Records" d = true) by (unfold dict_has; rewrite G; reflexivity).
  unfold DataProcessor.lambda_handler.
  unfold bind at 1. unfold logger at 1. unfold bind at 1.
  change (with_clients false false _) with (processor_entry w).
  unfold try_except, bind, lift, py_contains, py_getitem, py_iter. rewrite C, HR, G, L.
  cbn. exists (ValueError "Expecting value"). eexists. split.
  - unfold fatal_reply. rewrite <- N0, <- N1. reflexivity.
  - cbn. split; reflexivity.
Qed.

(** ** The bulk request of a batch *)

Lemma bulk_insert_calls k acts w w' :
  bulk_insert k acts w = (Ok tt, w') ->
  w_trace w' = (w_trace w ++ match acts with [] => [] | _ => [OsBulk acts] end)%list.
Proof.
  destruct k; destruct acts as [|a acts]; cbn [bulk_insert];
    unfold DataProcessor.bulk_insert_events, DataProcessor.bulk_insert_products;
    try (intros [= <-]; rewrite app_nil_r; reflexivity);
    unfold try_except, bind, os_bulk, os_request, lift, logger, raise;
    destruct (w_os_plan w) as [|[body|m|index] rest]; cbn;
    try destruct (py_get _ _ _) as [errors|e]; cbn;
    try destruct (py_truthy _); cbn;
    intros E; try discriminate E; injection E as <-; reflexivity.
Qed.

Lemma bulk_insert_keyspace k acts w r w' :
  bulk_insert k acts w = (r, w') -> w_redis w' = w_redis w.
Proof.
  destruct k; destruct acts as [|a acts]; cbn [bulk_insert];
    unfold DataProcessor.bulk_insert_events, DataProcessor.bulk_insert_products;
    try (intros E; injection E as <- <-; reflexivity);
    unfold try_except, bind, os_bulk, os_request, lift, logger, raise;
    destruct (w_os_plan w) as [|[body|m|index] rest]; cbn;
    try destruct (py_get _ _ _) as [errors|e]; cbn;
    try destruct (py_truthy _); cbn;
    intros E; injection E as <- <-; reflexivity.
Qed.

(** Going through a batch from a given world has one outcome. *)
Lemma gathers_unique k records w kept w1 kept' w1' :
  gathers k records w kept w1 -> gathers k records w kept' w1' ->
  kept' = kept /\ w1' = w1.
Proof.
  intros G. revert kept' w1'.
  induction G as [w|record id rest w w0 kept w1 A G IH|record e rest w w0 kept w1 A G IH];
    intros kept' w1' G'; inversion G'; subst.
  - auto.
  - match goal with X : attempt k record w = (Ok _, _) |- _ =>
      rewrite A in X; injection X as <- <- end.
    match goal with X : gathers k rest w0 _ _ |- _ =>
      destruct (IH _ _ X) as [-> ->] end.
    auto.
  - match goal with X : attempt k record w = (Raise _, _) |- _ =>
      rewrite A in X; discriminate X end.
  - match goal with X : attempt k record w = (Ok _, _) |- _ =>
      rewrite A in X; discriminate X end.
  - match goal with X : attempt k record w = (Raise _, _) |- _ =>
      rewrite A in X; injection X as <- <- end.
    match goal with X : gathers k rest _ _ _ |- _ =>
      destruct (IH _ _ X) as [-> ->] end.
    auto.
Qed.

(** X18: the count a batch of JSON objects returns is the number of documents
    of its one bulk request.  Once the two clients are there, the loop
    goes through the records from the world they leave; the records whose
    cache write and id lookup went through in that run, and no others, are
    sent to OpenSearch, as one action line and one document each, in the
    order of the batch; the bulk request leaves the cache as the loop left
    it; and when no record went through, no bulk request is sent at all. *)
Theorem processed_count_is_the_bulk_size (k : entity) (records : list json)
    (w w' : world) (n : Z) :
  Forall is_dict records ->
  process k (JList records) w = (Ok n, w') ->
  exists w0 kept w1,
    bind get_opensearch_client (fun _ => get_redis_client) w = (Ok tt, w0)
    /\ gathers k records w0 kept w1
    /\ (forall kept' w1', gathers k records w0 kept' w1' -> kept' = kept /\ w1' = w1)
    /\ n = Z.of_nat (length kept)
    /\ w_trace w' = (w_trace w1 ++ bulk_call k kept)%list
    /\ w_redis w' = w_redis w1.
Proof.
  intros All Run. rewrite process_split in Run.
  apply bind_Ok in Run as ([m acts] & w1 & Col & Ins).
  cbn [fst snd] in Ins.
  apply bind_Ok in Ins as ([] & w2 & Ins & Ret). injection Ret as <- <-.
  unfold collect in Col.
  apply bind_Ok in Col as ([] & wa & Co & Col).
  apply bind_Ok in Col as ([] & w0 & Cr & Col).
  apply bind_Ok in Col as (items & w0' & It & Col).
  apply lift_Ok in It as [It ->]. injection It as <-.
  destruct (loop_gathers k records 0 [] w0 All) as (kept & w1' & Loop & G).
  rewrite Loop in Col. injection Col as <- <- <-.
  exists w0, kept, w1'. split.
  { rewrite (bind_step _ _ _ _ _ Co). exact Cr. }
  split; [exact G|]. split; [intros kept' u; apply gathers_unique; exact G|].
  split; [reflexivity|]. split.
  - rewrite (bulk_insert_calls _ _ _ _ Ins). cbn [app].
    destruct kept as [|[record id] kept]; reflexivity.
  - apply (bulk_insert_keyspace _ _ _ _ _ Ins).
Qed.

(** ** Pattern lookups under failures *)

Lemma dict_set_keys {V : Type} k (v : V) (l : list (string * V)) x :
  In x (map fst (dict_set k v l)) -> x = k \/ In x (map fst l).
Proof.
  induction l as [|[k' v'] l IH]; cbn.
  - intros [<-|[]]. left. reflexivity.
  - destruct (String.eqb k' k); cbn; intuition.
Qed.

(** The loop of the pattern branch never raises: a key whose read fails
    gets an [Error: ...] entry and the loop goes on. *)
Lemma pattern_loop_answers keys acc w :
  exists results w',
    ApiHandler.pattern_loop keys acc w = (Ok results, w')
    /\ forall x, In x (map fst results) -> In x (map fst acc) \/ In x keys.
Proof.
  revert acc w. induction keys as [|k rest IH]; intros acc w.
  - exists acc, w. split; [reflexivity | auto].
  - cbn [ApiHandler.pattern_loop].
    assert (Step : exists acc1 w1,
      try_except
        (key_type <- redis_type k ;;
         if String.eqb key_type "string" then
           v <- redis_get k ;; ret (dict_set k (opt_json v) acc)
         else if String.eqb key_type "hash" then
           h <- redis_hgetall k ;; ret (dict_set k (hash_json h) acc)
         else ret acc)
        (fun e => ret (dict_set k (JStr ("Error: " +:+ exn_str e)) acc)) w
      = (Ok acc1, w1)
      /\ forall x, In x (map fst acc1) -> x = k \/ In x (map fst acc)).
    { unfold try_except.
      destruct (bind (redis_type k) _ w) as [[acc1|e] w1] eqn:E.
      - exists acc1, w1. split; [reflexivity|].
        apply bind_Ok in E as (ty & w2 & _ & E).
        destruct (String.eqb ty "string").
        + apply bind_Ok in E as (v & w3 & _ & E). injection E as <- _.
          apply dict_set_keys.
        + destruct (String.eqb ty "hash").
          * apply bind_Ok in E as (v & w3 & _ & E). injection E as <- _.
            apply dict_set_keys.
          * injection E as <- _. auto.
      - eexists _, _. split; [reflexivity|]. apply dict_set_keys. }
    destruct Step as (acc1 & w1 & Step & Keys1).
    rewrite (bind_step _ _ _ _ _ Step).
    destruct (IH acc1 w1) as (results & w' & Loop & Keys).
    exists results, w'. split; [exact Loop|].
    intros x Hx. destruct (Keys x Hx) as [Hx1|Hx1]; [|right; right; exact Hx1].
    destruct (Keys1 x Hx1) as [->|Hx2]; [right; left; reflexivity | left; exact Hx2].
Qed.

(** X19: once the connection ping and [KEYS] have been answered, a pattern
    lookup cannot fail: whatever the reads of the single keys do (any of
    them may be dropped), the request is answered 200, and every key of
    the results is one of the at most 100 keys gone through. *)
Theorem pattern_lookup_survives_failed_reads (method : option string)
    (qp : list (string * string)) (pattern : string) (w : world) (fs : list bool) :
  default "GET" method = "GET" ->
  opt_truthy (dict_get "key" qp) = false ->
  dict_get "pattern" qp = Some pattern -> pattern <> "" ->
  is_Some (w_redis_conf w) ->
  w_redis_faults w = false :: false :: fs ->
  exists results w',
    ApiHandler.lambda_handler (ApiEvent method (Some "/cache") (Some qp)) w
    = (Ok (pattern_reply pattern results), w')
    /\ forall k, In k (map fst results) ->
                 In k (capped (matching pattern (w_redis w))).
Proof.
  intros Hm Hk Hp Ne Hc F.
  set (event := ApiEvent method (Some "/cache") (Some qp)).
  destruct (get_redis_client_fresh (api_entry event w) eq_refl)
    as (w1 & C & S1 & F1 & _).
  { split; [exact Hc | cbn; rewrite F; discriminate]. }
  cbn in F1, S1. rewrite F in F1. cbn in F1.
  assert (K : exists w2,
    redis_keys pattern w1 = (Ok (matching pattern (w_redis w)), w2)).
  { unfold redis_keys, redis_call. rewrite F1, S1. eexists. reflexivity. }
  destruct K as (w2 & K).
  destruct (pattern_loop_answers (capped (matching pattern (w_redis w))) [] w2)
    as (results & w3 & Loop & Keys).
  assert (T : String.eqb pattern "" = false) by (apply String.eqb_neq; exact Ne).
  assert (Run : ApiHandler.handle_cache_lookup qp (api_entry event w)
                = (Ok (pattern_reply pattern results), w3)).
  { unfold ApiHandler.handle_cache_lookup.
    rewrite (bind_step _ _ _ _ _ C), Hk, Hp. cbn [negb andb opt_truthy].
    rewrite T. cbn [negb default].
    apply try_except_pass. unfold ApiHandler.pattern_lookup.
    rewrite (bind_step _ _ _ _ _ K), cap_is_firstn, (bind_step _ _ _ _ _ Loop).
    reflexivity. }
  destruct (lambda_handler_cache method qp w Hm _ _ Run) as (w' & L & _).
  exists results, w'. split; [exact L|].
  intros k Hk'. destruct (Keys k Hk') as [[]|I]. exact I.
Qed.

(** ** The other routes *)

Lemma lambda_handler_metrics method qp w :
  default "GET" method = "GET" ->
  forall r w1,
    ApiHandler.handle_metrics qp (api_entry (ApiEvent method (Some "/metrics") (Some qp)) w)
    = (r, w1) ->
    exists w',
      ApiHandler.lambda_handler (ApiEvent method (Some "/metrics") (Some qp)) w
      = (Ok (match r with Ok resp => resp | Raise e => last_resort_reply e w1 end), w')
      /\ w_trace w' = w_trace w1 /\ w_redis w' = w_redis w1.
Proof.
  intros Hm r w1 R.
  unfold ApiHandler.lambda_handler.
  cbn -[ApiHandler.handle_metrics ApiHandler.create_response].
  rewrite Hm. cbn -[ApiHandler.handle_metrics ApiHandler.create_response].
  unfold bind at 1. unfold logger at 1. unfold bind at 1.
  change (with_clients false false _) with
    (api_entry (ApiEvent method (Some "/metrics") (Some qp)) w).
  destruct r as [resp|e].
  - rewrite (try_except_pass _ _ _ _ _ R). eauto.
  - rewrite (try_except_catch _ _ _ _ _ R).
    eexists. split; [reflexivity|]. cbn. auto.
Qed.

Lemma lambda_handler_analytics method qp w :
  default "GET" method = "GET" ->
  forall r w1,
    ApiHandler.handle_analytics qp
      (api_entry (ApiEvent method (Some "/analytics") (Some qp)) w) = (r, w1) ->
    exists w',
      ApiHandler.lambda_handler (ApiEvent method (Some "/analytics") (Some qp)) w
      = (Ok (match r with Ok resp => resp | Raise e => last_resort_reply e w1 end), w')
      /\ w_trace w' = w_trace w1 /\ w_redis w' = w_redis w1.
Proof.
  intros Hm r w1 R.
  unfold ApiHandler.lambda_handler.
  cbn -[ApiHandler.handle_analytics ApiHandler.create_response].
  rewrite Hm. cbn -[ApiHandler.handle_analytics ApiHandler.create_response].
  unfold bind at 1. unfold logger at 1. unfold bind at 1.
  change (with_clients false false _) with
    (api_entry (ApiEvent method (Some "/analytics") (Some qp)) w).
  destruct r as [resp|e].
  - rewrite (try_except_pass _ _ _ _ _ R). eauto.
  - rewrite (try_except_catch _ _ _ _ _ R).
    eexists. split; [reflexivity|]. cbn. auto.
Qed.

(** ** Metrics *)

Lemma get_redis_client_info : untouched w_redis_info get_redis_client.
Proof.
  intros w r w'.
  unfold get_redis_client, try_except, bind, raise, logger, redis_ping, redis_call.
  destruct (self_redis_client w); [intros [= <- <-]; reflexivity|].
  destruct (w_redis_conf w); cbn; [|intros [= <- <-]; reflexivity].
  destruct (w_redis_faults w) as [|[] fs]; cbn; intros [= <- <-]; reflexivity.
Qed.

Lemma length_matching_all st :
  (forall k, glob_match "*" k = true) ->
  length (matching "*" st) = size st.
Proof.
  intros All. unfold matching.
  replace (List.filter (glob_match "*") (map fst (map_to_list st)))
    with (map fst (map_to_list st)).
  - rewrite length_map. apply length_map_to_list.
  - induction (map fst (map_to_list st)) as [|k l IH]; cbn; [reflexivity|].
    rewrite All. f_equal. exact IH.
Qed.

(** X20: on a reachable Redis the metrics request reports the number of keys
    of the keyspace as [total_keys] (the pattern [*] matching every key)
    and the four statistics of [INFO] it picks, [0] (or [0B]) standing for
    a statistic the server does not give; it makes three round trips,
    [PING], [INFO] and [KEYS *], and leaves the keyspace as it was. *)
Theorem metrics_count_the_keys (method : option string)
    (qp : list (string * string)) (w : world) :
  default "GET" method = "GET" ->
  (forall k, glob_match "*" k = true) ->
  is_Some (w_redis_conf w) -> w_redis_faults w = [] ->
  exists w',
    ApiHandler.lambda_handler (ApiEvent method (Some "/metrics") (Some qp)) w
    = (Ok (metrics_reply (w_redis_info w) (Z.of_nat (size (w_redis w))) (w_now w)), w')
    /\ w_trace w' = (w_trace w ++ [Redis PING ""; Redis INFO ""; Redis KEYS "*"])%list
    /\ w_redis w' = w_redis w.
Proof.
  intros Hm All Hc F.
  set (event := ApiEvent method (Some "/metrics") (Some qp)).
  destruct (get_redis_client_fresh (api_entry event w) eq_refl)
    as (w1 & C & S1 & F1 & T1 & _ & _ & N1 & _).
  { split; [exact Hc | cbn; rewrite F; discriminate]. }
  cbn in F1, S1, T1, N1. rewrite F in F1. cbn in F1.
  pose proof (get_redis_client_info _ _ _ C) as I1. cbn in I1.
  assert (Run : exists w2,
    ApiHandler.handle_metrics qp (api_entry event w)
    = (Ok (metrics_reply (w_redis_info w) (Z.of_nat (size (w_redis w))) (w_now w)), w2)
    /\ w_trace w2 = (w_trace w1 ++ [Redis INFO ""; Redis KEYS "*"])%list
    /\ w_redis w2 = w_redis w).
  { unfold ApiHandler.handle_metrics. rewrite (bind_step _ _ _ _ _ C).
    unfold try_except, bind, redis_info, redis_keys, redis_call, utc_now, ret.
    rewrite F1. cbn. fold (matching "*" (w_redis w1)).
    rewrite S1, (length_matching_all _ All), N1, I1.
    eexists. split; [reflexivity|]. cbn. rewrite <- app_assoc. split; reflexivity. }
  destruct Run as (w2 & Run & T2 & S2).
  destruct (lambda_handler_metrics method qp w Hm _ _ Run) as (w' & L & T' & S').
  exists w'. split; [exact L|]. split.
  - rewrite T', T2, T1, <- app_assoc. reflexivity.
  - rewrite S', S2. reflexivity.
Qed.

(** ** From a cached event to the user lookup *)

Lemma dict_get_In {V : Type} k (v : V) l : dict_get k l = Some v -> In (k, v) l.
Proof.
  induction l as [|[k' v'] l IH]; cbn; [discriminate|].
  destruct (String.eqb_spec k' k) as [->|N].
  - intros [= ->]. left. reflexivity.
  - intros E. right. exact (IH E).
Qed.

Lemma In_dict_get {V : Type} k (v : V) l :
  NoDup (map fst l) -> In (k, v) l -> dict_get k l = Some v.
Proof.
  induction l as [|[k' v'] l IH]; cbn; [tauto|].
  intros ND. apply NoDup_cons in ND as [Nk ND]. rewrite list_elem_of_In in Nk.
  intros [[= -> ->]|I].
  - rewrite String.eqb_refl. reflexivity.
  - destruct (String.eqb_spec k' k) as [->|N]; [|exact (IH ND I)].
    exfalso. apply Nk. apply in_map_iff. exists (k, v). auto.
Qed.

Lemma dict_get_map_to_list (h : gmap string string) k :
  dict_get k (map_to_list h) = h !! k.
Proof.
  destruct (h !! k) as [v|] eqn:L.
  - apply In_dict_get; [apply NoDup_fst_map_to_list|].
    apply list_elem_of_In, elem_of_map_to_list. exact L.
  - destruct (dict_get k (map_to_list h)) as [v|] eqn:D; [|reflexivity].
    apply dict_get_In, list_elem_of_In, elem_of_map_to_list in D. congruence.
Qed.

Lemma redis_encode_py_str v s : redis_encode v = Ok s -> py_str v = s.
Proof. destruct v; cbn; intros [= <-]; reflexivity. Qed.

Lemma lookup_elapse_gone st k v t d :
  st !! k = Some (Entry v (Some t)) -> t <= d -> elapse d st !! k = None.
Proof.
  intros L Le. unfold elapse. rewrite lookup_omap, L. cbn. unfold age. cbn.
  destruct (Z.leb_spec (t - d) 0); [reflexivity | lia].
Qed.

Lemma foldl_insert_other (fields : list (string * string)) (h : gmap string string) f :
  ~ In f (map fst fields) ->
  foldl (fun h kv => <[fst kv := snd kv]> h) h fields !! f = h !! f.
Proof.
  revert h. induction fields as [|[f0 v0] rest IH]; intros h N; cbn; [reflexivity|].
  rewrite IH by (intros I; apply N; right; exact I).
  apply lookup_insert_ne. intros ->. apply N. left. reflexivity.
Qed.

Lemma foldl_insert_lookup (fields : list (string * string)) (h : gmap string string)
    f v :
  NoDup (map fst fields) -> In (f, v) fields ->
  foldl (fun h kv => <[fst kv := snd kv]> h) h fields !! f = Some v.
Proof.
  revert h. induction fields as [|[f0 v0] rest IH]; intros h ND I; cbn; [destruct I|].
  apply NoDup_cons in ND as [N0 ND]. rewrite list_elem_of_In in N0.
  destruct I as [[= -> ->]|I].
  - rewrite foldl_insert_other by exact N0. apply lookup_insert_eq.
  - apply IH; assumption.
Qed.

(** [HSET] then [EXPIRE] on one key, both successful: the hash holds the
    fields written and has the seconds given; the other keys are as they
    were. *)
Lemma hset_then_expire name mapping fields seconds w n w1 b w2 :
  encode_mapping mapping = Ok fields -> NoDup (map fst fields) ->
  redis_hset name mapping w = (Ok n, w1) ->
  redis_expire name seconds w1 = (Ok b, w2) ->
  exists h,
    w_redis w2 !! name = Some (Entry (RHash h) (Some seconds))
    /\ (forall f v, In (f, v) fields -> h !! f = Some v)
    /\ differ_at name (w_redis w) (w_redis w2).
Proof.
  intros Enc ND W X. unfold redis_hset in W.
  apply bind_Ok in W as (fields' & w0 & L & W). apply lift_Ok in L as [L ->].
  assert (fields' = fields) as -> by congruence.
  apply redis_on_Ok in W as (e1 & F1 & R1 & _).
  apply redis_on_Ok in X as (e2 & F2 & R2 & _).
  rewrite R1, lookup_partial_alter_eq in F2.
  assert (E1 : exists h t, e1 = Some (Entry (RHash h) t)
                           /\ forall f v, In (f, v) fields -> h !! f = Some v).
  { destruct (w_redis w !! name) as [[[s|h|s|z|l] t]|]; cbn in F1; try discriminate;
      injection F1 as _ <-; eexists _, _; (split; [reflexivity|]);
      intros f v I; apply foldl_insert_lookup; assumption. }
  destruct E1 as (h & t & -> & Fields). cbn in F2. injection F2 as _ <-.
  exists h. split; [|split].
  - rewrite R2. apply lookup_partial_alter_eq.
  - exact Fields.
  - intros k N. rewrite R2, R1, !lookup_partial_alter_ne by congruence. reflexivity.
Qed.

Lemma redis_hset_encoded name mapping w n w1 :
  redis_hset name mapping w = (Ok n, w1) ->
  exists fields, encode_mapping mapping = Ok fields.
Proof.
  unfold redis_hset. intros E. apply bind_Ok in E as (fields & w0 & L & _).
  apply lift_Ok in L as [L _]. eauto.
Qed.

(** What a successful [cache_user_data] leaves under the keys of the
    user and of the session. *)
Lemma cache_user_data_hashes event user_id session_id w w' :
  DataProcessor.cache_user_data event w = (Ok tt, w') ->
  py_getitem event "user_id" = Ok user_id ->
  py_getitem event "session_id" = Ok session_id ->
  exists hu hs,
    w_redis w' !! ("user:" +:+ py_str user_id) = Some (Entry (RHash hu) (Some 86400))
    /\ hu !! "current_session" = Some (py_str session_id)
    /\ w_redis w' !! ("session:" +:+ py_str session_id)
       = Some (Entry (RHash hs) (Some 3600))
    /\ hs !! "user_id" = Some (py_str user_id).
Proof.
  intros E Gu Gs. unfold DataProcessor.cache_user_data in E.
  next E uid w1 S1. pure S1. assert (uid = user_id) as -> by congruence.
  next E sid w1 S2. pure S2. assert (sid = session_id) as -> by congruence.
  next E la w1 S3. pure S3. next E le w1 S4. pure S4.
  next E dt w1 S5. pure S5. next E loc w1 S6. pure S6.
  next E n1 w1 H1. next E b1 w2 X1.
  assert (Enc1 : exists su sla sle sdt,
    encode_mapping [("user_id", user_id); ("last_activity", la); ("last_event", le);
                    ("device_type", dt); ("location", JStr (json_dumps loc))]
    = Ok [("user_id", su); ("last_activity", sla); ("last_event", sle);
          ("device_type", sdt); ("location", json_dumps loc)]
    /\ py_str user_id = su).
  { destruct (redis_hset_encoded _ _ _ _ _ H1) as (fields & L). cbn in L.
    destruct (redis_encode user_id) as [su|] eqn:Eu; [|discriminate].
    destruct (redis_encode la) as [sla|] eqn:Ela; [|discriminate].
    destruct (redis_encode le) as [sle|] eqn:Ele; [|discriminate].
    destruct (redis_encode dt) as [sdt|] eqn:Edt; [|discriminate].
    exists su, sla, sle, sdt. split; [|apply redis_encode_py_str; exact Eu].
    cbn. rewrite Eu, Ela, Ele, Edt. reflexivity. }
  destruct Enc1 as (su & sla & sle & sdt & Enc1 & Pu).
  destruct (hset_then_expire _ _ _ _ _ _ _ _ _ Enc1 ltac:(cbn; distinct_keys) H1 X1)
    as (hs & Ls & Fs & Ds).
  next E la2 w3 S7. pure S7. next E le2 w3 S8. pure S8.
  next E n2 w3 H2. next E b2 w4 X2.
  assert (Enc2 : exists sla2 sle2 ss,
    encode_mapping [("last_activity", la2); ("last_event", le2);
                    ("current_session", session_id)]
    = Ok [("last_activity", sla2); ("last_event", sle2); ("current_session", ss)]
    /\ py_str session_id = ss).
  { destruct (redis_hset_encoded _ _ _ _ _ H2) as (fields & L). cbn in L.
    destruct (redis_encode la2) as [sla2|] eqn:Ela; [|discriminate].
    destruct (redis_encode le2) as [sle2|] eqn:Ele; [|discriminate].
    destruct (redis_encode session_id) as [ss|] eqn:Es; [|discriminate].
    exists sla2, sle2, ss. split; [|apply redis_encode_py_str; exact Es].
    cbn. rewrite Ela, Ele, Es. reflexivity. }
  destruct Enc2 as (sla2 & sle2 & ss & Enc2 & Ps).
  destruct (hset_then_expire _ _ _ _ _ _ _ _ _ Enc2 ltac:(cbn; distinct_keys) H2 X2)
    as (hu & Lu & Fu & Du).
  next E event_type w5 S9. pure S9.
  next E today w5 S10. injection S10 as <- <-.
  next E n3 w5 H3. next E b3 w6 X3.
  destruct (write_then_expire _ _ _ _ _ _ _ _ _ stores_incr H3 X3) as (_ & D3 & _).
  next E has_product w7 S11. pure S11.
  next E u w8 P.
  next E has_query w9 Q.
  assert (D8 : forall k, is_prefix "popular_products" k = false ->
                         w_redis w8 !! k = w_redis w6 !! k).
  { intros k Hk. destruct has_product.
    - next P pid w7 S12. pure S12.
      next P n4 w7 H4. apply redis_zincrby_Ok in H4 as (m4 & H4).
      next P b4 w7' X4. unfold ret in P. injection P as _ <-.
      destruct (write_then_expire _ _ _ _ _ _ _ _ _ (stores_zincrby 1 m4) H4 X4)
        as (_ & D4 & _).
      apply D4. intros ->. discriminate Hk.
    - unfold ret in P. injection P as _ <-. reflexivity. }
  assert (Q' : w9 = w8).
  { destruct (is_str event_type "search").
    - pure Q. reflexivity.
    - injection Q as _ <-. reflexivity. }
  subst w9.
  assert (D9 : forall k, is_prefix "search_queries:" k = false ->
                         w_redis w' !! k = w_redis w8 !! k).
  { intros k Hk. destruct has_query.
    - next E sq w9 S13. pure S13.
      next E n5 w9 H5. apply redis_zincrby_Ok in H5 as (m5 & H5).
      next E b5 w10 X5. unfold ret in E. injection E as <-.
      destruct (write_then_expire _ _ _ _ _ _ _ _ _ (stores_zincrby 1 m5) H5 X5)
        as (_ & D5 & _).
      apply D5. intros ->. cbn in Hk. discriminate Hk.
    - unfold ret in E. injection E as <-. reflexivity. }
  exists hu, hs. repeat split.
  - rewrite D9 by reflexivity. rewrite D8 by reflexivity.
    rewrite D3 by (cbn; discriminate). exact Lu.
  - rewrite Ps. apply Fu. cbn. auto.
  - rewrite D9 by reflexivity. rewrite D8 by reflexivity.
    rewrite D3 by (cbn; discriminate).
    rewrite Du by (cbn; discriminate). exact Ls.
  - rewrite Pu. apply Fs. cbn. auto.
Qed.

Lemma user_lookup_found qp user_id w hu t s :
  dict_get "user_id" qp = Some user_id -> user_id <> "" ->
  self_redis_client w = false -> is_Some (w_redis_conf w) -> w_redis_faults w = [] ->
  w_redis w !! ("user:" +:+ user_id) = Some (Entry (RHash hu) t) ->
  hu !! "current_session" = Some s ->
  match w_redis w !! ("session:" +:+ s) with
  | Some (Entry (RHash _) _) | None => True
  | _ => False
  end ->
  exists w',
    ApiHandler.handle_user_lookup qp w
    = (Ok (user_reply user_id (map_to_list hu)
             (match w_redis w !! ("session:" +:+ s) with
              | Some (Entry (RHash hs) _) => map_to_list hs
              | _ => []
              end)), w').
Proof.
  intros Hq Ne Sr Hc F Lu Ls Hs.
  destruct (get_redis_client_fresh w Sr) as (w1 & C & S1 & F1 & _).
  { split; [exact Hc | rewrite F; discriminate]. }
  rewrite F in F1. cbn in F1.
  unfold ApiHandler.handle_user_lookup.
  rewrite (bind_step _ _ _ _ _ C), Hq.
  assert (T : opt_truthy (Some user_id) = true).
  { cbn. apply String.eqb_neq in Ne. rewrite Ne. reflexivity. }
  rewrite T. cbn [negb default from_option id].
  destruct (redis_on_reads HGETALL ("user:" +:+ user_id) hgetall_step w1 reads_hgetall F1)
    as (w2 & E2 & S2 & F2 & _).
  rewrite S1, Lu in E2. cbn in E2.
  assert (D : dict_get "current_session" (map_to_list hu) = Some s)
    by (rewrite dict_get_map_to_list; exact Ls).
  destruct (redis_on_reads HGETALL ("session:" +:+ s) hgetall_step w2 reads_hgetall F2)
    as (w3 & E3 & S3 & F3 & _).
  rewrite S2, S1 in E3.
  exists w3. apply try_except_pass.
  unfold redis_hgetall at 1. rewrite (bind_step _ _ _ _ _ E2).
  destruct (map_to_list hu) as [|kv l] eqn:Lst; [discriminate D|].
  rewrite D. unfold redis_hgetall.
  destruct (w_redis w !! ("session:" +:+ s)) as [[[x|hs|x|x|x] ts]|]; try destruct Hs;
    cbn in E3; rewrite (bind_step _ _ _ _ _ E3); reflexivity.
Qed.

(** X21: a user whose event has been cached is found by the user lookup, which
    follows [current_session] to the session the same write cached: for
    the first hour after the write the reply carries the user's hash and
    the session's hash (whose [user_id] is the user looked up); once the
    session's 3600 seconds are over and until the user's 86400 run out,
    the user is still found and [session_data] is empty. *)
Theorem cached_user_is_found (method : option string) (event user_id session_id : json)
    (w w1 : world) (d : Z) :
  default "GET" method = "GET" ->
  DataProcessor.cache_user_data event w = (Ok tt, w1) ->
  py_getitem event "user_id" = Ok user_id ->
  py_getitem event "session_id" = Ok session_id ->
  py_str user_id <> "" ->
  is_Some (w_redis_conf w1) -> w_redis_faults w1 = [] ->
  0 <= d < 86400 ->
  exists hu session_data w',
    ApiHandler.lambda_handler
      (ApiEvent method (Some "/user") (Some [("user_id", py_str user_id)]))
      (with_redis (elapse d (w_redis w1)) w1)
    = (Ok (user_reply (py_str user_id) (map_to_list hu) session_data), w')
    /\ hu !! "current_session" = Some (py_str session_id)
    /\ (d < 3600 -> dict_get "user_id" session_data = Some (py_str user_id))
    /\ (3600 <= d -> session_data = []).
Proof.
  intros Hm Run Gu Gs Ne Hc F Hd.
  destruct (cache_user_data_hashes event user_id session_id w w1 Run Gu Gs)
    as (hu & hs & Lu & Cu & Ls & Cs).
  set (v := with_redis (elapse d (w_redis w1)) w1).
  set (qp := [("user_id", py_str user_id)]).
  set (event' := ApiEvent method (Some "/user") (Some qp)).
  assert (Lu' : w_redis (api_entry event' v) !! ("user:" +:+ py_str user_id)
                = Some (Entry (RHash hu) (Some (86400 - d)))).
  { cbn. apply lookup_elapse; [exact Lu | lia]. }
  destruct (Z.lt_ge_cases d 3600) as [Early|Late].
  - assert (Ls' : w_redis (api_entry event' v) !! ("session:" +:+ py_str session_id)
                  = Some (Entry (RHash hs) (Some (3600 - d)))).
    { cbn. apply lookup_elapse; [exact Ls | lia]. }
    destruct (user_lookup_found qp (py_str user_id) (api_entry event' v) hu
                (Some (86400 - d)) (py_str session_id)) as (w2 & E);
      try assumption; try reflexivity.
    { rewrite Ls'. exact I. }
    rewrite Ls' in E.
    destruct (lambda_handler_user method qp v Hm _ _ E) as (w' & L & _).
    exists hu, (map_to_list hs), w'. split; [exact L|]. split; [exact Cu|].
    split; [|lia]. intros _. rewrite dict_get_map_to_list. exact Cs.
  - assert (Ls' : w_redis (api_entry event' v) !! ("session:" +:+ py_str session_id)
                  = None).
    { cbn. eapply lookup_elapse_gone; [exact Ls | lia]. }
    destruct (user_lookup_found qp (py_str user_id) (api_entry event' v) hu
                (Some (86400 - d)) (py_str session_id)) as (w2 & E);
      try assumption; try reflexivity.
    { rewrite Ls'. exact I. }
    rewrite Ls' in E.
    destruct (lambda_handler_user method qp v Hm _ _ E) as (w' & L & _).
    exists hu, [], w'. split; [exact L|]. split; [exact Cu|].
    split; [lia | reflexivity].
Qed.

(** ** Analytics *)

Lemma Z_of_str_inv s z : Z_of_str s = Some z -> s = str_of_Z z.
Proof.
  unfold Z_of_str. destruct (NilZero.int_of_string s) as [d|]; [|discriminate].
  destruct (String.eqb_spec (str_of_Z (Z.of_int d)) s) as [E|N]; [|discriminate].
  intros [= <-]. symmetry. exact E.
Qed.

Lemma event_counts_loop_quiet (count : string -> Z) today types acc w :
  (forall z, py_int (str_of_Z z) = Some z) ->
  w_redis_faults w = [] -> NoDup types ->
  (forall ty, In ty types -> dict_get ty acc = None) ->
  (forall ty, In ty types ->
     counter_read (w_redis w) ("counters:" +:+ today +:+ ":" +:+ ty) = Some (count ty)) ->
  exists w',
    ApiHandler.event_counts_loop today types acc w
    = (Ok (acc ++ map (fun ty => (ty, count ty)) types)%list, w')
    /\ w_redis w' = w_redis w /\ w_redis_faults w' = [] /\ w_now w' = w_now w.
Proof.
  intros Int. revert acc w. induction types as [|ty rest IH]; intros acc w F ND Fresh Cnt.
  - exists w. cbn. rewrite app_nil_r. auto.
  - apply NoDup_cons in ND as [Nty ND]. rewrite list_elem_of_In in Nty.
    cbn [ApiHandler.event_counts_loop map].
    destruct (redis_on_reads GET ("counters:" +:+ today +:+ ":" +:+ ty) get_step w
                reads_get F) as (w1 & E1 & S1 & F1 & N1).
    assert (Step : exists w2,
      (count0 <- redis_get ("counters:" +:+ today +:+ ":" +:+ ty) ;;
       (if opt_truthy count0 then
          match py_int (default "" count0) with
          | Some n => ret n
          | None => raise (ValueError ("invalid literal for int() with base 10: "
                                       +:+ py_repr (opt_json count0)))
          end
        else ret 0)) w = (Ok (count ty), w2)
      /\ w_redis w2 = w_redis w /\ w_redis_faults w2 = [] /\ w_now w2 = w_now w).
    { specialize (Cnt ty (or_introl eq_refl)). unfold counter_read in Cnt.
      unfold redis_get.
      destruct (w_redis w !! ("counters:" +:+ today +:+ ":" +:+ ty))
        as [[[s|h|s|z|l] t]|]; try discriminate; cbn in E1;
        rewrite (bind_step _ _ _ _ _ E1).
      - pose proof (Z_of_str_inv _ _ Cnt) as ->.
        assert (T : opt_truthy (Some (str_of_Z (count ty))) = true).
        { cbn. destruct (String.eqb_spec (str_of_Z (count ty)) "") as [E|]; [|reflexivity].
          rewrite E in Cnt. vm_compute in Cnt. discriminate. }
        rewrite T. cbn [default from_option id]. rewrite Int.
        exists w1. auto.
      - injection Cnt as <-. exists w1. auto. }
    destruct Step as (w2 & Step & S2 & F2 & N2).
    rewrite <- bind_assoc, (bind_step _ _ _ _ _ Step).
    rewrite dict_set_fresh by (apply Fresh; left; reflexivity).
    destruct (IH (acc ++ [(ty, count ty)])%list w2 F2 ND) as (w' & Loop & S' & F' & N').
    { intros ty' I. rewrite dict_get_app, (Fresh ty' (or_intror I)). cbn.
      destruct (String.eqb_spec ty ty') as [->|]; [contradiction | reflexivity]. }
    { intros ty' I. rewrite S2. apply Cnt. right. exact I. }
    exists w'. rewrite Loop, <- app_assoc. split; [reflexivity|].
    repeat split; congruence.
Qed.

(** X22: on a reachable Redis the analytics request reports, for each of the
    five event types [view], [click], [purchase], [search] and
    [add_to_cart], the integer its counter of the day holds, [0] standing
    for a counter that does not exist; [total_events] is the sum of these
    five counts (the counters of other event types are not read); the two
    rankings are the ten best of their sorted sets, none when the set does
    not exist.  The keyspace is left as it was. *)
Theorem analytics_report_the_counters (method : option string)
    (qp : list (string * string)) (w : world) (count : string -> Z)
    (products searches : list (string * Z)) :
  default "GET" method = "GET" ->
  (forall z, py_int (str_of_Z z) = Some z) ->
  is_Some (w_redis_conf w) -> w_redis_faults w = [] ->
  top_ten (w_redis w) "popular_products" = Some products ->
  top_ten (w_redis w) ("search_queries:" +:+ w_today w) = Some searches ->
  (forall ty, In ty reported_event_types ->
     counter_read (w_redis w) ("counters:" +:+ w_today w +:+ ":" +:+ ty)
     = Some (count ty)) ->
  exists w',
    ApiHandler.lambda_handler (ApiEvent method (Some "/analytics") (Some qp)) w
    = (Ok (analytics_reply (w_today w) products searches
             (map (fun ty => (ty, count ty)) reported_event_types)), w')
    /\ w_redis w' = w_redis w.
Proof.
  intros Hm Int Hc F Tp Ts Cnt.
  set (event := ApiEvent method (Some "/analytics") (Some qp)).
  destruct (get_redis_client_fresh (api_entry event w) eq_refl)
    as (w1 & C & S1 & F1 & T1 & _ & _ & N1 & D1 & _).
  { split; [exact Hc | cbn; rewrite F; discriminate]. }
  cbn in F1, S1, T1, N1, D1. rewrite F in F1. cbn in F1.
  destruct (redis_on_reads ZREVRANGE "popular_products" (zrevrange_step 9) w1
              (reads_zrevrange 9) F1) as (w2 & E2 & S2 & F2 & N2).
  destruct (redis_on_reads ZREVRANGE ("search_queries:" +:+ w_today w)
              (zrevrange_step 9) w2 (reads_zrevrange 9) F2) as (w3 & E3 & S3 & F3 & N3).
  destruct (event_counts_loop_quiet count (w_today w) reported_event_types [] w3 Int F3)
    as (w4 & Loop & S4 & F4 & N4).
  { unfold reported_event_types. distinct_keys. }
  { reflexivity. }
  { intros ty I. rewrite S3, S2, S1. apply Cnt, I. }
  assert (P : fst (zrevrange_step 9 (w_redis w1 !! "popular_products")) = Ok products).
  { rewrite S1. unfold top_ten in Tp.
    destruct (w_redis w !! "popular_products") as [[[] t]|]; cbn; congruence. }
  assert (Q : fst (zrevrange_step 9 (w_redis w2 !! ("search_queries:" +:+ w_today w)))
              = Ok searches).
  { rewrite S2, S1. unfold top_ten in Ts.
    destruct (w_redis w !! ("search_queries:" +:+ w_today w)) as [[[] t]|]; cbn;
      congruence. }
  rewrite P in E2. rewrite Q in E3.
  assert (Run : ApiHandler.handle_analytics qp (api_entry event w)
                = (Ok (analytics_reply (w_today w) products searches
                         (map (fun ty => (ty, count ty)) reported_event_types)), w4)).
  { unfold ApiHandler.handle_analytics. rewrite (bind_step _ _ _ _ _ C).
    apply try_except_pass.
    unfold bind at 1. unfold utc_today at 1. rewrite D1.
    unfold redis_zrevrange.
    rewrite (bind_step _ _ _ _ _ E2), (bind_step _ _ _ _ _ E3).
    change ["view"; "click"; "purchase"; "search"; "add_to_cart"]
      with reported_event_types.
    rewrite (bind_step _ _ _ _ _ Loop). reflexivity. }
  destruct (lambda_handler_analytics method qp w Hm _ _ Run) as (w' & L & _ & S').
  exists w'. split; [exact L|]. rewrite S', S4, S3, S2, S1. reflexivity.
Qed.

(** ** Ingesting a product again *)

Lemma foldl_insert_idem (fields : list (string * string)) (h : gmap string string) :
  (forall f v, In (f, v) fields -> h !! f = Some v) ->
  foldl (fun h kv => <[fst kv := snd kv]> h) h fields = h.
Proof.
  induction fields as [|[f0 v0] rest IH]; intros All; cbn; [reflexivity|].
  rewrite insert_id by (apply All; left; reflexivity).
  apply IH. intros f v I. apply All. right. exact I.
Qed.

Lemma sadd_then_expire name value member seconds w n w1 b w2 :
  redis_encode value = Ok member ->
  redis_sadd name value w = (Ok n, w1) ->
  redis_expire name seconds w1 = (Ok b, w2) ->
  exists s,
    w_redis w2 !! name = Some (Entry (RSet s) (Some seconds))
    /\ member ∈ s
    /\ differ_at name (w_redis w) (w_redis w2).
Proof.
  intros Enc W X. unfold redis_sadd in W.
  apply bind_Ok in W as (member' & w0 & L & W). apply lift_Ok in L as [L ->].
  assert (member' = member) as -> by congruence.
  apply redis_on_Ok in W as (e1 & F1 & R1 & _).
  apply redis_on_Ok in X as (e2 & F2 & R2 & _).
  rewrite R1, lookup_partial_alter_eq in F2.
  assert (E1 : exists s t, e1 = Some (Entry (RSet s) t) /\ member ∈ s).
  { destruct (w_redis w !! name) as [[[x|x|s|x|x] t]|]; cbn in F1; try discriminate;
      injection F1 as _ <-; eexists _, _; (split; [reflexivity|]); set_solver. }
  destruct E1 as (s & t & -> & In1). cbn in F2. injection F2 as _ <-.
  exists s. split; [|split].
  - rewrite R2. apply lookup_partial_alter_eq.
  - exact In1.
  - intros k N. rewrite R2, R1, !lookup_partial_alter_ne by congruence. reflexivity.
Qed.

Lemma set_ex_value name value v ex w b w' :
  redis_encode value = Ok v ->
  redis_set_ex name value ex w = (Ok b, w') ->
  w_redis w' !! name = Some (Entry (RString v) (Some ex))
  /\ differ_at name (w_redis w) (w_redis w').
Proof.
  intros Enc E. unfold redis_set_ex in E.
  apply bind_Ok in E as (v' & w0 & L & E). apply lift_Ok in L as [L ->].
  assert (v' = v) as -> by congruence.
  apply redis_on_Ok in E as (e' & F & R & _).
  unfold set_ex_step in F. injection F as _ <-. split.
  - rewrite R. apply lookup_partial_alter_eq.
  - intros k N. rewrite R. apply lookup_partial_alter_ne. congruence.
Qed.

(** A command that finds its key as it would leave it changes nothing. *)
Lemma redis_on_same {A : Type} c k (f : option entry -> outcome A * option entry)
    w a :
  w_redis_faults w = [] ->
  f (w_redis w !! k) = (Ok a, w_redis w !! k) ->
  exists w', redis_on c k f w = (Ok a, w')
             /\ w_redis w' = w_redis w /\ w_redis_faults w' = [].
Proof.
  intros F E. unfold redis_on, redis_call. rewrite F, E.
  eexists. split; [reflexivity|]. cbn. rewrite partial_alter_self. auto.
Qed.

Lemma lift_run {A : Type} (o : outcome A) a w : o = Ok a -> lift o w = (Ok a, w).
Proof. intros ->. reflexivity. Qed.

(** X23: caching a product is idempotent: caching the same product again,
    right after a first write that succeeded, succeeds and leaves the
    keyspace exactly as the first write left it (same values, same times
    to live). *)
Theorem product_cache_write_is_idempotent (product : json) (w w1 : world) :
  DataProcessor.cache_product_data product w = (Ok tt, w1) ->
  w_redis_faults w1 = [] ->
  exists w2,
    DataProcessor.cache_product_data product w1 = (Ok tt, w2)
    /\ w_redis w2 = w_redis w1.
Proof.
  intros E F. unfold DataProcessor.cache_product_data in E.
  next E id w0 S1. pure S1.
  next E name w0 S2. pure S2. next E cat w0 S3. pure S3.
  next E price w0 S4. pure S4. next E brand w0 S5. pure S5.
  next E rating w0 S6. pure S6. next E stock w0 S7. pure S7.
  next E active w0 S8. pure S8.
  next E n1 wa H1. next E b1 wb X1.
  destruct (redis_hset_encoded _ _ _ _ _ H1) as (fields & Enc).
  assert (ND : NoDup (map fst fields)).
  { cbn in Enc.
    destruct (redis_encode name); [|discriminate].
    destruct (redis_encode cat); [|discriminate].
    destruct (redis_encode brand); [|discriminate].
    injection Enc as <-. cbn. distinct_keys. }
  destruct (hset_then_expire _ _ _ _ _ _ _ _ _ Enc ND H1 X1) as (h & Lp & Fp & Dp).
  next E cat2 wc S9. pure S9. assert (cat2 = cat) as -> by congruence.
  next E n2 wc H2. next E b2 wd X2.
  assert (EncId : exists m, redis_encode id = Ok m).
  { unfold redis_sadd in H2. apply bind_Ok in H2 as (m & w' & L & _).
    apply lift_Ok in L as [L _]. eauto. }
  destruct EncId as (m & EncId).
  destruct (sadd_then_expire _ _ _ _ _ _ _ _ _ EncId H2 X2) as (s & Lc & Is & Dc).
  next E name2 we S10. pure S10. assert (name2 = name) as -> by congruence.
  next E lowered we L.
  destruct name as [| | | |nm| |]; try (unfold raise in L; discriminate).
  unfold ret in L. injection L as <- <-.
  next E b3 wf H3. unfold ret in E. injection E as ->.
  destruct (set_ex_value _ _ _ _ _ _ _ EncId H3) as (Ls & Ds).
  (* what the first write left under the three keys *)
  assert (Lp1 : w_redis w1 !! ("product:" +:+ py_str id)
                = Some (Entry (RHash h) (Some 3600))).
  { rewrite Ds by (cbn; discriminate). rewrite Dc by (cbn; discriminate). exact Lp. }
  assert (Lc1 : w_redis w1 !! ("category_products:" +:+ py_str cat)
                = Some (Entry (RSet s) (Some 86400))).
  { rewrite Ds by (cbn; discriminate). exact Lc. }
  (* the second write, command by command *)
  destruct (redis_on_same HSET ("product:" +:+ py_str id) (hset_step fields) w1
              (Z.of_nat (length (filter (fun kv => h !! fst kv = None) fields))) F)
    as (u1 & R1 & K1 & F1).
  { rewrite Lp1. cbn. rewrite (foldl_insert_idem fields h Fp). reflexivity. }
  destruct (redis_on_same EXPIRE ("product:" +:+ py_str id) (expire_step 3600) u1 true F1)
    as (u2 & R2 & K2 & F2).
  { rewrite K1, Lp1. reflexivity. }
  destruct (redis_on_same SADD ("category_products:" +:+ py_str cat) (sadd_step m) u2
              (if bool_decide (m ∈ s) then 0 else 1) F2) as (u3 & R3 & K3 & F3).
  { rewrite K2, K1, Lc1. cbn.
    assert (Same : {[m]} ∪ s = s) by (apply subseteq_union_1_L; set_solver).
    rewrite Same. reflexivity. }
  destruct (redis_on_same EXPIRE ("category_products:" +:+ py_str cat)
              (expire_step 86400) u3 true F3) as (u4 & R4 & K4 & F4).
  { rewrite K3, K2, K1, Lc1. reflexivity. }
  destruct (redis_on_same SET ("product_search:" +:+ py_lower nm) (set_ex_step m 3600) u4
              true F4) as (u5 & R5 & K5 & F5).
  { rewrite K4, K3, K2, K1, Ls. reflexivity. }
  exists u5. split; [|congruence].
  unfold DataProcessor.cache_product_data.
  rewrite (bind_step _ _ _ _ _ (lift_run _ _ w1 S1)).
  rewrite (bind_step _ _ _ _ _ (lift_run _ _ w1 S2)).
  rewrite (bind_step _ _ _ _ _ (lift_run _ _ w1 S3)).
  rewrite (bind_step _ _ _ _ _ (lift_run _ _ w1 S4)).
  rewrite (bind_step _ _ _ _ _ (lift_run _ _ w1 S5)).
  rewrite (bind_step _ _ _ _ _ (lift_run _ _ w1 S6)).
  rewrite (bind_step _ _ _ _ _ (lift_run _ _ w1 S7)).
  rewrite (bind_step _ _ _ _ _ (lift_run _ _ w1 S8)).
  unfold redis_hset at 1.
  rewrite bind_assoc, (bind_step _ _ _ _ _ (lift_run _ _ w1 Enc)).
  rewrite (bind_step _ _ _ _ _ R1).
  unfold redis_expire at 1. rewrite (bind_step _ _ _ _ _ R2).
  rewrite (bind_step _ _ _ _ _ (lift_run _ _ u2 S3)).
  unfold redis_sadd at 1.
  rewrite bind_assoc, (bind_step _ _ _ _ _ (lift_run _ _ u2 EncId)).
  rewrite (bind_step _ _ _ _ _ R3).
  unfold redis_expire at 1. rewrite (bind_step _ _ _ _ _ R4).
  rewrite (bind_step _ _ _ _ _ (lift_run _ _ u4 S2)).
  unfold bind at 1. unfold ret at 1.
  unfold redis_set_ex at 1.
  rewrite bind_assoc, (bind_step _ _ _ _ _ (lift_run _ _ u4 EncId)).
  rewrite (bind_step _ _ _ _ _ R5). reflexivity.
Qed.

(** ** The Redis client of a handler object *)

(** X24: [get_redis_client] stores the client in the handler object before it
    tests the connection.  So once an endpoint has been found, a second
    call on the same object returns the stored client without any round
    trip, whatever the first call gave: a client whose connection test
    failed is handed out untested by the next call. *)
Theorem redis_client_is_kept_untested (w : world) (r : outcome unit) (w1 : world) :
  is_Some (w_redis_conf w) ->
  get_redis_client w = (r, w1) ->
  get_redis_client w1 = (Ok tt, w1).
Proof.
  intros [ep Hc] E.
  assert (S1 : self_redis_client w1 = true).
  { unfold get_redis_client, try_except, bind, raise, logger, redis_ping, redis_call in E.
    destruct (self_redis_client w) eqn:S; [injection E as _ <-; exact S|].
    rewrite Hc in E. cbn in E.
    destruct (w_redis_faults w) as [|[] fs]; cbn in E; injection E as _ <-; reflexivity. }
  unfold get_redis_client. rewrite S1. reflexivity.
Qed.

(** ** Records that are not objects *)




(** ** Adding up an envelope *)

Lemma records_loop_shift records n m w :
  DataProcessor.records_loop records (n + m) w
  = bind (DataProcessor.records_loop records m) (fun t => ret (n + t)) w.
Proof.
  revert m w. induction records as [|record rest IH]; intros m w.
  - reflexivity.
  - cbn [DataProcessor.records_loop].
    rewrite bind_assoc. apply bind_ext. intros b w1.
    rewrite bind_assoc. apply bind_ext. intros data w2.
    rewrite bind_assoc. apply bind_ext. intros t w3.
    rewrite <- Z.add_assoc. apply IH.
Qed.

(** X26: the count reported for an envelope of [Records] is the sum of the
    counts of its records, processed in order: an envelope made of two
    runs of records reports the count of the first run plus the count the
    second run gives when processed after it. *)
Theorem envelope_counts_add_up (d : list (string * json)) (pre post : list json)
    (w w0 w1 w2 : world) (n m : Z) :
  dict_get "Records" d = Some (JList (pre ++ post)) ->
  DataProcessor.create_opensearch_indices (processor_entry w) = (Ok tt, w0) ->
  DataProcessor.records_loop pre 0 w0 = (Ok n, w1) ->
  DataProcessor.records_loop post 0 w1 = (Ok m, w2) ->
  exists w',
    DataProcessor.lambda_handler (JDict d) w = (Ok (success_reply (n + m) w), w').
Proof.
  intros G C Pre Post.
  assert (K : forall l x, keeps anything (DataProcessor.records_loop l x)).
  { intros l x. keeps_apply @kept_records_loop;
      [apply steady_cache_user_data | apply steady_cache_product_data]. }
  assert (N0 : w_now w0 = w_now w).
  { apply steady_create_opensearch_indices in C as (_ & N & _). exact N. }
  assert (N1 : w_now w1 = w_now w0) by (apply K in Pre as (_ & N & _); exact N).
  assert (N2 : w_now w2 = w_now w1) by (apply K in Post as (_ & N & _); exact N).
  assert (L : DataProcessor.records_loop (pre ++ post) 0 w0 = (Ok (n + m), w2)).
  { rewrite records_loop_app, (bind_step _ _ _ _ _ Pre).
    replace n with (n + 0) at 1 by lia.
    rewrite records_loop_shift, (bind_step _ _ _ _ _ Post). reflexivity. }
  assert (HR : dict_has "Records" d = true) by (unfold dict_has; rewrite G; reflexivity).
  unfold DataProcessor.lambda_handler.
  unfold bind at 1. unfold logger at 1. unfold bind at 1.
  change (with_clients false false _) with (processor_entry w).
  unfold try_except, bind, lift, py_contains, py_getitem, py_iter. rewrite C, HR, G, L.
  cbn. eexists. unfold success_reply. rewrite <- N0, <- N1, <- N2. reflexivity.
Qed.

(** ** The product ranking *)

#[local] Instance score_le_preorder key member : PreOrder (score_le key member).
Proof.
  split.
  - intros st v E. exists v. split; [exact E | lia].
  - intros a b c Hab Hbc v E.
    destruct (Hab v E) as (v1 & E1 & L1).
    destruct (Hbc v1 E1) as (v2 & E2 & L2).
    exists v2. split; [exact E2 | lia].
Qed.

Lemma score_le_other key member k st e' :
  k <> key -> score_le key member st (partial_alter (fun _ => e') k st).
Proof.
  intros N v E. exists v. split; [|lia].
  unfold score_read in *. rewrite lookup_partial_alter_ne by exact N. exact E.
Qed.

Lemma score_le_expire key member k seconds st r e' :
  expire_step seconds (st !! k) = (r, e') ->
  score_le key member st (partial_alter (fun _ => e') k st).
Proof.
  intros F. destruct (decide (k = key)) as [->|N]; [|apply score_le_other; exact N].
  intros v E. exists v. split; [|lia].
  unfold score_read in *. rewrite lookup_partial_alter_eq.
  destruct (st !! key) as [[val t]|]; cbn in F; injection F as _ <-; exact E.
Qed.

Lemma score_le_zincrby key member k amount m st r e' :
  0 <= amount ->
  zincrby_step amount m (st !! k) = (r, e') ->
  score_le key member st (partial_alter (fun _ => e') k st).
Proof.
  intros Pos F. destruct (decide (k = key)) as [->|N]; [|apply score_le_other; exact N].
  intros v E. unfold score_read in *. rewrite lookup_partial_alter_eq.
  destruct (st !! key) as [[[x|x|x|z|x] t]|]; cbn in F; try discriminate;
    injection F as _ <-; injection E as <-.
  - destruct (decide (m = member)) as [->|Nm].
    + rewrite lookup_insert_eq. eexists. split; [reflexivity|]. cbn. lia.
    + rewrite lookup_insert_ne by exact Nm. eexists. split; [reflexivity | lia].
  - destruct (decide (m = member)) as [->|Nm].
    + rewrite lookup_singleton_eq. eexists. split; [reflexivity|]. cbn. lia.
    + rewrite lookup_singleton_ne by exact Nm. eexists. split; [reflexivity|]. cbn. lia.
Qed.

Ltac score_steps :=
  repeat first
    [ keeps_step
    | keeps_apply @keeps_redis_on;
      intros;
      first [ eapply score_le_zincrby; [|eassumption]; lia
            | eapply score_le_expire; eassumption
            | apply score_le_other; cbn; discriminate ] ].

Lemma cache_keeps_scores k record member :
  keeps (score_le "popular_products" member) (cache k record).
Proof.
  destruct k; cbn [cache].
  - unfold DataProcessor.cache_user_data, redis_hset, redis_expire, redis_incr,
      redis_zincrby.
    score_steps.
  - unfold DataProcessor.cache_product_data, redis_hset, redis_expire, redis_sadd,
      redis_set_ex.
    score_steps.
Qed.

(** X27: each event with a [product_id] that is cached adds exactly one to
    the score of its product in [popular_products]; and no cache write,
    of an event or of a product, successful or not, ever takes the score
    of a product down: until the key expires as a whole, the ranking only
    grows. *)
Theorem popular_products_scores_count (event product_id : json) (w w' : world)
    (v : Z) :
  DataProcessor.cache_user_data event w = (Ok tt, w') ->
  py_getitem event "product_id" = Ok product_id ->
  score_read (w_redis w) "popular_products" (py_str product_id) = Some v ->
  score_read (w_redis w') "popular_products" (py_str product_id) = Some (v + 1)
  /\ (forall k record member u r u' x,
        cache k record u = (r, u') ->
        score_read (w_redis u) "popular_products" member = Some x ->
        exists x', score_read (w_redis u') "popular_products" member = Some x'
                   /\ x <= x').
Proof.
  intros E Gp Sc. split.
  2:{ intros k record member u r u' x Step Sx.
      destruct (cache_keeps_scores k record member u r u' Step) as [Le _].
      exact (Le x Sx). }
  unfold DataProcessor.cache_user_data in E.
  next E uid w1 S1. pure S1. next E sid w1 S2. pure S2.
  next E la w1 S3. pure S3. next E le w1 S4. pure S4.
  next E dt w1 S5. pure S5. next E loc w1 S6. pure S6.
  next E n1 w1 H1. apply redis_hset_Ok in H1 as (f1 & H1).
  next E b1 w2 X1.
  destruct (write_then_expire _ _ _ _ _ _ _ _ _ (stores_hset f1) H1 X1) as (_ & D1 & _).
  next E la2 w3 S7. pure S7. next E le2 w3 S8. pure S8.
  next E n2 w3 H2. apply redis_hset_Ok in H2 as (f2 & H2).
  next E b2 w4 X2.
  destruct (write_then_expire _ _ _ _ _ _ _ _ _ (stores_hset f2) H2 X2) as (_ & D2 & _).
  next E event_type w5 S9. pure S9.
  next E today w5 S10. injection S10 as <- <-.
  next E n3 w5 H3. next E b3 w6 X3.
  destruct (write_then_expire _ _ _ _ _ _ _ _ _ stores_incr H3 X3) as (_ & D3 & _).
  next E has_product w7 S11. pure S11.
  assert (has_product = true) as ->.
  { destruct event as [| | | | | |d]; try discriminate. cbn in S11, Gp.
    injection S11 as <-. unfold dict_has.
    destruct (dict_get "product_id" d); [reflexivity | discriminate]. }
  next E u w8 P.
  next E has_query w9 Q.
  assert (L6 : w_redis w6 !! "popular_products" = w_redis w !! "popular_products").
  { rewrite D3 by (cbn; discriminate). rewrite D2 by (cbn; discriminate).
    apply D1. cbn. discriminate. }
  next P pid w7 S12. pure S12. assert (pid = product_id) as -> by congruence.
  next P n4 w7 H4. unfold redis_zincrby in H4.
  next H4 m wz Em. pure Em. apply redis_encode_py_str in Em. subst m.
  apply redis_on_Ok in H4 as (e4 & F4 & R4 & _).
  next P b4 w7' X4. unfold ret in P. injection P as _ <-.
  apply redis_on_Ok in X4 as (e5 & F5 & R5 & _).
  rewrite R4, lookup_partial_alter_eq in F5.
  assert (L8 : score_read (w_redis w7') "popular_products" (py_str product_id)
               = Some (v + 1)).
  { unfold score_read in *. rewrite R5, lookup_partial_alter_eq.
    rewrite L6 in F4.
    destruct (w_redis w !! "popular_products") as [[[x|x|x|z|x] t]|];
      try discriminate; cbn in F4; injection F4 as _ <-; cbn in F5;
      injection F5 as _ <-; injection Sc as <-.
    - rewrite lookup_insert_eq. reflexivity.
    - rewrite lookup_singleton_eq. reflexivity. }
  assert (Q' : w9 = w7').
  { destruct (is_str event_type "search").
    - pure Q. reflexivity.
    - injection Q as _ <-. reflexivity. }
  subst w9.
  assert (D9 : w_redis w' !! "popular_products" = w_redis w7' !! "popular_products").
  { destruct has_query.
    - next E sq w9 S13. pure S13.
      next E n5 w9 H5. apply redis_zincrby_Ok in H5 as (m5 & H5).
      next E b5 w10 X5. unfold ret in E. injection E as <-.
      destruct (write_then_expire _ _ _ _ _ _ _ _ _ (stores_zincrby 1 m5) H5 X5)
        as (_ & D5 & _).
      apply D5. cbn. discriminate.
    - unfold ret in E. injection E as <-. reflexivity. }
  unfold score_read in *. rewrite D9. exact L8.
Qed.

End Props.

(** * The properties on concrete requests *)

Lemma search_size_not_an_integer_witness :
  exists e w',
    ApiHandler.lambda_handler (H := sample_runtime)
      (ApiEvent (Some "GET") (Some "/search")
                (Some [("q", "laptop"); ("size", "ten")])) quiet_world
    = (Ok (ApiHandler.create_response (H := sample_runtime) 500
             (JDict [("error", JStr (exn_str e));
                     ("timestamp", JStr (w_now quiet_world))])), w')
    /\ (opensearch_configured quiet_world -> redis_reachable quiet_world ->
        e = int_value_error (H := sample_runtime) "ten"
        /\ w_trace w' = (w_trace quiet_world ++ [Redis PING ""])%list).
Proof.
  apply (search_size_not_an_integer (H := sample_runtime)
           (Some "GET") [("q", "laptop"); ("size", "ten")] "ten" quiet_world);
    reflexivity.
Defined.

Lemma validation_follows_client_init_witness :
  validation_outcome (H := sample_runtime)
    (ApiEvent (Some "GET") (Some "/cache") (Some [("limit", "5")]))
    "Either key or pattern parameter is required" quiet_world
  /\ validation_outcome (H := sample_runtime)
       (ApiEvent (Some "GET") (Some "/user") (Some []))
       "user_id parameter is required" quiet_world.
Proof.
  apply (validation_follows_client_init (H := sample_runtime)
           (Some "GET") [("limit", "5")] [] quiet_world); reflexivity.
Defined.

(** C6 as stated fails: on a healthy system the 400 of a cache lookup
    without parameters comes after a ping of Redis, and with Redis down
    the same request is answered 500. *)
Lemma validation_pings_redis_first :
  (let run := ApiHandler.lambda_handler (H := sample_runtime)
                (ApiEvent (Some "GET") (Some "/cache") (Some [])) quiet_world in
   reply_status run = Some 400 /\ w_trace (snd run) = [Redis PING ""])
  /\ reply_status
       (ApiHandler.lambda_handler (H := sample_runtime)
          (ApiEvent (Some "GET") (Some "/cache") (Some [])) redis_down_world)
     = Some 500
  /\ reply_status
       (ApiHandler.lambda_handler (H := sample_runtime)
          (ApiEvent (Some "GET") (Some "/user") (Some [])) redis_down_world)
     = Some 500.
Proof. vm_compute. repeat split; reflexivity. Qed.

Lemma create_indices_repeatable_witness :
  (exists w',
      DataProcessor.create_opensearch_indices indexed_world = (Ok tt, w')
      /\ w_trace w' = (w_trace indexed_world
                       ++ [OsExists "user-events"; OsExists "product-catalog"])%list
      /\ w_indices indexed_world ⊆ w_indices w')
  /\ (exists w',
        DataProcessor.lambda_handler (H := sample_runtime)
          (JDict [("events", JList [])]) race_world
        = (Ok (fatal_reply (H := sample_runtime)
                 (TransportError "resource_already_exists_exception") race_world), w')
        /\ In (index_error "user-events"
                 (TransportError "resource_already_exists_exception")) (w_log w')).
Proof.
  split.
  - apply (proj1 (proj2 (proj2 (proj2 (create_indices_repeatable_not_race_tolerant
                                         (H := sample_runtime) indexed_world))))).
    + left. reflexivity.
    + intros index [<-|[<-|[]]]; cbn; set_solver.
    + reflexivity.
  - edestruct (proj1 (proj2 (proj2 (proj2 (proj2 (proj2
                 (create_indices_repeatable_not_race_tolerant
                    (H := sample_runtime) race_world))))))
                 (JDict [("events", JList [])]) [] "user-events" ["product-catalog"])
      as (w' & Run & _ & _ & Logged).
    + reflexivity.
    + reflexivity.
    + reflexivity.
    + right. eexists. split; reflexivity.
    + exists w'. split; [exact Run | exact Logged].
Defined.

(** C8 as stated fails: when another invocation creates [user-events]
    between the existence check and the create request, the create step
    fails, the error is re-raised, and the invocation ends with status 500
    although the index now exists. *)
Lemma creation_race_is_fatal :
  let run := DataProcessor.lambda_handler (H := sample_runtime)
               (JDict [("events", JList [])]) race_world in
  reply_status run = Some 500
  /\ w_trace (snd run) = [OsExists "user-events"; OsCreate "user-events"]
  /\ bool_decide ("user-events" ∈ w_indices (snd run)) = true
  /\ fst run
     = Ok (fatal_reply (H := sample_runtime)
             (TransportError "resource_already_exists_exception") race_world).
Proof. vm_compute. repeat split; reflexivity. Qed.

Lemma bulk_errors_are_not_fatal_witness :
  let noisy := bulk_world (OsReply partial_reply) (OsReply partial_reply) in
  let clean := bulk_world (OsReply (JDict [])) (OsReply (JDict [])) in
  let refused := bulk_world (OsReply partial_reply) (OsDown "timed out") in
  (fst (DataProcessor.lambda_handler (H := sample_runtime) generated_batch noisy)
   = fst (DataProcessor.lambda_handler (H := sample_runtime) generated_batch clean)
   /\ fst (DataProcessor.lambda_handler (H := sample_runtime) generated_batch clean)
      = Ok (success_reply (H := sample_runtime) 3 quiet_world))
  /\ reply_status (DataProcessor.lambda_handler (H := sample_runtime)
                     generated_batch refused)
     = Some 500
  /\ (exists w',
        DataProcessor.lambda_handler (H := sample_runtime)
          (JDict [("events", sample_events)]) partial_failure_world
        = (Ok (success_reply (H := sample_runtime) 2 partial_failure_world), w')
        /\ In (failure_warning (H := sample_runtime) Events partial_reply) (w_log w')).
Proof.
  intros noisy clean refused.
  destruct (bulk_errors_are_not_fatal (H := sample_runtime))
    as (_ & Same & Fatal & One).
  split; [split|split].
  - apply (Same generated_batch quiet_world
             (first_run_replies ++ [OsReply partial_reply; OsReply partial_reply])%list
             (first_run_replies ++ [OsReply (JDict []); OsReply (JDict [])])%list
             _ (snd (DataProcessor.lambda_handler (H := sample_runtime) generated_batch noisy))
             _ (snd (DataProcessor.lambda_handler (H := sample_runtime) generated_batch clean))).
    + repeat constructor.
    + vm_compute. reflexivity.
    + vm_compute. reflexivity.
  - vm_compute. reflexivity.
  - set (run := DataProcessor.lambda_handler (H := sample_runtime) generated_batch refused).
    assert (Run : run = (Ok (fatal_reply (H := sample_runtime)
                               (TransportError "timed out") quiet_world), snd run)).
    { vm_compute. reflexivity. }
    unfold reply_status. rewrite Run. cbn [fst]. apply (f_equal Some).
    eapply (Fatal generated_batch refused _ (snd run) (w_trace (snd run)) 5%nat _
              "timed out" Run).
    + vm_compute. reflexivity.
    + vm_compute. reflexivity.
    + reflexivity.
  - edestruct (One Events [("events", sample_events)] sample_events
                 partial_failure_world) as [Answered _].
    + repeat split; reflexivity.
    + vm_compute. reflexivity.
    + vm_compute. reflexivity.
    + destruct (Answered [("took", JInt 30); ("errors", JBool true)] [] eq_refl)
        as (w' & Run & Warned).
      exists w'. split; [exact Run|]. apply Warned; [discriminate | reflexivity].
Defined.

(** C1 fails on the single flattened-event path: for a well-formed event
    whose cache write fails (Redis drops the first command), the events
    path reports 0 processed records, [process_user_events] itself returns
    0, and yet [process_data_batch] on the flattened event returns 1 and
    the invocation reports one processed record. *)
Theorem single_event_counted_despite_cache_failure :
  let event := sample_event "e1" "u1" "s1" "view" in
  fst (DataProcessor.process_user_events (H := sample_runtime)
         (JList [event]) cache_fault_world) = Ok 0
  /\ fst (DataProcessor.process_data_batch (H := sample_runtime)
            (JDict [("events", JList [event])]) cache_fault_world) = Ok 0
  /\ fst (DataProcessor.process_data_batch (H := sample_runtime)
            event cache_fault_world) = Ok 1
  /\ fst (DataProcessor.lambda_handler (H := sample_runtime)
            event cache_fault_world)
     = Ok (success_reply (H := sample_runtime) 1 cache_fault_world)
  /\ fst (DataProcessor.process_data_batch (H := sample_runtime)
            (JDict [("event_type", JStr "view")]) quiet_world) = Ok 1.
Proof. vm_compute. repeat split; reflexivity. Qed.

Lemma pattern_lookup_omits_other_types_witness :
  let keys := capped (matching (H := sample_runtime) "*" (w_redis mixed_world)) in
  let results := pattern_results (w_redis mixed_world) keys in
  (exists w',
      ApiHandler.lambda_handler (H := sample_runtime)
        (ApiEvent (Some "GET") (Some "/cache") (Some [("pattern", "*")])) mixed_world
      = (Ok (pattern_reply (H := sample_runtime) "*" results), w'))
  /\ (forall k v, In k keys -> decoded (w_redis mixed_world) k = Some v ->
                  dict_get k results = Some v)
  /\ (forall k, decoded (w_redis mixed_world) k = None -> dict_get k results = None)
  /\ (length results <= length keys <= 100)%nat.
Proof.
  apply (pattern_lookup_omits_other_types (H := sample_runtime)
           (Some "GET") [("pattern", "*")] "*" mixed_world);
    first [reflexivity | discriminate | (eexists; reflexivity)].
Defined.

(** C7 as stated fails: of four keys matching [*], the set and the sorted
    set get no entry in the results (nothing reports them as unsupported)
    and the count is 2. *)
Lemma other_types_are_left_out :
  let run := ApiHandler.lambda_handler (H := sample_runtime)
               (ApiEvent (Some "GET") (Some "/cache") (Some [("pattern", "*")]))
               mixed_world in
  let results := [("user:u1", JDict [("last_event", JStr "view")]);
                  ("product_search:laptop", JStr "product_1")] in
  matching (H := sample_runtime) "*" (w_redis mixed_world)
  = ["category_products:books"; "user:u1"; "popular_products";
     "product_search:laptop"]
  /\ fst run = Ok (pattern_reply (H := sample_runtime) "*" results)
  /\ dict_get "category_products:books" results = None
  /\ dict_get "popular_products" results = None.
Proof. vm_compute. repeat split; reflexivity. Qed.

Lemma pattern_lookup_is_capped_witness :
  exists results w',
    ApiHandler.lambda_handler (H := sample_runtime)
      (ApiEvent (Some "GET") (Some "/cache") (Some [("pattern", "user:*")]))
      many_users_world
    = (Ok (pattern_reply (H := sample_runtime) "user:*" results), w')
    /\ (forall k, In k (map fst results) ->
                  In k (firstn 100 (matching (H := sample_runtime) "user:*"
                                      (w_redis many_users_world))))
    /\ (length results <= 100)%nat
    /\ (forallb (reportable (w_redis many_users_world))
                (firstn 100 (matching (H := sample_runtime) "user:*"
                               (w_redis many_users_world))) = true ->
        length results = 100%nat
        /\ map fst results
           = firstn 100 (matching (H := sample_runtime) "user:*"
                           (w_redis many_users_world))).
Proof.
  apply (pattern_lookup_is_capped (H := sample_runtime)
           (Some "GET") [("pattern", "user:*")] "user:*" many_users_world);
    first [reflexivity | discriminate | (eexists; reflexivity) | idtac].
  apply Nat.ltb_lt. vm_compute. reflexivity.
Defined.

(** C9 as stated fails: 101 keys match [category_products:*], all of them
    sets, and the successful reply has no entry at all. *)
Lemma capped_lookup_can_be_empty :
  let run := ApiHandler.lambda_handler (H := sample_runtime)
               (ApiEvent (Some "GET") (Some "/cache")
                         (Some [("pattern", "category_products:*")]))
               many_categories_world in
  length (matching (H := sample_runtime) "category_products:*"
            (w_redis many_categories_world)) = 101%nat
  /\ fst run = Ok (pattern_reply (H := sample_runtime) "category_products:*" []).
Proof. split; vm_compute; reflexivity. Qed.


Lemma ttl_fixed_by_key_class_witness :
  let event := sample_event "e1" "u1" "s1" "purchase" in
  let w' := snd (DataProcessor.cache_user_data (H := sample_runtime) event quiet_world) in
  (ttl_reply (w_redis w') "session:s1" = class_ttl SessionKey
   /\ 0 < ttl_reply (elapse 0 (w_redis w')) "session:s1" <= class_ttl SessionKey)
  /\ class_of "session:s1" = Some SessionKey.
Proof.
  destruct (ttl_fixed_by_key_class (H := sample_runtime) Events
              (sample_event "e1" "u1" "s1" "purchase") quiet_world (Ok tt)
              (snd (DataProcessor.cache_user_data (H := sample_runtime)
                      (sample_event "e1" "u1" "s1" "purchase") quiet_world)))
    as (Done & Class & _).
  - vm_compute. reflexivity.
  - split.
    + apply (Done eq_refl SessionKey "session:s1" 0).
      * exact (writes_session (H := sample_runtime) (w_today quiet_world)
                 (sample_event "e1" "u1" "s1" "purchase") (JStr "s1") eq_refl).
      * vm_compute. split; congruence.
    + apply Class.
      exact (writes_session (H := sample_runtime) (w_today quiet_world)
               (sample_event "e1" "u1" "s1" "purchase") (JStr "s1") eq_refl).
Defined.

(** C5 as stated fails: when Redis drops the [EXPIRE] that follows the
    first [HSET] of an event, the session key stays written without an
    expiry, an hour later it is still there, and the invocation answers
    200. *)
Lemma dropped_expire_leaves_session_for_ever :
  let batch := JDict [("events", JList [sample_event "e1" "u1" "s1" "view"])] in
  let run := DataProcessor.lambda_handler (H := sample_runtime) batch
               (with_faults [false; false; true] quiet_world) in
  reply_status run = Some 200
  /\ w_trace (snd run)
     = [OsExists "user-events"; OsCreate "user-events";
        OsExists "product-catalog"; OsCreate "product-catalog";
        Redis PING ""; Redis HSET "session:s1"; Redis EXPIRE "session:s1"]
  /\ ttl_reply (w_redis (snd run)) "session:s1" = -1
  /\ ttl_reply (elapse 3600 (w_redis (snd run))) "session:s1" = -1.
Proof. vm_compute. repeat split; reflexivity. Qed.

Lemma purchase_counter_counts_witness :
  let e1 := sample_event "e1" "u1" "s1" "purchase" in
  let e2 := sample_event "e2" "u2" "s2" "purchase" in
  let w1 := snd (DataProcessor.cache_user_data (H := sample_runtime) e1 quiet_world) in
  let w2 := snd (DataProcessor.cache_user_data (H := sample_runtime) e2 w1) in
  counter_read (w_redis w2) ("counters:" +:+ w_today quiet_world +:+ ":purchase")
  = Some (0 + Z.of_nat (length [e1; e2]))
  /\ (forall k record date event_type u r u' x,
        cache (H := sample_runtime) k record u = (r, u') ->
        counter_read (w_redis u) ("counters:" +:+ date +:+ ":" +:+ event_type) = Some x ->
        exists x',
          counter_read (w_redis u') ("counters:" +:+ date +:+ ":" +:+ event_type)
          = Some x' /\ x <= x').
Proof.
  apply (purchase_counter_counts (H := sample_runtime)
           [sample_event "e1" "u1" "s1" "purchase";
            sample_event "e2" "u2" "s2" "purchase"] quiet_world).
  - repeat constructor.
  - eapply cached_cons; [vm_compute; reflexivity|].
    eapply cached_cons; [vm_compute; reflexivity|].
    apply cached_nil.
  - reflexivity.
Defined.

(** * The further properties on concrete requests *)

Lemma unknown_route_is_not_found_witness :
  let event := ApiEvent (Some "POST") (Some "/search") (Some [("q", "laptop")]) in
  ApiHandler.lambda_handler (H := sample_runtime) event quiet_world
  = (Ok (not_found_reply (H := sample_runtime) event), api_entry event quiet_world).
Proof.
  apply (unknown_route_is_not_found (H := sample_runtime)
           (ApiEvent (Some "POST") (Some "/search") (Some [("q", "laptop")]))
           quiet_world).
  reflexivity.
Defined.

Lemma api_writes_only_the_search_cache_witness :
  let event := ApiEvent (Some "GET") (Some "/search")
                 (Some [("q", "smartphone"); ("index", "product-catalog")]) in
  let w := with_plan [OsReply smartphone_reply] mixed_world in
  let w' := snd (ApiHandler.lambda_handler (H := sample_runtime) event w) in
  (forall k, is_prefix "search_cache:" k = false -> w_redis w' !! k = w_redis w !! k)
  /\ (default "/" (path event) <> "/search" -> w_redis w' = w_redis w).
Proof.
  apply (api_writes_only_the_search_cache (H := sample_runtime)
           (ApiEvent (Some "GET") (Some "/search")
              (Some [("q", "smartphone"); ("index", "product-catalog")]))
           (with_plan [OsReply smartphone_reply] mixed_world)
           (Ok (search_reply (H := sample_runtime)
                  [("q", "smartphone"); ("index", "product-catalog")] false
                  smartphone_results))).
  vm_compute. reflexivity.
Defined.

Lemma ingestion_keeps_cached_searches_witness :
  let w := with_redis
             {["search_cache:product-catalog:smartphone:10"
               := Entry (RString "cached") (Some 120)]} quiet_world in
  let w' := snd (DataProcessor.lambda_handler (H := sample_runtime)
                   (JDict [("events", sample_events)]) w) in
  w_redis w' !! "search_cache:product-catalog:smartphone:10"
  = w_redis w !! "search_cache:product-catalog:smartphone:10".
Proof.
  apply (ingestion_keeps_cached_searches (H := sample_runtime)
           (JDict [("events", sample_events)])
           (with_redis
              {["search_cache:product-catalog:smartphone:10"
                := Entry (RString "cached") (Some 120)]} quiet_world)
           (Ok (success_reply (H := sample_runtime) 2 quiet_world))).
  - vm_compute. reflexivity.
  - reflexivity.
Defined.

Lemma api_issues_only_reads_witness :
  let event := ApiEvent (Some "GET") (Some "/cache") (Some [("pattern", "*")]) in
  exists calls,
    w_trace (snd (ApiHandler.lambda_handler (H := sample_runtime) event mixed_world))
    = (w_trace mixed_world ++ calls)%list
    /\ forallb api_call calls = true.
Proof.
  apply (api_issues_only_reads (H := sample_runtime)
           (ApiEvent (Some "GET") (Some "/cache") (Some [("pattern", "*")]))
           mixed_world
           (Ok (pattern_reply (H := sample_runtime) "*"
                  [("user:u1", JDict [("last_event", JStr "view")]);
                   ("product_search:laptop", JStr "product_1")]))).
  vm_compute. reflexivity.
Defined.

Lemma health_check_reports_witness :
  exists redis_state opensearch_state w',
    ApiHandler.lambda_handler (H := sample_runtime)
      (ApiEvent (Some "GET") (Some "/health") None) redis_down_world
    = (Ok (health_reply (H := sample_runtime) redis_state opensearch_state
             (w_now redis_down_world)), w')
    /\ (redis_state = "healthy" <-> redis_passes redis_down_world)
    /\ (opensearch_state = "healthy" <-> opensearch_passes redis_down_world)
    /\ (statusCode (health_reply (H := sample_runtime) redis_state opensearch_state
                      (w_now redis_down_world)) = 200
        <-> redis_passes redis_down_world /\ opensearch_passes redis_down_world).
Proof.
  apply (health_check_reports (H := sample_runtime) (Some "GET") None redis_down_world).
  reflexivity.
Defined.

Lemma key_lookup_reports_witness :
  exists w',
    ApiHandler.lambda_handler (H := sample_runtime)
      (ApiEvent (Some "GET") (Some "/cache")
         (Some [("key", "popular_products"); ("pattern", "user:*")])) mixed_world
    = (Ok (key_reply (H := sample_runtime) "popular_products"
             (w_redis mixed_world !! "popular_products")), w')
    /\ w_redis w' = w_redis mixed_world.
Proof.
  apply (key_lookup_reports (H := sample_runtime) (Some "GET")
           [("key", "popular_products"); ("pattern", "user:*")]
           "popular_products" mixed_world);
    first [reflexivity | discriminate | (eexists; reflexivity)].
Defined.

Lemma search_survives_cache_trouble_witness :
  let qp := [("q", "smartphone"); ("index", "product-catalog")] in
  let event := ApiEvent (Some "GET") (Some "/search") (Some qp) in
  let w := with_faults [false; true; true] search_world in
  exists w',
    (exists served,
        ApiHandler.lambda_handler (H := sample_runtime) event w
        = (Ok (search_reply (H := sample_runtime) qp true served), w')
        /\ cache_serves (H := sample_runtime) (w_redis w) (fingerprint qp 10) served
        /\ w_trace w' = (w_trace w ++ [Redis PING ""; Redis GET (fingerprint qp 10)])%list)
    \/ (ApiHandler.lambda_handler (H := sample_runtime) event w
        = (Ok (search_reply (H := sample_runtime) qp false smartphone_results), w')
        /\ w_trace w'
           = (w_trace w ++ [Redis PING ""; Redis GET (fingerprint qp 10);
                            OsSearch (index_of qp) (search_body qp 10);
                            Redis SETEX (fingerprint qp 10)])%list).
Proof.
  apply (search_survives_cache_trouble (H := sample_runtime) (Some "GET")
           [("q", "smartphone"); ("index", "product-catalog")] 10
           smartphone_reply [] smartphone_results
           (with_faults [false; true; true] search_world));
    first [ reflexivity | (eexists; reflexivity)
          | (split; [eexists; reflexivity | discriminate]) ].
Defined.

Lemma failed_search_caches_nothing_witness :
  let qp := [("q", "smartphone")] in
  let event := ApiEvent (Some "GET") (Some "/search") (Some qp) in
  let w := with_plan [OsDown "ConnectionTimeout"] quiet_world in
  (forall m rest,
      w_os_plan w = OsDown m :: rest ->
      exists w', ApiHandler.lambda_handler (H := sample_runtime) event w
                 = (Ok (search_failed_reply (H := sample_runtime) m), w')
                 /\ w_redis w' = w_redis w)
  /\ (forall reply rest e,
        w_os_plan w = OsReply reply :: rest ->
        ApiHandler.format_results reply = Raise e ->
        exists w', ApiHandler.lambda_handler (H := sample_runtime) event w
                   = (Ok (search_failed_reply (H := sample_runtime) (exn_str e)), w')
                   /\ w_redis w' = w_redis w).
Proof.
  apply (failed_search_caches_nothing (H := sample_runtime) (Some "GET")
           [("q", "smartphone")] 10 (with_plan [OsDown "ConnectionTimeout"] quiet_world)).
  - reflexivity.
  - reflexivity.
  - eexists. reflexivity.
  - split; [eexists; reflexivity | discriminate].
  - intros results (s & t & L & _). vm_compute in L. discriminate L.
Defined.

Lemma cached_search_crosses_index_and_query_witness :
  let w := with_redis
             {["search_cache:user-events:view:purchase:10"
               := Entry (RString "[]") (Some 120)]} quiet_world in
  let qp := [("q", "purchase"); ("index", "user-events" +:+ ":" +:+ "view")] in
  exists w',
    ApiHandler.lambda_handler (H := sample_runtime)
      (ApiEvent (Some "GET") (Some "/search") (Some qp)) w
    = (Ok (search_reply (H := sample_runtime) qp true (JList [])), w').
Proof.
  apply (cached_search_crosses_index_and_query (H := sample_runtime) (Some "GET")
           "user-events" "view" "purchase" (JList [])
           (with_redis
              {["search_cache:user-events:view:purchase:10"
                := Entry (RString "[]") (Some 120)]} quiet_world)).
  - reflexivity.
  - eexists. reflexivity.
  - eexists. reflexivity.
  - reflexivity.
  - exists "[]", (Some 120). split; [vm_compute; reflexivity|].
    split; [discriminate | vm_compute; reflexivity].
Defined.


Lemma interrupted_write_leaves_no_expiry_witness :
  let event := sample_event "e1" "u1" "s1" "view" in
  exists e w',
    DataProcessor.cache_user_data (H := sample_runtime) event
      (with_faults [false; true] quiet_world) = (Raise e, w')
    /\ is_Some (w_redis w' !! ("session:" +:+ py_str (H := sample_runtime) (JStr "s1")))
    /\ ttl_reply (w_redis w')
         ("session:" +:+ py_str (H := sample_runtime) (JStr "s1")) = -1.
Proof.
  apply (interrupted_write_leaves_no_expiry (H := sample_runtime)
           (sample_event "e1" "u1" "s1" "view") (JStr "s1")
           (with_faults [false; true] quiet_world)
           (snd (DataProcessor.cache_user_data (H := sample_runtime)
                   (sample_event "e1" "u1" "s1" "view") quiet_world)) []).
  - vm_compute. reflexivity.
  - reflexivity.
  - reflexivity.
  - reflexivity.
Defined.

Lemma unrecognised_payload_is_accepted_witness :
  let event := JDict [("Events", sample_events)] in
  exists w',
    DataProcessor.lambda_handler (H := sample_runtime) event quiet_world
    = (Ok (success_reply (H := sample_runtime) 0 quiet_world), w')
    /\ w_redis w' = w_redis quiet_world
    /\ w_trace w'
       = w_trace (snd (DataProcessor.create_opensearch_indices
                         (processor_entry quiet_world))).
Proof.
  apply (unrecognised_payload_is_accepted (H := sample_runtime)
           (JDict [("Events", sample_events)]) quiet_world
           (snd (DataProcessor.create_opensearch_indices
                   (processor_entry quiet_world)))).
  - reflexivity.
  - reflexivity.
  - reflexivity.
  - reflexivity.
  - vm_compute. reflexivity.
Defined.


Lemma mixed_batch_adds_the_counts_witness :
  let product := JDict [("id", JStr "product_7"); ("name", JStr "Smartphone 7");
                        ("category", JStr "electronics"); ("price", JFloat "499.0");
                        ("brand", JStr "Brand_1")] in
  let d := [("events", sample_events); ("products", JList [product]);
            ("batch_id", JStr "b1")] in
  let w0 := snd (DataProcessor.create_opensearch_indices (processor_entry quiet_world)) in
  (forall ne w1 np w2,
      DataProcessor.process_user_events (H := sample_runtime) sample_events w0
      = (Ok ne, w1) ->
      DataProcessor.process_products (H := sample_runtime) (JList [product])
        (noted ("Processed " +:+ str_of_Z ne +:+ " events") w1) = (Ok np, w2) ->
      exists w',
        DataProcessor.lambda_handler (H := sample_runtime) (JDict d) quiet_world
        = (Ok (success_reply (H := sample_runtime) (ne + np) quiet_world), w'))
  /\ (forall e w1,
        DataProcessor.process_user_events (H := sample_runtime) sample_events w0
        = (Raise e, w1) ->
        exists w',
          DataProcessor.lambda_handler (H := sample_runtime) (JDict d) quiet_world
          = (Ok (fatal_reply (H := sample_runtime) e quiet_world), w')
          /\ w_redis w' = w_redis w1 /\ w_trace w' = w_trace w1).
Proof.
  apply (mixed_batch_adds_the_counts (H := sample_runtime)
           [("events", sample_events);
            ("products",
             JList [JDict [("id", JStr "product_7"); ("name", JStr "Smartphone 7");
                           ("category", JStr "electronics"); ("price", JFloat "499.0");
                           ("brand", JStr "Brand_1")]]);
            ("batch_id", JStr "b1")]
           sample_events
           (JList [JDict [("id", JStr "product_7"); ("name", JStr "Smartphone 7");
                          ("category", JStr "electronics"); ("price", JFloat "499.0");
                          ("brand", JStr "Brand_1")]])
           quiet_world
           (snd (DataProcessor.create_opensearch_indices (processor_entry quiet_world)))).
  - reflexivity.
  - reflexivity.
  - reflexivity.
  - reflexivity.
  - vm_compute. reflexivity.
Defined.

Lemma malformed_record_stops_the_batch_witness :
  let first := JDict [("events", sample_events)] in
  let bad := JDict [("body", JStr "{not json")] in
  let d := [("Records", JList [first; bad; first])] in
  let w0 := snd (DataProcessor.create_opensearch_indices (processor_entry quiet_world)) in
  let w1 := snd (DataProcessor.records_loop (H := sample_runtime) [first] 0 w0) in
  exists e w',
    DataProcessor.lambda_handler (H := sample_runtime) (JDict d) quiet_world
    = (Ok (fatal_reply (H := sample_runtime) e quiet_world), w')
    /\ w_redis w' = w_redis w1 /\ w_trace w' = w_trace w1.
Proof.
  apply (malformed_record_stops_the_batch (H := sample_runtime)
           [("Records", JList [JDict [("events", sample_events)];
                               JDict [("body", JStr "{not json")];
                               JDict [("events", sample_events)]])]
           [JDict [("events", sample_events)]] [JDict [("events", sample_events)]]
           (JDict [("body", JStr "{not json")]) "{not json" quiet_world
           (snd (DataProcessor.create_opensearch_indices (processor_entry quiet_world)))
           _ 2).
  - reflexivity.
  - reflexivity.
  - vm_compute. reflexivity.
  - vm_compute. reflexivity.
  - vm_compute. reflexivity.
Defined.

Lemma processed_count_is_the_bulk_size_witness :
  let records := [sample_event "e1" "u1" "s1" "view";
                  JDict [("id", JStr "e2"); ("event_type", JStr "view")]] in
  let w := with_clients false true quiet_world in
  let w' := snd (process (H := sample_runtime) Events (JList records) w) in
  exists w0 kept w1,
    bind get_opensearch_client (fun _ => get_redis_client) w = (Ok tt, w0)
    /\ gathers (H := sample_runtime) Events records w0 kept w1
    /\ (forall kept' w1',
          gathers (H := sample_runtime) Events records w0 kept' w1' ->
          kept' = kept /\ w1' = w1)
    /\ 1 = Z.of_nat (length kept)
    /\ w_trace w' = (w_trace w1 ++ bulk_call Events kept)%list
    /\ w_redis w' = w_redis w1.
Proof.
  apply (processed_count_is_the_bulk_size (H := sample_runtime) Events
           [sample_event "e1" "u1" "s1" "view";
            JDict [("id", JStr "e2"); ("event_type", JStr "view")]]
           (with_clients false true quiet_world)).
  - repeat constructor; eexists; reflexivity.
  - vm_compute. reflexivity.
Defined.

Lemma pattern_lookup_survives_failed_reads_witness :
  let w := with_faults [false; false; true; false; true] mixed_world in
  exists results w',
    ApiHandler.lambda_handler (H := sample_runtime)
      (ApiEvent (Some "GET") (Some "/cache") (Some [("pattern", "*")])) w
    = (Ok (pattern_reply (H := sample_runtime) "*" results), w')
    /\ forall k, In k (map fst results) ->
                 In k (capped (matching (H := sample_runtime) "*" (w_redis w))).
Proof.
  apply (pattern_lookup_survives_failed_reads (H := sample_runtime) (Some "GET")
           [("pattern", "*")] "*"
           (with_faults [false; false; true; false; true] mixed_world)
           [true; false; true]);
    first [reflexivity | discriminate | (eexists; reflexivity)].
Defined.

Lemma sample_glob_star (k : string) : sample_glob "*" k = true.
Proof.
  induction k as [|c k IH]; [reflexivity|].
  cbn in IH |- *. exact IH.
Qed.

Lemma metrics_count_the_keys_witness :
  exists w',
    ApiHandler.lambda_handler (H := sample_runtime)
      (ApiEvent (Some "GET") (Some "/metrics") (Some [])) mixed_world
    = (Ok (metrics_reply (H := sample_runtime) (w_redis_info mixed_world)
             (Z.of_nat (size (w_redis mixed_world))) (w_now mixed_world)), w')
    /\ w_trace w'
       = (w_trace mixed_world ++ [Redis PING ""; Redis INFO ""; Redis KEYS "*"])%list
    /\ w_redis w' = w_redis mixed_world.
Proof.
  apply (metrics_count_the_keys (H := sample_runtime) (Some "GET") [] mixed_world).
  - reflexivity.
  - exact sample_glob_star.
  - eexists. reflexivity.
  - reflexivity.
Defined.

Lemma cached_user_is_found_witness :
  let event := sample_event "e1" "u1" "s1" "view" in
  let w1 := snd (DataProcessor.cache_user_data (H := sample_runtime) event quiet_world) in
  exists hu session_data w',
    ApiHandler.lambda_handler (H := sample_runtime)
      (ApiEvent (Some "GET") (Some "/user")
         (Some [("user_id", py_str (H := sample_runtime) (JStr "u1"))]))
      (with_redis (elapse 7200 (w_redis w1)) w1)
    = (Ok (user_reply (H := sample_runtime) (py_str (H := sample_runtime) (JStr "u1"))
             (map_to_list hu) session_data), w')
    /\ hu !! "current_session" = Some (py_str (H := sample_runtime) (JStr "s1"))
    /\ (7200 < 3600 ->
        dict_get "user_id" session_data
        = Some (py_str (H := sample_runtime) (JStr "u1")))
    /\ (3600 <= 7200 -> session_data = []).
Proof.
  apply (cached_user_is_found (H := sample_runtime) (Some "GET")
           (sample_event "e1" "u1" "s1" "view") (JStr "u1") (JStr "s1") quiet_world).
  - reflexivity.
  - vm_compute. reflexivity.
  - reflexivity.
  - reflexivity.
  - discriminate.
  - eexists. vm_compute. reflexivity.
  - vm_compute. reflexivity.
  - lia.
Defined.

Lemma analytics_report_the_counters_witness :
  let w := snd (DataProcessor.cache_user_data (H := sample_runtime)
                  (sample_event "e1" "u1" "s1" "purchase") quiet_world) in
  let count := fun ty => if String.eqb ty "purchase" then 1 else 0 in
  exists w',
    ApiHandler.lambda_handler (H := sample_runtime)
      (ApiEvent (Some "GET") (Some "/analytics") (Some [])) w
    = (Ok (analytics_reply (H := sample_runtime) (w_today w) [("product_7", 1)] []
             (map (fun ty => (ty, count ty)) reported_event_types)), w')
    /\ w_redis w' = w_redis w.
Proof.
  apply (analytics_report_the_counters (H := sample_runtime) (Some "GET") []
           (snd (DataProcessor.cache_user_data (H := sample_runtime)
                   (sample_event "e1" "u1" "s1" "purchase") quiet_world))
           (fun ty => if String.eqb ty "purchase" then 1 else 0)
           [("product_7", 1)] []).
  - reflexivity.
  - exact Z_of_str_of_Z.
  - eexists. vm_compute. reflexivity.
  - vm_compute. reflexivity.
  - vm_compute. reflexivity.
  - vm_compute. reflexivity.
  - intros ty [<-|[<-|[<-|[<-|[<-|[]]]]]]; vm_compute; reflexivity.
Defined.

Lemma product_cache_write_is_idempotent_witness :
  let product := JDict [("id", JStr "product_7"); ("name", JStr "Smartphone 7");
                        ("category", JStr "electronics"); ("price", JFloat "499.0");
                        ("brand", JStr "Brand_1")] in
  let w1 := snd (DataProcessor.cache_product_data (H := sample_runtime)
                   product quiet_world) in
  exists w2,
    DataProcessor.cache_product_data (H := sample_runtime) product w1 = (Ok tt, w2)
    /\ w_redis w2 = w_redis w1.
Proof.
  apply (product_cache_write_is_idempotent (H := sample_runtime)
           (JDict [("id", JStr "product_7"); ("name", JStr "Smartphone 7");
                   ("category", JStr "electronics"); ("price", JFloat "499.0");
                   ("brand", JStr "Brand_1")]) quiet_world).
  - vm_compute. reflexivity.
  - vm_compute. reflexivity.
Defined.

Lemma redis_client_is_kept_untested_witness :
  let w1 := snd (get_redis_client redis_down_world) in
  get_redis_client w1 = (Ok tt, w1).
Proof.
  apply (redis_client_is_kept_untested redis_down_world
           (Raise (ConnectionError "Error while reading from socket"))).
  - eexists. reflexivity.
  - vm_compute. reflexivity.
Defined.


Lemma envelope_counts_add_up_witness :
  let first := JDict [("events", sample_events)] in
  let d := [("Records", JList ([first] ++ [first]))] in
  exists w',
    DataProcessor.lambda_handler (H := sample_runtime) (JDict d) quiet_world
    = (Ok (success_reply (H := sample_runtime) (2 + 2) quiet_world), w').
Proof.
  apply (envelope_counts_add_up (H := sample_runtime)
           [("Records", JList ([JDict [("events", sample_events)]]
                               ++ [JDict [("events", sample_events)]]))]
           [JDict [("events", sample_events)]] [JDict [("events", sample_events)]]
           quiet_world
           (snd (DataProcessor.create_opensearch_indices (processor_entry quiet_world)))
           (snd (DataProcessor.records_loop (H := sample_runtime)
                   [JDict [("events", sample_events)]] 0
                   (snd (DataProcessor.create_opensearch_indices
                           (processor_entry quiet_world)))))
           (snd (DataProcessor.records_loop (H := sample_runtime)
                   [JDict [("events", sample_events)]] 0
                   (snd (DataProcessor.records_loop (H := sample_runtime)
                           [JDict [("events", sample_events)]] 0
                           (snd (DataProcessor.create_opensearch_indices
                                   (processor_entry quiet_world)))))))
           2 2).
  - reflexivity.
  - vm_compute. reflexivity.
  - vm_compute. reflexivity.
  - vm_compute. reflexivity.
Defined.

Lemma popular_products_scores_count_witness :
  let event := sample_event "e1" "u1" "s1" "view" in
  let w' := snd (DataProcessor.cache_user_data (H := sample_runtime) event mixed_world) in
  score_read (w_redis w') "popular_products"
    (py_str (H := sample_runtime) (JStr "product_7")) = Some (0 + 1)
  /\ (forall k record member u r u' x,
        cache (H := sample_runtime) k record u = (r, u') ->
        score_read (w_redis u) "popular_products" member = Some x ->
        exists x', score_read (w_redis u') "popular_products" member = Some x'
                   /\ x <= x').
Proof.
  apply (popular_products_scores_count (H := sample_runtime)
           (sample_event "e1" "u1" "s1" "view") (JStr "product_7") mixed_world).
  - vm_compute. reflexivity.
  - reflexivity.
  - vm_compute. reflexivity.
Defined.
